(** * buddy: pools of agents, commands and shared context

    A shallow embedding of [src/config.ts] and of the command line
    program [src/index.ts] (pool layout, configuration loading,
    extension fallback, reference parsing, repository acquisition,
    import, tool and list), followed by the properties of these
    functions.

    Strings are Rocq [string]s, that is sequences of 8-bit characters;
    the case mapping and the white space of the model are the ASCII
    ones. *)

From Stdlib Require Import String Ascii List Bool ZArith Lia.
From Stdlib Require Import Sorted Permutation.
Import ListNotations.

Local Open Scope string_scope.
Local Open Scope list_scope.

Infix "+++" := String.append (right associativity, at level 60).

(* ================================================================= *)
(** ** JavaScript strings *)

Module JsString.

(** [s.split(c)] for a one-character separator: never empty, one more
    segment than there are separators. *)
Fixpoint split (c : ascii) (s : string) : list string :=
  match s with
  | EmptyString => [EmptyString]
  | String a r =>
      if Ascii.eqb a c then EmptyString :: split c r
      else match split c r with
           | h :: t => String a h :: t
           | [] => [String a EmptyString]
           end
  end.

(** [parts.join(sep)] on an array of strings. *)
Fixpoint join (sep : string) (l : list string) : string :=
  match l with
  | [] => EmptyString
  | [x] => x
  | x :: r => x +++ sep +++ join sep r
  end.

(** [s.endsWith(suf)] *)
Fixpoint endsWith (s suf : string) : bool :=
  if String.eqb s suf then true
  else match s with
       | EmptyString => false
       | String _ r => endsWith r suf
       end.

(** [s.startsWith(pre)] *)
Definition startsWith (s pre : string) : bool := String.prefix pre s.

(** [s.includes(sub)] *)
Fixpoint includes (s sub : string) : bool :=
  if String.prefix sub s then true
  else match s with
       | EmptyString => false
       | String _ r => includes r sub
       end.

(** [s.replace(/SUF$/, '')] for a literal, non-empty SUF: the suffix is
    removed when the string ends with it, once. *)
Fixpoint stripSuffix (suf s : string) : string :=
  if String.eqb s suf then EmptyString
  else match s with
       | EmptyString => EmptyString
       | String a r => String a (stripSuffix suf r)
       end.

Definition lowerChar (a : ascii) : ascii :=
  let n := nat_of_ascii a in
  if (65 <=? n)%nat && (n <=? 90)%nat then ascii_of_nat (n + 32) else a.

(** [s.toLowerCase()] on a string of ASCII characters: the letters
    [A] to [Z] are mapped, every other character is kept.  The case
    mapping of JavaScript also maps letters outside ASCII, which this
    one keeps. *)
Fixpoint toLowerCase (s : string) : string :=
  match s with
  | EmptyString => EmptyString
  | String a r => String (lowerChar a) (toLowerCase r)
  end.

Definition isSpace (a : ascii) : bool :=
  let n := nat_of_ascii a in
  (n =? 32)%nat || ((9 <=? n)%nat && (n <=? 13)%nat).

Fixpoint trimStart (s : string) : string :=
  match s with
  | EmptyString => EmptyString
  | String a r => if isSpace a then trimStart r else s
  end.

Fixpoint trimEnd (s : string) : string :=
  match s with
  | EmptyString => EmptyString
  | String a r =>
      match trimEnd r with
      | EmptyString => if isSpace a then EmptyString else String a EmptyString
      | r' => String a r'
      end
  end.

(** [s.trim()] on a string of ASCII characters: the white space is
    the space and the characters 9 to 13.  JavaScript also removes the
    white space outside ASCII (U+00A0, U+FEFF, U+2028, U+2029 and the
    Unicode spaces), which this one keeps. *)
Definition trim (s : string) : string := trimEnd (trimStart s).

Fixpoint drop (n : nat) (s : string) : string :=
  match n, s with
  | O, _ => s
  | S n', String _ r => drop n' r
  | S _, EmptyString => EmptyString
  end.

(** [s.replace(sub, '')] for a literal [sub]: the first occurrence is
    removed. *)
Fixpoint removeFirst (sub s : string) : string :=
  if String.prefix sub s then drop (String.length sub) s
  else match s with
       | EmptyString => EmptyString
       | String a r => String a (removeFirst sub r)
       end.

Fixpoint insertSorted (x : string) (l : list string) : list string :=
  match l with
  | [] => [x]
  | y :: r => if String.leb x y then x :: l else y :: insertSorted x r
  end.

(** [items.sort()] on an array of strings: ascending by character
    codes.  On strings of ASCII characters this is the order of
    JavaScript, which compares UTF-16 code units; read as UTF-8, the
    two orders differ only between a character above U+FFFF and one
    from U+E000 to U+FFFF. *)
Definition sort (l : list string) : list string :=
  List.fold_right insertSorted [] l.

Definition dquote : string := String (ascii_of_nat 34) EmptyString.
Definition backslash : string := String (ascii_of_nat 92) EmptyString.

Definition hexDigit (n : nat) : string :=
  String.substring n 1 "0123456789abcdef".

Definition escapeChar (a : ascii) : string :=
  let n := nat_of_ascii a in
  if (n =? 34)%nat then backslash +++ dquote
  else if (n =? 92)%nat then backslash +++ backslash
  else if (n =? 8)%nat then backslash +++ "b"
  else if (n =? 9)%nat then backslash +++ "t"
  else if (n =? 10)%nat then backslash +++ "n"
  else if (n =? 12)%nat then backslash +++ "f"
  else if (n =? 13)%nat then backslash +++ "r"
  else if (n <? 32)%nat then
    backslash +++ "u00" +++ hexDigit (n / 16) +++ hexDigit (n mod 16)
  else String a EmptyString.

Fixpoint escape (s : string) : string :=
  match s with
  | EmptyString => EmptyString
  | String a r => escapeChar a +++ escape r
  end.

(** [JSON.stringify({ key: value })] for a string [value]. *)
Definition stringifyField (key value : string) : string :=
  "{" +++ dquote +++ key +++ dquote +++ ":"
      +++ dquote +++ escape value +++ dquote +++ "}".

(** [a || b] on strings: the empty string is falsy. *)
Definition orElse (a b : string) : string :=
  if String.eqb a "" then b else a.

End JsString.

(* ================================================================= *)
(** ** Parsed JSON and JavaScript values *)

(** The result of [Bun.file(p).json()].  A number is carried as its
    canonical rendering [String(n)], the only observation the program
    makes of it.  The members of an object are listed in the order of
    the text. *)
#[warnings="-register-all"]
Inductive json : Type :=
| JNull
| JBool (b : bool)
| JNum (repr : string)
| JStr (s : string)
| JArr (items : list json)
| JObj (members : list (string * json)).

(** A JavaScript value of the program: [None] is [undefined]. *)
Definition jsval : Type := option json.

Definition undefined : jsval := None.

Module Js.

(** Member lookup of [JSON.parse]: the last member of a name wins. *)
Fixpoint lookup (k : string) (m : list (string * json)) : jsval :=
  match m with
  | [] => None
  | (k', v) :: r =>
      match lookup k r with
      | Some v' => Some v'
      | None => if String.eqb k k' then Some v else None
      end
  end.

(** [a ?? b]: the right operand replaces [undefined] and [null] only. *)
Definition nullish (a : jsval) (b : json) : json :=
  match a with
  | None => b
  | Some JNull => b
  | Some v => v
  end.

(** Conversion of a value inside a template literal, [`${v}`]. *)
Fixpoint toStr (v : json) : string :=
  match v with
  | JNull => "null"
  | JBool true => "true"
  | JBool false => "false"
  | JNum r => r
  | JStr s => s
  | JArr items =>
      JsString.join ","
        (List.map (fun x => match x with JNull => "" | _ => toStr x end) items)
  | JObj _ => "[object Object]"
  end.

Definition toStrV (v : jsval) : string :=
  match v with
  | None => "undefined"
  | Some j => toStr j
  end.

(** Truthiness of a value in a condition. *)
Definition truthy (v : json) : bool :=
  match v with
  | JNull => false
  | JBool b => b
  | JNum r => negb (String.eqb r "0")
  | JStr s => negb (String.eqb s "")
  | JArr _ | JObj _ => true
  end.

End Js.

(* ================================================================= *)
(** ** [path.join] (POSIX) *)

Module Path.

Definition slash : ascii := "/"%char.

(** One segment of Node's [normalizeString]; the stack holds the
    segments kept so far, last one first. *)
Definition normStep (allowAboveRoot : bool) (stk : list string) (s : string)
  : list string :=
  if String.eqb s "" || String.eqb s "." then stk
  else if String.eqb s ".." then
    match stk with
    | top :: rest =>
        if String.eqb top ".."
        then (if allowAboveRoot then ".." :: stk else stk)
        else rest
    | [] => if allowAboveRoot then [".."] else []
    end
  else s :: stk.

Definition normalizeString (allowAboveRoot : bool) (path : string) : string :=
  JsString.join "/"
    (rev (fold_left (normStep allowAboveRoot) (JsString.split slash path) [])).

Definition normalize (path : string) : string :=
  if String.eqb path "" then "."
  else
    let isAbsolute := JsString.startsWith path "/" in
    let trailingSeparator := JsString.endsWith path "/" in
    let p := normalizeString (negb isAbsolute) path in
    if String.eqb p "" then
      (if isAbsolute then "/" else if trailingSeparator then "./" else ".")
    else
      (if isAbsolute then "/" else "") +++ p +++
      (if trailingSeparator then "/" else "").

(** [join(...args)]: empty arguments are skipped. *)
Definition join (args : list string) : string :=
  match List.filter (fun a => negb (String.eqb a "")) args with
  | [] => "."
  | parts => normalize (JsString.join "/" parts)
  end.

(** [dirname] and [resolve] are the ones [src/config.ts] walks up the
    directories with. *)

Fixpoint dropWhile {A} (p : A -> bool) (l : list A) : list A :=
  match l with
  | [] => []
  | x :: r => if p x then dropWhile p r else l
  end.

Definition isSlash (a : ascii) : bool := Ascii.eqb a slash.

(** [dirname(path)]: the scan from the end of Node's implementation,
    over the characters after the first: the trailing slashes, then
    the last segment, then the slash before it. *)
Definition dirname (path : string) : string :=
  match list_ascii_of_string path with
  | [] => "."
  | first :: rest =>
      let hasRoot := isSlash first in
      let afterSlashes := dropWhile isSlash (rev rest) in
      let afterName := dropWhile (fun a => negb (isSlash a)) afterSlashes in
      match afterName with
      | [] => if hasRoot then "/" else "."
      | _ :: before =>
          if hasRoot && match before with [] => true | _ => false end
          then "//"
          else string_of_list_ascii (first :: rev before)
      end
  end.

(** One turn of the loop of [resolve], from the last argument to the
    first and then the working directory. *)
Definition resolveStep (acc : string * bool) (path : string) : string * bool :=
  let (resolvedPath, resolvedAbsolute) := acc in
  if resolvedAbsolute then acc
  else if String.eqb path "" then acc
  else (path +++ "/" +++ resolvedPath, JsString.startsWith path "/").

(** [resolve(...args)] in the working directory [cwd]. *)
Definition resolve (cwd : string) (args : list string) : string :=
  let (resolvedPath, resolvedAbsolute) :=
    fold_left resolveStep (rev args ++ [cwd]) ("", false) in
  let normalized := normalizeString (negb resolvedAbsolute) resolvedPath in
  if resolvedAbsolute then "/" +++ normalized
  else if String.eqb normalized "" then "." else normalized.

End Path.

(* ================================================================= *)
(** ** Symbolic references ([parseImportSource]) *)

Record ImportSource : Type := mkImportSource {
  repoName : string;
  agentPath : string;
  filename : string
}.

Definition parseImportSource (source : string) : ImportSource :=
  let parts := JsString.split Path.slash source in
  {| repoName := JsString.orElse (List.hd "" parts) "unknown-repo";
     agentPath := JsString.join "/" (List.tl parts);
     filename := JsString.orElse (List.last parts "") "unknown-agent" |}.

(* ================================================================= *)
(** ** The runtime: file system, console, user, git *)

(** What a run can throw.  The text of an error is the runtime's, see
    [render_error]. *)
Inductive exn : Type :=
| NullDeref (prop : string)          (* property read on [null] *)
| InvalidPathArg (v : json)          (* [path.join] on a non-string *)
| JsonFailure (path : string)        (* [Bun.file(path).json()] *)
| ReadFailure (path : string)        (* [Bun.file(path).text()] *)
| WriteFailure (path : string)       (* [Bun.write(path, _)] *)
| ScanFailure (cwd : string)         (* [glob.scan({cwd})] *)
| ShellFailure (cmd : string)        (* non-zero exit of a [Bun.$] command *)
| InvalidUrl (url : string).         (* [new URL(url)] *)

Record Url : Type := mkUrl { protocol : string; pathname : string }.

(** Everything the program reads from its environment. *)
Record World : Type := mkWorld {
  homedir : string;
  cwd : string;
  file_exists : string -> bool;
  file_json : string -> option json;
  file_text : string -> option string;
  write_ok : string -> bool;
  glob_scan : string -> string -> option (list string);
  prompt_reply : string -> option string;
  git_origin : string -> option string;
  git_pull_ok : string -> bool;
  git_clone_ok : string -> string -> bool;
  url_parse : string -> option Url;
  render_error : exn -> string
}.

(** What a run does, in order. *)
Inductive event : Type :=
| EvExists (path : string)
| EvReadJson (path : string)
| EvReadText (path : string)
| EvWrite (path content : string)
| EvScan (pattern cwd : string)
| EvLog (line : string)
| EvError (line : string)
| EvPrompt (message : string)
| EvGitOrigin (cwd : string)
| EvGitPull (cwd : string)
| EvGitClone (url path : string).

Inductive outcome (A : Type) : Type :=
| Ret (a : A)
| Throw (e : exn)
| Exit (code : Z).

Arguments Ret {A} a.
Arguments Throw {A} e.
Arguments Exit {A} code.

(** A computation: the events it performed and how it ended. *)
Definition M (A : Type) : Type := (list event * outcome A)%type.

Definition ret {A} (a : A) : M A := ([], Ret a).

Definition bind {A B} (m : M A) (f : A -> M B) : M B :=
  match m with
  | (t, Ret a) => let (t', o) := f a in (t ++ t', o)
  | (t, Throw e) => (t, Throw e)
  | (t, Exit c) => (t, Exit c)
  end.

Definition throw {A} (e : exn) : M A := ([], Throw e).

(** [process.exit(code)] *)
Definition process_exit {A} (code : Z) : M A := ([], Exit code).

Definition emit (e : event) : M unit := ([e], Ret tt).

(** [try { m } catch (error) { h error }] *)
Definition try_catch {A} (m : M A) (h : exn -> M A) : M A :=
  match m with
  | (t, Throw e) => let (t', o) := h e in (t ++ t', o)
  | other => other
  end.

Notation "x <- m ;; k" := (bind m (fun x => k))
  (at level 61, m at next level, right associativity).
Notation "m ;;; k" := (bind m (fun _ => k))
  (at level 61, right associativity).

Definition trace {A} (m : M A) : list event := fst m.
Definition result {A} (m : M A) : outcome A := snd m.

(** Exit status of the process when a command ends this way: a normal
    return ends with 0, an uncaught error with 1. *)
Definition exitStatus {A} (m : M A) : Z :=
  match result m with
  | Ret _ => 0
  | Throw _ => 1
  | Exit c => c
  end.

Definition console_log (s : string) : M unit := emit (EvLog s).
Definition console_error (s : string) : M unit := emit (EvError s).

(** The argument check of [path.join]. *)
Definition pathArg (v : json) : M string :=
  match v with
  | JStr s => ret s
  | _ => throw (InvalidPathArg v)
  end.

(** [v.prop] on a parsed value, for the property names of the
    configuration. *)
Definition getProp (v : json) (prop : string) : M jsval :=
  match v with
  | JNull => throw (NullDeref prop)
  | JObj m => ret (Js.lookup prop m)
  | _ => ret undefined
  end.

(* ================================================================= *)
(** ** [src/config.ts] *)

Module BuddyConfig.

Record t : Type := mk {
  agents : json;
  commands : json;
  context : json;
  extension : jsval;
  pools : jsval
}.

(** The constructor: a default parameter replaces [undefined]. *)
Definition constructor (agents commands context extension pools : jsval) : t :=
  {| agents := match agents with None => JStr "" | Some v => v end;
     commands := match commands with None => JStr "commands" | Some v => v end;
     context := match context with None => JStr "shared" | Some v => v end;
     extension := extension;
     pools := pools |}.

(** [BuddyConfig.new()] *)
Definition new : t := constructor None None None None None.

End BuddyConfig.

Definition normalizeUrl (u : string) : string :=
  JsString.toLowerCase (JsString.stripSuffix ".git" u).

(** Records of [src/index.ts]. *)

Module AddPaths.
Record t : Type := mk {
  localAgentsPath : string;
  sourcePath : string;
  destPath : string
}.
End AddPaths.

Module ImportPaths.
Record t : Type := mk {
  sourcePath : option string;
  destPath : string;
  destLocation : string;
  extension : jsval;
  agentsConfigPath : json
}.
End ImportPaths.

Module RepoPaths.
Record t : Type := mk { poolsPath : string; repoPath : string }.
End RepoPaths.

Module AddPathConfig.
Record t : Type := mk {
  agentName : string;
  basePath : option string;
  usePersonalClaude : bool
}.
End AddPathConfig.

Module AddOptions.
Record t : Type := mk {
  claudeProject : option string;
  claudePersonal : option string;
  command : option string;
  shared : option string;
  as_ : option string
}.
End AddOptions.

Module ImportOptions.
Record t : Type := mk {
  claudeProject : bool;
  claudePersonal : bool;
  force : bool
}.
End ImportOptions.

Module ListOptions.
Record t : Type := mk { commands : bool; shared : bool }.
End ListOptions.

Module ImportPathConfig.
Record t : Type := mk {
  repoName : string;
  agentPath : string;
  filename : string;
  toClaudeProject : bool;
  toClaudePersonal : bool;
  basePath : option string
}.
End ImportPathConfig.

Record Validation : Type := mkValidation {
  isValid : bool;
  error : option string
}.

Section Program.

Variable w : World.

(** *** Runtime calls *)

Definition Bun_file_exists (path : string) : M bool :=
  emit (EvExists path) ;;; ret (file_exists w path).

Definition Bun_file_json (path : string) : M json :=
  emit (EvReadJson path) ;;;
  match file_json w path with
  | Some v => ret v
  | None => throw (JsonFailure path)
  end.

Definition Bun_file_text (path : string) : M string :=
  emit (EvReadText path) ;;;
  match file_text w path with
  | Some s => ret s
  | None => throw (ReadFailure path)
  end.

Definition Bun_write (path content : string) : M unit :=
  emit (EvWrite path content) ;;;
  if write_ok w path then ret tt else throw (WriteFailure path).

Definition Glob_scan (pattern dir : string) : M (list string) :=
  emit (EvScan pattern dir) ;;;
  match glob_scan w pattern dir with
  | Some l => ret l
  | None => throw (ScanFailure dir)
  end.

Definition prompt (message : string) : M (option string) :=
  emit (EvPrompt message) ;;; ret (prompt_reply w message).

Definition git_config_get_origin (dir : string) : M string :=
  emit (EvGitOrigin dir) ;;;
  match git_origin w dir with
  | Some out => ret out
  | None => throw (ShellFailure "git config --get remote.origin.url")
  end.

Definition git_pull (dir : string) : M unit :=
  emit (EvGitPull dir) ;;;
  if git_pull_ok w dir then ret tt else throw (ShellFailure "git pull").

Definition git_clone (url path : string) : M unit :=
  emit (EvGitClone url path) ;;;
  if git_clone_ok w url path then ret tt else throw (ShellFailure "git clone").

(** *** [loadBuddyConfigFrom] *)

Definition loadBuddyConfigFrom (dirPath : string) : M BuddyConfig.t :=
  let configPath := Path.join [dirPath; ".buddy"; "config.json"] in
  loaded <- try_catch
    (present <- Bun_file_exists configPath ;;
     if present then
       configData <- Bun_file_json configPath ;;
       agents <- getProp configData "agents" ;;
       commands <- getProp configData "commands" ;;
       context <- getProp configData "context" ;;
       extension <- getProp configData "extension" ;;
       pools <- getProp configData "pools" ;;
       ret (Some (BuddyConfig.constructor
                    (Some (Js.nullish agents (JStr "")))
                    (Some (Js.nullish commands (JStr "commands")))
                    (Some (Js.nullish context (JStr "shared")))
                    extension
                    pools))
     else ret None)
    (fun _ => ret None) ;;
  match loaded with
  | Some config => ret config
  | None => ret BuddyConfig.new
  end.

(** *** [findBuddyConfig] *)

(** The loop of [findBuddyConfig], for [fuel] turns at most: [None]
    when the turns are used up, [Some (Some p)] when the loop returned
    [p], [Some None] when it ended. *)
Fixpoint searchUp (fuel : nat) (currentDir rootDir : string)
  : M (option (option string)) :=
  match fuel with
  | O => ret None
  | S fuel' =>
      if String.eqb currentDir rootDir then ret (Some None)
      else
        let configPath := Path.join [currentDir; ".buddy"; "config.json"] in
        present <- Bun_file_exists configPath ;;
        if present then ret (Some (Some configPath))
        else
          let parentDir := Path.dirname currentDir in
          if String.eqb parentDir currentDir then ret (Some None)
          else searchUp fuel' parentDir rootDir
  end.

(** [findBuddyConfig], its loop run for [fuel] turns at most; the
    result is [None] when they are used up. *)
Definition findBuddyConfig (fuel : nat) : M (option (option string)) :=
  let currentDir := Path.resolve (cwd w) [cwd w] in
  let rootDir := Path.resolve (cwd w) ["/"] in
  up <- searchUp fuel currentDir rootDir ;;
  match up with
  | None => ret None
  | Some (Some found) => ret (Some (Some found))
  | Some None =>
      let rootConfigPath := Path.join [rootDir; ".buddy"; "config.json"] in
      atRoot <- Bun_file_exists rootConfigPath ;;
      if atRoot then ret (Some (Some rootConfigPath))
      else
        let homeConfigPath := Path.join [homedir w; ".buddy"; "config.json"] in
        atHome <- Bun_file_exists homeConfigPath ;;
        if atHome then ret (Some (Some homeConfigPath))
        else ret (Some None)
  end.

(* ================================================================= *)
(** ** [src/index.ts] *)

(** *** File system utilities *)

Definition directoryExists (path : string) : M bool :=
  try_catch (Glob_scan "*" path ;;; ret true) (fun _ => ret false).

Definition copyFile (sourcePath targetPath : string) : M unit :=
  content <- Bun_file_text sourcePath ;;
  Bun_write targetPath content.

Definition findAgentFile (basePath agentPath : string) (extension : jsval)
  : M (option string) :=
  match extension with
  | Some ext =>
      let withExt := basePath +++ "/" +++ agentPath +++ "." +++ Js.toStr ext in
      e1 <- Bun_file_exists withExt ;;
      if e1 then ret (Some withExt) else
      let noExt := basePath +++ "/" +++ agentPath in
      e2 <- Bun_file_exists noExt ;;
      if e2 then ret (Some noExt) else
      ret None
  | None =>
      let withMd := basePath +++ "/" +++ agentPath +++ ".md" in
      e1 <- Bun_file_exists withMd ;;
      if e1 then ret (Some withMd) else
      let withTxt := basePath +++ "/" +++ agentPath +++ ".txt" in
      e2 <- Bun_file_exists withTxt ;;
      if e2 then ret (Some withTxt) else
      let noExt := basePath +++ "/" +++ agentPath in
      e3 <- Bun_file_exists noExt ;;
      if e3 then ret (Some noExt) else
      ret None
  end.

(** *** User interaction *)

Definition promptOverwrite (filename location : string) : M bool :=
  response <- prompt ("File " +++ filename +++ " already exists in "
                      +++ location +++ ". Overwrite? (y/N): ") ;;
  ret match response with
      | Some r => String.eqb (JsString.toLowerCase r) "y"
                  || String.eqb (JsString.toLowerCase r) "yes"
      | None => false
      end.

(** *** URL processing *)

Definition isUrl (input : string) : bool := JsString.includes input "://".

Definition extractRepoName (url : string) : string :=
  match url_parse w url with
  | Some parsed =>
      let pathParts := JsString.split Path.slash (pathname parsed) in
      let lastPart := List.last pathParts "" in
      if String.eqb lastPart "" then "unknown-repo"
      else JsString.stripSuffix ".git" lastPart
  | None => "unknown-repo"
  end.

Definition validateUrlProtocol (url : string) : Validation :=
  match url_parse w url with
  | Some parsed =>
      if String.eqb (protocol parsed) "http:" then
        mkValidation false (Some "TLS required, use HTTPS")
      else if String.eqb (protocol parsed) "git:"
              || JsString.startsWith (protocol parsed) "ssh" then
        mkValidation false (Some "Not implemented yet")
      else if String.eqb (protocol parsed) "https:"
              || String.eqb (protocol parsed) "file:" then
        mkValidation true None
      else mkValidation false (Some ("Unsupported protocol: " +++ protocol parsed))
  | None => mkValidation false (Some "Invalid URL format")
  end.

(** *** Path management *)

Definition getBuddyBasePath (customPath : option string) : string :=
  match customPath with
  | Some p => if String.eqb p "" then Path.join [homedir w; ".buddy"] else p
  | None => Path.join [homedir w; ".buddy"]
  end.

Definition getAddPaths (agentName : string) (basePath : option string)
  : AddPaths.t :=
  let buddyPath := getBuddyBasePath basePath in
  let localAgentsPath := Path.join [buddyPath; "pools"; "local"] in
  let claudeSourcePath :=
    Path.join [cwd w; ".claude"; "agents"; agentName +++ ".md"] in
  let buddyDestPath := Path.join [localAgentsPath; agentName +++ ".md"] in
  {| AddPaths.localAgentsPath := localAgentsPath;
     AddPaths.sourcePath := claudeSourcePath;
     AddPaths.destPath := buddyDestPath |}.

Definition getImportPaths (repoName agentPath filename : string)
  (toClaudeProject : bool) (basePath : option string) : M ImportPaths.t :=
  let buddyPath := getBuddyBasePath basePath in
  let repoPath := Path.join [buddyPath; "pools"; repoName] in
  repoConfig <- loadBuddyConfigFrom repoPath ;;
  agentsDir <- pathArg (BuddyConfig.agents repoConfig) ;;
  let agentBasePath := Path.join [repoPath; agentsDir] in
  buddySourcePath <-
    findAgentFile agentBasePath agentPath (BuddyConfig.extension repoConfig) ;;
  let destPath :=
    if toClaudeProject
    then Path.join [cwd w; ".claude"; "agents"; filename +++ ".md"]
    else Path.join [cwd w; filename +++ ".md"] in
  let destLocation :=
    if toClaudeProject then ".claude/agents/" else "current directory" in
  ret {| ImportPaths.sourcePath := buddySourcePath;
         ImportPaths.destPath := destPath;
         ImportPaths.destLocation := destLocation;
         ImportPaths.extension := BuddyConfig.extension repoConfig;
         ImportPaths.agentsConfigPath := BuddyConfig.agents repoConfig |}.

Definition getRepoPaths (repoName : string) (basePath : option string)
  : RepoPaths.t :=
  let buddyPath := getBuddyBasePath basePath in
  let poolsPath := Path.join [buddyPath; "pools"] in
  let repoPath := Path.join [poolsPath; repoName] in
  {| RepoPaths.poolsPath := poolsPath; RepoPaths.repoPath := repoPath |}.

Definition getAddPathsWithConfig (config : AddPathConfig.t) : AddPaths.t :=
  let buddyPath := getBuddyBasePath (AddPathConfig.basePath config) in
  let localAgentsPath := Path.join [buddyPath; "pools"; "local"] in
  let claudeSourcePath :=
    if AddPathConfig.usePersonalClaude config
    then Path.join [homedir w; ".claude"; "agents";
                    AddPathConfig.agentName config +++ ".md"]
    else Path.join [cwd w; ".claude"; "agents";
                    AddPathConfig.agentName config +++ ".md"] in
  let buddyDestPath :=
    Path.join [localAgentsPath; AddPathConfig.agentName config +++ ".md"] in
  {| AddPaths.localAgentsPath := localAgentsPath;
     AddPaths.sourcePath := claudeSourcePath;
     AddPaths.destPath := buddyDestPath |}.

Definition getImportPathsWithConfig (config : ImportPathConfig.t)
  : M ImportPaths.t :=
  let buddyPath := getBuddyBasePath (ImportPathConfig.basePath config) in
  let repoPath :=
    Path.join [buddyPath; "pools"; ImportPathConfig.repoName config] in
  repoConfig <- loadBuddyConfigFrom repoPath ;;
  agentsDir <- pathArg (BuddyConfig.agents repoConfig) ;;
  let agentBasePath := Path.join [repoPath; agentsDir] in
  buddySourcePath <-
    findAgentFile agentBasePath (ImportPathConfig.agentPath config)
                  (BuddyConfig.extension repoConfig) ;;
  let fileMd := ImportPathConfig.filename config +++ ".md" in
  let destPath :=
    if ImportPathConfig.toClaudePersonal config
    then Path.join [homedir w; ".claude"; "agents"; fileMd]
    else if ImportPathConfig.toClaudeProject config
    then Path.join [cwd w; ".claude"; "agents"; fileMd]
    else Path.join [cwd w; fileMd] in
  let destLocation :=
    if ImportPathConfig.toClaudePersonal config then "~/.claude/agents/"
    else if ImportPathConfig.toClaudeProject config then ".claude/agents/"
    else "current directory" in
  ret {| ImportPaths.sourcePath := buddySourcePath;
         ImportPaths.destPath := destPath;
         ImportPaths.destLocation := destLocation;
         ImportPaths.extension := BuddyConfig.extension repoConfig;
         ImportPaths.agentsConfigPath := BuddyConfig.agents repoConfig |}.

(** *** Commands *)

Definition initCommand (pathname : option string) : M unit :=
  let poolsLocalPath := Path.join [getBuddyBasePath pathname; "pools"; "local"] in
  let initFile := Path.join [poolsLocalPath; ".buddy-initialized"] in
  let commandsPath := Path.join [poolsLocalPath; "commands"] in
  let sharedPath := Path.join [poolsLocalPath; "shared"] in
  try_catch
    (present <- Bun_file_exists initFile ;;
     if present then
       console_log ("✓ Pool directory already exists at: " +++ poolsLocalPath)
     else
       Bun_write initFile "" ;;;
       Bun_write (Path.join [commandsPath; ".gitkeep"]) "" ;;;
       Bun_write (Path.join [sharedPath; ".gitkeep"]) "" ;;;
       console_log ("✓ Initialized pool at: " +++ poolsLocalPath))
    (fun error =>
       console_error ("✗ Failed to initialize pool: " +++ render_error w error) ;;;
       process_exit 1).

Definition addFromGitRepo (url : string) (customName : option string) : M unit :=
  let repoName :=
    match customName with
    | Some n => JsString.orElse n (extractRepoName url)
    | None => extractRepoName url
    end in
  let paths := getRepoPaths repoName None in
  try_catch
    (dirExists <- directoryExists (RepoPaths.repoPath paths) ;;
     (if dirExists then
        let gitConfigPath :=
          Path.join [RepoPaths.repoPath paths; ".git"; "config"] in
        isGitRepo <- Bun_file_exists gitConfigPath ;;
        (if negb isGitRepo then
           console_error ("✗ Directory '" +++ repoName
                          +++ "' exists but is not a git repository") ;;;
           console_log "   Remove it manually or use --as <name> to choose a different name" ;;;
           process_exit 1
         else ret tt) ;;;
        originResult <- git_config_get_origin (RepoPaths.repoPath paths) ;;
        let existingOrigin := JsString.trim originResult in
        let sameRepo :=
          String.eqb (normalizeUrl existingOrigin) (normalizeUrl url) in
        if sameRepo then
          console_log ("Repository " +++ repoName
                       +++ " already exists, pulling latest changes...") ;;;
          git_pull (RepoPaths.repoPath paths)
        else
          console_error ("✗ Repository name '" +++ repoName
                         +++ "' already exists in pool") ;;;
          console_error ("   Existing origin: " +++ existingOrigin) ;;;
          console_error ("   Requested URL: " +++ url) ;;;
          console_log "   Use --as <different-name> to choose a different name" ;;;
          process_exit 1
      else
        console_log ("Cloning repository as '" +++ repoName +++ "'...") ;;;
        git_clone url (RepoPaths.repoPath paths)) ;;;
     console_log ("✓ Repository " +++ repoName +++ " added to pool"))
    (fun error =>
       console_error ("✗ Failed to clone repository: " +++ render_error w error) ;;;
       process_exit 1).

Definition addFromLocalFile (url : string) : M unit :=
  try_catch
    (let filePath := JsString.removeFirst "file://" url in
     content <- Bun_file_text filePath ;;
     let filename :=
       JsString.orElse (List.last (JsString.split Path.slash filePath) "")
                       "local-agent.md" in
     let paths := getAddPaths "temp" None in
     let targetPath := Path.join [AddPaths.localAgentsPath paths; filename] in
     Bun_write targetPath content ;;;
     console_log ("✓ Copied " +++ filename +++ " to pool"))
    (fun error =>
       console_error ("✗ Failed to copy local file: " +++ render_error w error) ;;;
       process_exit 1).

Definition addFromUrl (url : string) (customName : option string) : M unit :=
  let validation := validateUrlProtocol url in
  (if negb (isValid validation) then
     console_error ("✗ " +++ match error validation with
                             | Some e => e
                             | None => "undefined"
                             end) ;;;
     process_exit 1
   else ret tt) ;;;
  try_catch
    (match url_parse w url with
     | Some parsed =>
         if String.eqb (protocol parsed) "https:" then addFromGitRepo url customName
         else if String.eqb (protocol parsed) "file:" then addFromLocalFile url
         else ret tt
     | None => throw (InvalidUrl url)
     end)
    (fun error =>
       console_error ("✗ Failed to add from URL: " +++ render_error w error) ;;;
       process_exit 1).

(** The body shared, up to its texts, by the four copy-in commands:
    source must exist, an existing destination asks the user. *)
Definition copyIntoPool (sourcePath destPath name missing copied failed : string)
  : M unit :=
  try_catch
    (srcExists <- Bun_file_exists sourcePath ;;
     (if negb srcExists then
        console_error (missing +++ sourcePath) ;;;
        process_exit 1
      else ret tt) ;;;
     dstExists <- Bun_file_exists destPath ;;
     proceed <- (if dstExists then promptOverwrite (name +++ ".md") "pool"
                 else ret true) ;;
     if negb proceed then console_log "✓ Operation cancelled"
     else
       copyFile sourcePath destPath ;;;
       console_log ("✓ Copied " +++ name +++ ".md from " +++ copied +++ " to pool"))
    (fun error =>
       console_error (failed +++ render_error w error) ;;;
       process_exit 1).

Definition addClaudeProjectAgent (agentName : string) : M unit :=
  let paths := getAddPaths agentName None in
  copyIntoPool (AddPaths.sourcePath paths) (AddPaths.destPath paths) agentName
    "✗ Agent file not found: " "Claude project" "✗ Failed to add agent: ".

Definition addClaudePersonalAgent (agentName : string) : M unit :=
  let paths := getAddPathsWithConfig
                 (AddPathConfig.mk agentName None true) in
  copyIntoPool (AddPaths.sourcePath paths) (AddPaths.destPath paths) agentName
    "✗ Agent file not found: " "~/.claude/agents/" "✗ Failed to add agent: ".

Definition addClaudeCommand (commandName : string) : M unit :=
  let buddyPath := getBuddyBasePath None in
  let localCommandsPath := Path.join [buddyPath; "pools"; "local"; "commands"] in
  let claudeSourcePath :=
    Path.join [cwd w; ".claude"; "commands"; commandName +++ ".md"] in
  let buddyDestPath := Path.join [localCommandsPath; commandName +++ ".md"] in
  copyIntoPool claudeSourcePath buddyDestPath commandName
    "✗ Command file not found: " "Claude project" "✗ Failed to add command: ".

Definition addClaudeShared (sharedName : string) : M unit :=
  let buddyPath := getBuddyBasePath None in
  let localSharedPath := Path.join [buddyPath; "pools"; "local"; "shared"] in
  let claudeSourcePath :=
    Path.join [cwd w; ".claude"; "shared"; sharedName +++ ".md"] in
  let buddyDestPath := Path.join [localSharedPath; sharedName +++ ".md"] in
  copyIntoPool claudeSourcePath buddyDestPath sharedName
    "✗ Shared context file not found: " "Claude project"
    "✗ Failed to add shared context: ".

(** A string option of the command line is taken when present and
    non-empty. *)
Definition given (o : option string) : option string :=
  match o with
  | Some s => if String.eqb s "" then None else Some s
  | None => None
  end.

Definition addCommand (source : option string) (options : AddOptions.t) : M unit :=
  match given source with
  | Some url =>
      if isUrl url then addFromUrl url (AddOptions.as_ options) else
      match given (AddOptions.command options) with
      | Some name => addClaudeCommand name
      | None =>
      match given (AddOptions.shared options) with
      | Some name => addClaudeShared name
      | None =>
      match given (AddOptions.claudePersonal options) with
      | Some name => addClaudePersonalAgent name
      | None =>
      match given (AddOptions.claudeProject options) with
      | Some name => addClaudeProjectAgent name
      | None => addClaudeProjectAgent url
      end end end end
  | None =>
      match given (AddOptions.command options) with
      | Some name => addClaudeCommand name
      | None =>
      match given (AddOptions.shared options) with
      | Some name => addClaudeShared name
      | None =>
      match given (AddOptions.claudePersonal options) with
      | Some name => addClaudePersonalAgent name
      | None =>
      match given (AddOptions.claudeProject options) with
      | Some name => addClaudeProjectAgent name
      | None =>
          console_error "✗ Please specify a source: URL, filename, or use --claude-project|-j <name>" ;;;
          process_exit 1
      end end end end
  end.

(** The report of an import that found no source file. *)
Definition reportAgentNotFound (paths : ImportPaths.t) (agentPath : string)
  : M unit :=
  fullPath <-
    (if Js.truthy (ImportPaths.agentsConfigPath paths) then
       dir <- pathArg (ImportPaths.agentsConfigPath paths) ;;
       ret (Path.join [dir; agentPath])
     else ret agentPath) ;;
  match ImportPaths.extension paths with
  | Some ext =>
      console_error ("✗ Agent file not found. Tried: " +++ fullPath +++ "."
                     +++ Js.toStr ext +++ ", " +++ fullPath)
  | None =>
      console_error ("✗ Agent file not found. Tried: " +++ fullPath +++ ".md, "
                     +++ fullPath +++ ".txt, " +++ fullPath)
  end.

(** The copy of an import whose source file was found. *)
Definition copyImported (sourcePath : string) (paths : ImportPaths.t)
  (filename : string) : M unit :=
  try_catch
    (dstExists <- Bun_file_exists (ImportPaths.destPath paths) ;;
     proceed <- (if dstExists
                 then promptOverwrite (filename +++ ".md")
                                      (ImportPaths.destLocation paths)
                 else ret true) ;;
     if negb proceed then console_log "✓ Operation cancelled"
     else
       copyFile sourcePath (ImportPaths.destPath paths) ;;;
       console_log ("✓ Imported " +++ filename +++ ".md to "
                    +++ ImportPaths.destLocation paths))
    (fun error =>
       console_error ("✗ Failed to copy file: " +++ render_error w error)).

Definition importLocalAgent (repoName agentPath filename : string)
  (toClaudeProject : bool) : M unit :=
  paths <- getImportPaths repoName agentPath filename toClaudeProject None ;;
  match given (ImportPaths.sourcePath paths) with
  | None => reportAgentNotFound paths agentPath
  | Some sourcePath => copyImported sourcePath paths filename
  end.

Definition importToClaudePersonal (repoName agentPath filename : string)
  : M unit :=
  paths <- getImportPathsWithConfig
             (ImportPathConfig.mk repoName agentPath filename false true None) ;;
  match given (ImportPaths.sourcePath paths) with
  | None => reportAgentNotFound paths agentPath
  | Some sourcePath => copyImported sourcePath paths filename
  end.

Definition importCommand (source : string) (options : ImportOptions.t) : M unit :=
  let parsed := parseImportSource source in
  (if negb (ImportOptions.force options)
      && String.eqb (JsString.toLowerCase (filename parsed)) "readme" then
     console_error "✗ Really? A README file? Maybe try opening it in a web browser like a normal person." ;;;
     console_log "   If you *really* want to import a README file, use --force" ;;;
     process_exit 1
   else ret tt) ;;;
  if ImportOptions.claudePersonal options then
    importToClaudePersonal (repoName parsed) (agentPath parsed) (filename parsed)
  else
    importLocalAgent (repoName parsed) (agentPath parsed) (filename parsed)
                     (ImportOptions.claudeProject options).

Definition toolCommand (source : string) : M unit :=
  let parsed := parseImportSource source in
  try_catch
    (located <-
       (if String.eqb (repoName parsed) "local" then
          let buddyPath := getBuddyBasePath None in
          ret (Path.join [buddyPath; "pools"; "local"; "shared"], undefined)
        else
          let buddyPath := getBuddyBasePath None in
          let repoPath := Path.join [buddyPath; "pools"; repoName parsed] in
          config <- loadBuddyConfigFrom repoPath ;;
          contextDir <- pathArg (BuddyConfig.context config) ;;
          ret (Path.join [repoPath; contextDir], BuddyConfig.extension config)) ;;
     let contextPath := fst located in
     let extension := snd located in
     filePath <- findAgentFile contextPath (agentPath parsed) extension ;;
     match given filePath with
     | None =>
         let fullPath := agentPath parsed in
         match extension with
         | Some ext =>
             console_error (JsString.stringifyField "error"
               ("Context file not found. Tried: " +++ fullPath +++ "."
                +++ Js.toStr ext +++ ", " +++ fullPath))
         | None =>
             console_error (JsString.stringifyField "error"
               ("Context file not found. Tried: " +++ fullPath +++ ".md, "
                +++ fullPath +++ ".txt, " +++ fullPath))
         end ;;;
         process_exit 1
     | Some file =>
         content <- Bun_file_text file ;;
         console_log (JsString.stringifyField "content" content)
     end)
    (fun error =>
       console_error (JsString.stringifyField "error"
         ("Failed to read context file: " +++ render_error w error)) ;;;
       process_exit 1).

(** The directory [listCommand] lists and the word it prints for it. *)
Definition listTarget (namespace : string) (options : ListOptions.t)
  : M (string * string) :=
  let buddyPath := getBuddyBasePath None in
  if String.eqb namespace "local" then
    let basePath := Path.join [buddyPath; "pools"; "local"] in
    if ListOptions.commands options then
      ret (Path.join [basePath; "commands"], "commands")
    else if ListOptions.shared options then
      ret (Path.join [basePath; "shared"], "shared context")
    else ret (basePath, "agents")
  else
    let repoPath := Path.join [buddyPath; "pools"; namespace] in
    found <- directoryExists repoPath ;;
    (if negb found then
       console_error ("✗ Pool '" +++ namespace +++ "' not found") ;;;
       process_exit 1
     else ret tt) ;;;
    config <- loadBuddyConfigFrom repoPath ;;
    if ListOptions.commands options then
      dir <- pathArg (BuddyConfig.commands config) ;;
      ret (Path.join [repoPath; dir], "commands")
    else if ListOptions.shared options then
      dir <- pathArg (BuddyConfig.context config) ;;
      ret (Path.join [repoPath; dir], "shared context")
    else
      dir <- pathArg (BuddyConfig.agents config) ;;
      ret (Path.join [repoPath; dir], "agents").

(** [file.replace(/\.(md|txt)$/, '')] *)
Definition stripListedExtension (file : string) : string :=
  if JsString.endsWith file ".md" then JsString.stripSuffix ".md" file
  else JsString.stripSuffix ".txt" file.

Fixpoint logEach (items : list string) : M unit :=
  match items with
  | [] => ret tt
  | item :: rest => console_log ("  " +++ item) ;;; logEach rest
  end.

Definition listCommand (namespace : string) (options : ListOptions.t) : M unit :=
  try_catch
    (target <- listTarget namespace options ;;
     let listPath := fst target in
     let type := snd target in
     present <- directoryExists listPath ;;
     if negb present then
       console_log ("No " +++ type +++ " found in " +++ namespace)
     else
       mdFiles <- Glob_scan "**/*.md" listPath ;;
       txtFiles <- Glob_scan "**/*.txt" listPath ;;
       let allFiles := mdFiles ++ txtFiles in
       match allFiles with
       | [] => console_log ("No " +++ type +++ " found in " +++ namespace)
       | _ =>
           let items := JsString.sort (List.map stripListedExtension allFiles) in
           console_log (type +++ " in " +++ namespace +++ ":") ;;;
           logEach items
       end)
    (fun error =>
       console_error ("✗ Failed to list " +++ namespace +++ ": "
                      +++ render_error w error) ;;;
       process_exit 1).

End Program.

(* ================================================================= *)
(** ** Words of the specification *)

Module Spec.

(** The candidates of the extension fallback, in the order of the
    specification: [.md], [.txt], none when no extension is configured;
    [.E], none when [E] is. *)
Definition candidates (base path : string) (ext : option string) : list string :=
  match ext with
  | Some e => [base +++ "/" +++ path +++ "." +++ e; base +++ "/" +++ path]
  | None => [base +++ "/" +++ path +++ ".md";
             base +++ "/" +++ path +++ ".txt";
             base +++ "/" +++ path]
  end.

(** A stem with the extensions of the fallback, in its order. *)
Definition names (stem : string) (ext : option string) : list string :=
  match ext with
  | Some e => [stem +++ "." +++ e; stem]
  | None => [stem +++ ".md"; stem +++ ".txt"; stem]
  end.

(** How an import shows the artifact it looked for: below the
    configured agents directory, relative to the pool. *)
Definition importShown (agentsDir agentPath : string) : string :=
  if String.eqb agentsDir "" then agentPath
  else Path.join [agentsDir; agentPath].

(** Trying candidates one after the other until one exists: the
    candidates looked at, and the one found. *)
Fixpoint search (present : string -> bool) (cands : list string)
  : list string * option string :=
  match cands with
  | [] => ([], None)
  | c :: rest =>
      if present c then ([c], Some c)
      else let (tried, found) := search present rest in (c :: tried, found)
  end.

End Spec.

(** A string without the separator [c]. *)
Fixpoint noSep (c : ascii) (s : string) : bool :=
  match s with
  | EmptyString => true
  | String a r => negb (Ascii.eqb a c) && noSep c r
  end.

Definition sepString (c : ascii) : string := String c EmptyString.

(** Where [loadBuddyConfigFrom] looks for the configuration of a pool. *)
Definition configPath (root : string) : string :=
  Path.join [root; ".buddy"; "config.json"].

(** The member [k] of a parsed configuration, [undefined] when the
    value has no such member. *)
Definition fieldOf (v : json) (k : string) : jsval :=
  match v with
  | JObj m => Js.lookup k m
  | _ => None
  end.

Module SpecConfig.

(** A field as the specification words it: the value when it is a
    string, the default when it is missing or of another shape. *)
Definition shapedOr (given : jsval) (default : string) : json :=
  match given with
  | Some (JStr s) => JStr s
  | _ => JStr default
  end.

Definition shapedExtension (given : jsval) : jsval :=
  match given with
  | Some (JStr s) => Some (JStr s)
  | _ => None
  end.

Definition ofParsed (v : json) : BuddyConfig.t :=
  {| BuddyConfig.agents := shapedOr (fieldOf v "agents") "";
     BuddyConfig.commands := shapedOr (fieldOf v "commands") "commands";
     BuddyConfig.context := shapedOr (fieldOf v "context") "shared";
     BuddyConfig.extension := shapedExtension (fieldOf v "extension");
     BuddyConfig.pools := fieldOf v "pools" |}.

(** A field as the program reads it: the default replaces a missing
    or [null] member, any other value is kept. *)
Definition readAs (given : jsval) (default result : json) : Prop :=
  (given = None \/ given = Some JNull -> result = default) /\
  (forall x, given = Some x -> x <> JNull -> result = x).

End SpecConfig.

(** *** Acquiring a repository *)

(** The pool name [addFromGitRepo] gives to a repository. *)
Definition acquiredName (w : World) (url : string) (customName : option string)
  : string :=
  match customName with
  | Some n => JsString.orElse n (extractRepoName w url)
  | None => extractRepoName w url
  end.

(** The directory of a pool. *)
Definition poolDir (w : World) (name : string) : string :=
  RepoPaths.repoPath (getRepoPaths w name None).

(** The version-control marker of a directory. *)
Definition gitMarker (dir : string) : string :=
  Path.join [dir; ".git"; "config"].

(** The events that change a file or a directory. *)
Definition mutates (e : event) : bool :=
  match e with
  | EvWrite _ _ | EvGitPull _ | EvGitClone _ _ => true
  | _ => false
  end.

Definition noMutation (t : list event) : bool :=
  List.forallb (fun e => negb (mutates e)) t.

(** What a line printed by a run says, on either stream. *)
Definition printed (e : event) : option string :=
  match e with
  | EvLog l | EvError l => Some l
  | _ => None
  end.

Definition mentions (text : string) (t : list event) : bool :=
  List.existsb (fun e => match printed e with
                         | Some l => JsString.includes l text
                         | None => false
                         end) t.

(** The report of a collision: [recorded] is the origin of the existing
    clone, [None] when the directory has no marker. *)
Definition collisionReport (name : string) (recorded : option string)
  (url : string) : list event :=
  match recorded with
  | None =>
      [EvError ("✗ Directory '" +++ name +++ "' exists but is not a git repository");
       EvLog "   Remove it manually or use --as <name> to choose a different name"]
  | Some origin =>
      [EvError ("✗ Repository name '" +++ name +++ "' already exists in pool");
       EvError ("   Existing origin: " +++ origin);
       EvError ("   Requested URL: " +++ url);
       EvLog "   Use --as <different-name> to choose a different name"]
  end.

(** *** Variants of a URL *)






(** *** The local pool *)

(** The root of the default pool. *)
Definition localPool (w : World) : string :=
  Path.join [getBuddyBasePath w None; "pools"; "local"].

(** The files a run looks at or reads, in order. *)
Definition looksAt (t : list event) : list string :=
  List.flat_map (fun e => match e with
                          | EvExists p | EvReadJson p | EvReadText p => [p]
                          | _ => []
                          end) t.

(** *** Importing *)


(** The files a run writes, in order. *)
Definition writesTo (t : list event) : list string :=
  List.flat_map (fun e => match e with EvWrite p _ => [p] | _ => [] end) t.

(** The last segment of a path. *)
Definition basename (path : string) : string :=
  List.last (JsString.split Path.slash path) "".

(** A path segment that [path.join] keeps as it is. *)
Definition regular (f : string) : Prop :=
  noSep Path.slash f = true /\ f <> "" /\ f <> "." /\ f <> "..".

(** The stacks of segments [normalizeString] builds: regular segments
    above, and below them, for a relative path only, the [..] that
    could not be resolved. *)
Inductive normalStack (allowAboveRoot : bool) : list string -> Prop :=
| normal_nil : normalStack allowAboveRoot []
| normal_dots : forall stk,
    allowAboveRoot = true ->
    Forall (eq "..") stk ->
    normalStack allowAboveRoot (".." :: stk)
| normal_regular : forall s stk,
    regular s ->
    normalStack allowAboveRoot stk ->
    normalStack allowAboveRoot (s :: stk).

(** *** What a run prints, asks and runs *)

(** The lines of a run, in their order. *)
Definition prints (t : list event) : list string :=
  List.flat_map (fun e => match printed e with Some l => [l] | None => [] end) t.

Definition usesGit (e : event) : bool :=
  match e with
  | EvGitOrigin _ | EvGitPull _ | EvGitClone _ _ => true
  | _ => false
  end.

(** A stretch of a run that prints nothing and changes nothing. *)
Definition quiet (t : list event) : Prop :=
  prints t = [] /\ noMutation t = true.

(** The answers [promptOverwrite] takes for a yes. *)
Definition affirmative (reply : string) : Prop :=
  JsString.toLowerCase reply = "y" \/ JsString.toLowerCase reply = "yes".

(** The order of [sort()] on strings. *)
Definition lebP (a b : string) : Prop := String.leb a b = true.

(** Turns that are enough for the loop of [findBuddyConfig] started in
    [dir]. *)
Definition turns (dir : string) : nat :=
  if String.eqb dir "" then 4
  else 2 * String.length dir + (if String.eqb dir "." then 0 else 1) + 1.

(** *** Worlds to run the program in *)

Module Sample.

Fixpoint assoc {A} (k : string) (l : list (string * A)) : option A :=
  match l with
  | [] => None
  | (k', v) :: r => if String.eqb k k' then Some v else assoc k r
  end.

Definition mem (k : string) (l : list string) : bool :=
  List.existsb (String.eqb k) l.

Definition describe (e : exn) : string :=
  match e with
  | NullDeref _ => "TypeError: null is not an object"
  | InvalidPathArg _ => "TypeError: The path argument must be of type string"
  | JsonFailure _ => "SyntaxError: JSON Parse error"
  | ReadFailure _ => "ENOENT: no such file or directory"
  | WriteFailure _ => "EACCES: permission denied"
  | ScanFailure _ => "ENOENT: no such file or directory"
  | ShellFailure _ => "ShellError: Failed with exit code 1"
  | InvalidUrl _ => "TypeError: Invalid URL"
  end.

(** A machine of user [u], working in [/work]: the files that exist
    with their text, the files that parse as JSON, the directories,
    and the origin recorded in each clone.  The only URLs are
    [https://host/...]. *)
Definition machine (files : list (string * string))
  (parsed : list (string * json)) (dirs : list string)
  (origins : list (string * string)) : World :=
  {| homedir := "/home/u";
     cwd := "/work";
     file_exists := fun p => match assoc p files with Some _ => true | None => false end;
     file_json := fun p => assoc p parsed;
     file_text := fun p => assoc p files;
     write_ok := fun _ => true;
     glob_scan := fun _ d => if mem d dirs then Some [] else None;
     prompt_reply := fun _ => None;
     git_origin := fun d => assoc d origins;
     git_pull_ok := fun _ => true;
     git_clone_ok := fun _ _ => true;
     url_parse := fun u =>
       if String.prefix "https://host/" u
       then Some (mkUrl "https:" (JsString.drop 12 u))
       else None;
     render_error := describe |}.

Definition bare : World := machine [] [] [] [].

Definition q (s : string) : string :=
  JsString.dquote +++ s +++ JsString.dquote.

(** Texts of configuration files. *)
Definition partialConfigText : string :=
  "{" +++ q "agents" +++ ": " +++ q "prompts" +++ ", "
      +++ q "extension" +++ ": " +++ q "prompt" +++ "}".

Definition misshapenConfigText : string :=
  "{" +++ q "agents" +++ ": 42, " +++ q "extension" +++ ": null}".

Definition brokenConfigText : string := "{" +++ q "agents" +++ ": ".

Definition newline : string := String (ascii_of_nat 10) EmptyString.

(** A clone of [https://host/team/repo.git] in the pool [Repo]. *)
Definition cloned : World :=
  machine [("/home/u/.buddy/pools/Repo/.git/config", "[remote origin]")] []
          ["/home/u/.buddy/pools/Repo"]
          [("/home/u/.buddy/pools/Repo", "https://host/team/repo.git" +++ newline)].

(** A pool directory [Repo] that is not a clone. *)
Definition plainDirectory : World :=
  machine [("/home/u/.buddy/pools/Repo/notes.md", "notes")] []
          ["/home/u/.buddy/pools/Repo"] [].

(** A pool [repo] whose agent [helper] is a [.txt] file. *)
Definition textAgent : World :=
  machine [("/home/u/.buddy/pools/repo/helper.txt", "You help.")] [] [] [].

(** A local pool with a configuration resource. *)
Definition configuredLocal : World :=
  machine [("/home/u/.buddy/pools/local/.buddy/config.json", partialConfigText)]
          [("/home/u/.buddy/pools/local/.buddy/config.json",
            JObj [("agents", JStr "prompts"); ("extension", JStr "prompt")])]
          ["/home/u/.buddy/pools/local"] [].

(** A pool directory [Repo] with nothing in it. *)
Definition emptyDirectory : World :=
  machine [] [] ["/home/u/.buddy/pools/Repo"] [].

(** The machine [w] with a user who answers [reply] to every prompt. *)
Definition answering (reply : string) (w : World) : World :=
  {| homedir := homedir w;
     cwd := cwd w;
     file_exists := file_exists w;
     file_json := file_json w;
     file_text := file_text w;
     write_ok := write_ok w;
     glob_scan := glob_scan w;
     prompt_reply := fun _ => Some reply;
     git_origin := git_origin w;
     git_pull_ok := git_pull_ok w;
     git_clone_ok := git_clone_ok w;
     url_parse := url_parse w;
     render_error := render_error w |}.

(** The agent [helper] of pool [repo] was imported before. *)
Definition importedBefore : World :=
  machine [("/home/u/.buddy/pools/repo/helper.txt", "You help.");
           ("/work/helper.md", "You helped.")] [] [] [].

End Sample.

(* ================================================================= *)
(** * Properties *)

Arguments Path.join : simpl never.
Arguments configPath : simpl never.

(* ================================================================= *)
(** ** Extension fallback *)

Lemma search_found (present : string -> bool) (cands : list string) :
  snd (Spec.search present cands) = List.find present cands.
Proof.
  induction cands as [|c rest IH]; simpl; [reflexivity|].
  destruct (present c); [reflexivity|].
  destruct (Spec.search present rest); simpl in *; assumption.
Qed.

Lemma search_none_tried (present : string -> bool) (cands : list string) :
  (forall c, In c cands -> present c = false) ->
  Spec.search present cands = (cands, None).
Proof.
  induction cands as [|c rest IH]; simpl; intros H; [reflexivity|].
  rewrite (H c (or_introl eq_refl)), IH; auto.
Qed.

(** The search of [findAgentFile], whatever the value of the
    extension: a value that is not a string is rendered as a string. *)
Lemma findAgentFile_search (w : World) (base path : string) (ext : jsval) :
  findAgentFile w base path ext
    = (List.map EvExists
         (fst (Spec.search (file_exists w)
                 (Spec.candidates base path (option_map Js.toStr ext)))),
       Ret (List.find (file_exists w)
              (Spec.candidates base path (option_map Js.toStr ext)))).
Proof.
  rewrite <- search_found.
  destruct ext as [e|]; simpl;
    unfold findAgentFile, Bun_file_exists, bind, emit, ret; simpl;
    repeat (match goal with
            | |- context [file_exists w ?p] => destruct (file_exists w p)
            end; simpl; try reflexivity).
Qed.

(** When no candidate exists every candidate has been looked at, in
    order. *)
Lemma findAgentFile_not_found (w : World) (base path : string) (ext : jsval) :
  (forall c, In c (Spec.candidates base path (option_map Js.toStr ext)) ->
             file_exists w c = false) ->
  findAgentFile w base path ext
    = (List.map EvExists (Spec.candidates base path (option_map Js.toStr ext)),
       Ret None).
Proof.
  intros H. rewrite findAgentFile_search, <- search_found.
  rewrite (search_none_tried _ _ H). reflexivity.
Qed.

(** C1. For every base directory, relative path and extension setting,
    [findAgentFile] looks at exactly the candidates of the
    specification, in their order, stopping at the first that exists
    ([.md], [.txt], none without a configured extension; [.E], none
    with extension [E]); it returns the first candidate that exists,
    and [null] when no candidate exists. *)
Theorem findAgentFile_fallback (w : World) (base path : string) (ext : option string) :
  findAgentFile w base path (option_map JStr ext)
    = (List.map EvExists
         (fst (Spec.search (file_exists w) (Spec.candidates base path ext))),
       Ret (List.find (file_exists w) (Spec.candidates base path ext))).
Proof.
  rewrite findAgentFile_search. destruct ext; reflexivity.
Qed.

(* ================================================================= *)
(** ** Segments of a string *)

Lemma split_nonempty (c : ascii) (s : string) : JsString.split c s <> [].
Proof.
  destruct s as [|a r]; simpl; [discriminate|].
  destruct (Ascii.eqb a c); [discriminate|].
  destruct (JsString.split c r); discriminate.
Qed.

Lemma split_noSep (c : ascii) (s : string) :
  noSep c s = true -> JsString.split c s = [s].
Proof.
  induction s as [|a r IH]; simpl; intros H; [reflexivity|].
  apply andb_true_iff in H as [Ha Hr].
  apply negb_true_iff in Ha. rewrite Ha, (IH Hr). reflexivity.
Qed.

Lemma split_app_sep (c : ascii) (a b : string) :
  JsString.split c (a +++ String c b) = JsString.split c a ++ JsString.split c b.
Proof.
  induction a as [|x a IH]; simpl.
  - rewrite Ascii.eqb_refl. reflexivity.
  - destruct (Ascii.eqb x c); rewrite IH; [reflexivity|].
    pose proof (split_nonempty c a) as Hne.
    destruct (JsString.split c a); [contradiction|reflexivity].
Qed.

Lemma split_segments_noSep (c : ascii) (s : string) :
  Forall (fun x => noSep c x = true) (JsString.split c s).
Proof.
  induction s as [|a r IH]; simpl.
  - constructor; [reflexivity|constructor].
  - destruct (Ascii.eqb a c) eqn:E.
    + constructor; [reflexivity|exact IH].
    + destruct (JsString.split c r) as [|h t]; [repeat constructor; simpl; rewrite E; reflexivity|].
      inversion IH; subst. constructor; [simpl; rewrite E; assumption|assumption].
Qed.

Lemma join_cons_char (sep : string) (x : ascii) (h : string) (t : list string) :
  JsString.join sep (String x h :: t) = String x (JsString.join sep (h :: t)).
Proof. destruct t; reflexivity. Qed.

Lemma join_split (c : ascii) (s : string) :
  JsString.join (sepString c) (JsString.split c s) = s.
Proof.
  induction s as [|a r IH]; [reflexivity|].
  simpl JsString.split. destruct (Ascii.eqb a c) eqn:E.
  - apply Ascii.eqb_eq in E; subst a.
    pose proof (split_nonempty c r) as Hne.
    destruct (JsString.split c r) as [|h t]; [contradiction|].
    change (JsString.join (sepString c) (EmptyString :: h :: t))
      with (String c (JsString.join (sepString c) (h :: t))).
    rewrite IH. reflexivity.
  - pose proof (split_nonempty c r) as Hne.
    destruct (JsString.split c r) as [|h t]; [contradiction|].
    rewrite join_cons_char, IH. reflexivity.
Qed.

Lemma append_assoc (a b c : string) : (a +++ b) +++ c = a +++ b +++ c.
Proof. induction a; simpl; congruence. Qed.

Lemma append_empty_r (a : string) : a +++ "" = a.
Proof. induction a; simpl; congruence. Qed.

Lemma split_join (c : ascii) (x : string) (l : list string) :
  Forall (fun s => noSep c s = true) (x :: l) ->
  JsString.split c (JsString.join (sepString c) (x :: l)) = x :: l.
Proof.
  revert x. induction l as [|y l IH]; intros x H.
  - inversion H; subst. apply split_noSep. assumption.
  - inversion H; subst.
    change (JsString.join (sepString c) (x :: y :: l))
      with (x +++ String c (JsString.join (sepString c) (y :: l))).
    rewrite split_app_sep, (split_noSep c x), IH by assumption. reflexivity.
Qed.

(** Every string is the [/]-join of its segments, and these contain
    no [/]. *)
Lemma source_segments (source : string) :
  exists pool rest,
    Forall (fun s => noSep Path.slash s = true) (pool :: rest) /\
    source = JsString.join "/" (pool :: rest).
Proof.
  pose proof (split_nonempty Path.slash source) as Hne.
  pose proof (split_segments_noSep Path.slash source) as Hall.
  pose proof (join_split Path.slash source) as Hj.
  destruct (JsString.split Path.slash source) as [|pool rest]; [contradiction|].
  exists pool, rest. split; [assumption|]. symmetry. exact Hj.
Qed.

(* ================================================================= *)
(** ** Symbolic references *)

(** C8, as amended. For a reference made of the [/]-separated segments
    [pool], [rest...]: the pool name is the first segment, the whole
    string when there is no [/] (and [unknown-repo] when that segment
    is empty: there is no default to [local]); the relative path is
    the remaining segments joined by [/]; the leaf name is the last
    segment ([unknown-agent] when it is empty). *)
Theorem parseImportSource_segments (pool : string) (rest : list string) :
  Forall (fun s => noSep Path.slash s = true) (pool :: rest) ->
  parseImportSource (JsString.join "/" (pool :: rest))
    = {| repoName := JsString.orElse pool "unknown-repo";
         agentPath := JsString.join "/" rest;
         filename := JsString.orElse (List.last (pool :: rest) "") "unknown-agent" |}.
Proof.
  intros H. unfold parseImportSource.
  change "/" with (sepString Path.slash).
  rewrite (split_join Path.slash pool rest H). reflexivity.
Qed.

Lemma parseImportSource_segments_witness :
  Forall (fun s => noSep Path.slash s = true) ["repo"; "sub"; "agent"] /\
  parseImportSource "repo/sub/agent"
    = {| repoName := "repo"; agentPath := "sub/agent"; filename := "agent" |}.
Proof.
  assert (H : Forall (fun s => noSep Path.slash s = true) ["repo"; "sub"; "agent"])
    by (repeat constructor).
  split; [exact H|].
  exact (parseImportSource_segments "repo" ["sub"; "agent"] H).
Defined.

(** C8, as stated, fails: a reference without [/] names its own pool,
    not [local]; an empty first segment gives [unknown-repo] and an
    empty last segment gives [unknown-agent]. *)
Lemma parseImportSource_no_local_default :
  repoName (parseImportSource "agent") = "agent"
  /\ repoName (parseImportSource "agent") <> "local"
  /\ repoName (parseImportSource "/agent") = "unknown-repo"
  /\ filename (parseImportSource "pool/") = "unknown-agent".
Proof. repeat split; discriminate. Qed.

(* ================================================================= *)
(** ** Configuration loading *)

Lemma load_absent (w : World) (root : string) :
  file_exists w (configPath root) = false ->
  loadBuddyConfigFrom w root = ([EvExists (configPath root)], Ret BuddyConfig.new).
Proof.
  intros H. unfold loadBuddyConfigFrom, Bun_file_exists.
  fold (configPath root). rewrite H. reflexivity.
Qed.

Lemma load_unparsable (w : World) (root : string) :
  file_exists w (configPath root) = true ->
  file_json w (configPath root) = None ->
  loadBuddyConfigFrom w root
    = ([EvExists (configPath root); EvReadJson (configPath root)],
       Ret BuddyConfig.new).
Proof.
  intros H J. unfold loadBuddyConfigFrom, Bun_file_exists, Bun_file_json.
  fold (configPath root). rewrite H, J. reflexivity.
Qed.

Lemma load_parsed (w : World) (root : string) (v : json) :
  file_exists w (configPath root) = true ->
  file_json w (configPath root) = Some v ->
  loadBuddyConfigFrom w root
    = ([EvExists (configPath root); EvReadJson (configPath root)],
       Ret {| BuddyConfig.agents := Js.nullish (fieldOf v "agents") (JStr "");
              BuddyConfig.commands := Js.nullish (fieldOf v "commands") (JStr "commands");
              BuddyConfig.context := Js.nullish (fieldOf v "context") (JStr "shared");
              BuddyConfig.extension := fieldOf v "extension";
              BuddyConfig.pools := fieldOf v "pools" |}).
Proof.
  intros H J. unfold loadBuddyConfigFrom, Bun_file_exists, Bun_file_json.
  fold (configPath root). rewrite H, J.
  destruct v; reflexivity.
Qed.

(** The loader never throws and never exits. *)
Lemma load_returns (w : World) (root : string) :
  exists config, result (loadBuddyConfigFrom w root) = Ret config.
Proof.
  destruct (file_exists w (configPath root)) eqn:H.
  - destruct (file_json w (configPath root)) as [v|] eqn:J.
    + rewrite (load_parsed _ _ _ H J). eexists; reflexivity.
    + rewrite (load_unparsable _ _ H J). eexists; reflexivity.
  - rewrite (load_absent _ _ H). eexists; reflexivity.
Qed.

Lemma nullish_readAs (given : jsval) (default : json) :
  SpecConfig.readAs given default (Js.nullish given default).
Proof.
  split.
  - intros [-> | ->]; reflexivity.
  - intros x -> Hx. destruct x; try reflexivity. contradiction.
Qed.

(** C9, as amended. For every configuration resource that parses, each
    field is read on its own: [agents], [commands] and [context] take
    their default ([""], ["commands"], ["shared"]) exactly when the
    member is missing or [null], [extension] is absent exactly when the
    member is missing, and every other value is taken as given,
    whatever its shape. *)
Theorem loadBuddyConfigFrom_fields (w : World) (root : string) (v : json) :
  file_exists w (configPath root) = true ->
  file_json w (configPath root) = Some v ->
  exists config,
    result (loadBuddyConfigFrom w root) = Ret config /\
    SpecConfig.readAs (fieldOf v "agents") (JStr "") (BuddyConfig.agents config) /\
    SpecConfig.readAs (fieldOf v "commands") (JStr "commands")
                      (BuddyConfig.commands config) /\
    SpecConfig.readAs (fieldOf v "context") (JStr "shared")
                      (BuddyConfig.context config) /\
    BuddyConfig.extension config = fieldOf v "extension" /\
    BuddyConfig.pools config = fieldOf v "pools".
Proof.
  intros H J. eexists. rewrite (load_parsed _ _ _ H J). split; [reflexivity|].
  simpl. repeat split; try apply nullish_readAs.
Qed.

Lemma loadBuddyConfigFrom_fields_witness :
  let file := "/pool/.buddy/config.json" in
  let v := JObj [("agents", JStr "prompts"); ("extension", JStr "prompt")] in
  let w := Sample.machine [(file, Sample.partialConfigText)] [(file, v)] [] [] in
  file_exists w (configPath "/pool") = true /\
  file_json w (configPath "/pool") = Some v /\
  exists config,
    result (loadBuddyConfigFrom w "/pool") = Ret config /\
    SpecConfig.readAs (fieldOf v "agents") (JStr "") (BuddyConfig.agents config) /\
    SpecConfig.readAs (fieldOf v "commands") (JStr "commands")
                      (BuddyConfig.commands config) /\
    SpecConfig.readAs (fieldOf v "context") (JStr "shared")
                      (BuddyConfig.context config) /\
    BuddyConfig.extension config = fieldOf v "extension" /\
    BuddyConfig.pools config = fieldOf v "pools".
Proof.
  intros file v w.
  split; [reflexivity|]. split; [reflexivity|].
  apply (loadBuddyConfigFrom_fields w "/pool" v); reflexivity.
Defined.

(** C9, as stated, fails: a number for [agents] and [null] for
    [extension] are of the wrong shape, and both are kept. *)
Lemma loadBuddyConfigFrom_keeps_other_shapes :
  let file := "/pool/.buddy/config.json" in
  let v := JObj [("agents", JNum "42"); ("extension", JNull)] in
  let w := Sample.machine [(file, Sample.misshapenConfigText)] [(file, v)] [] [] in
  result (loadBuddyConfigFrom w "/pool")
    = Ret {| BuddyConfig.agents := JNum "42";
             BuddyConfig.commands := JStr "commands";
             BuddyConfig.context := JStr "shared";
             BuddyConfig.extension := Some JNull;
             BuddyConfig.pools := None |}
  /\ SpecConfig.ofParsed v
    = {| BuddyConfig.agents := JStr "";
         BuddyConfig.commands := JStr "commands";
         BuddyConfig.context := JStr "shared";
         BuddyConfig.extension := None;
         BuddyConfig.pools := None |}
  /\ result (loadBuddyConfigFrom w "/pool") <> Ret (SpecConfig.ofParsed v).
Proof.
  intros file v w. split; [reflexivity|]. split; [reflexivity|].
  vm_compute. discriminate.
Qed.

(* ================================================================= *)
(** ** Sequencing *)

Lemma result_bind {A B} (m : M A) (f : A -> M B) :
  result (bind m f)
  = match result m with
    | Ret a => result (f a)
    | Throw e => Throw e
    | Exit c => Exit c
    end.
Proof.
  destruct m as [t [a|e|c]]; simpl; try reflexivity.
  destruct (f a); reflexivity.
Qed.

Lemma trace_bind {A B} (m : M A) (f : A -> M B) :
  trace (bind m f)
  = trace m ++ match result m with
               | Ret a => trace (f a)
               | _ => []
               end.
Proof.
  destruct m as [t [a|e|c]]; simpl; try (rewrite app_nil_r; reflexivity).
  destruct (f a); reflexivity.
Qed.

Lemma bind_ret_l {A B} (a : A) (f : A -> M B) : bind (ret a) f = f a.
Proof. unfold bind, ret. destruct (f a); reflexivity. Qed.

Lemma find_agree {A} (f g : A -> bool) (l : list A) :
  (forall x, In x l -> f x = g x) -> List.find f l = List.find g l.
Proof.
  induction l as [|x l IH]; simpl; intros H; [reflexivity|].
  rewrite (H x (or_introl eq_refl)), IH; auto.
Qed.

(* ================================================================= *)
(** ** A malformed configuration is no configuration *)

(** C3. For every pool, a configuration resource that exists and does
    not parse makes the loader return, without raising, the same
    configuration as an absent resource: [agents] [""], [commands]
    ["commands"], [context] ["shared"], no [extension]; and the
    resolution of an artifact of the pool gives the same result in the
    two cases, the artifact files being the same. *)
Theorem malformed_config_as_absent (w_bad w_none : World)
  (basePath : option string) (repoName agentPath filename : string)
  (toClaudeProject : bool) :
  let root := Path.join [getBuddyBasePath w_none basePath; "pools"; repoName] in
  homedir w_bad = homedir w_none ->
  cwd w_bad = cwd w_none ->
  file_exists w_bad (configPath root) = true ->
  file_json w_bad (configPath root) = None ->
  file_exists w_none (configPath root) = false ->
  (forall c, In c (Spec.candidates (Path.join [root; ""]) agentPath None) ->
             file_exists w_bad c = file_exists w_none c) ->
  result (loadBuddyConfigFrom w_bad root) = Ret BuddyConfig.new
  /\ result (loadBuddyConfigFrom w_none root) = Ret BuddyConfig.new
  /\ BuddyConfig.new = BuddyConfig.mk (JStr "") (JStr "commands") (JStr "shared")
                                      undefined undefined
  /\ result (getImportPaths w_bad repoName agentPath filename toClaudeProject basePath)
     = result (getImportPaths w_none repoName agentPath filename toClaudeProject basePath).
Proof.
  intros root Hh Hc Hbad Hjson Hnone Hfiles.
  pose proof (load_unparsable w_bad root Hbad Hjson) as Lb.
  pose proof (load_absent w_none root Hnone) as Ln.
  split; [rewrite Lb; reflexivity|].
  split; [rewrite Ln; reflexivity|].
  split; [reflexivity|].
  assert (Eb : getBuddyBasePath w_bad basePath = getBuddyBasePath w_none basePath)
    by (unfold getBuddyBasePath; rewrite Hh; reflexivity).
  unfold getImportPaths. rewrite Eb. fold root.
  rewrite !result_bind, Lb, Ln.
  cbn [result snd pathArg ret BuddyConfig.agents BuddyConfig.extension
       BuddyConfig.new BuddyConfig.constructor].
  pose proof (findAgentFile_search w_bad (Path.join [root; ""]) agentPath None) as Fb.
  pose proof (findAgentFile_search w_none (Path.join [root; ""]) agentPath None) as Fn.
  simpl option_map in Fb, Fn.
  rewrite !bind_ret_l, !result_bind, Fb, Fn. cbn [result snd ret].
  rewrite (find_agree _ _ _ Hfiles), Hc. reflexivity.
Qed.

Lemma malformed_config_as_absent_witness :
  let config := "/home/u/.buddy/pools/repo/.buddy/config.json" in
  let artifact := ("/home/u/.buddy/pools/repo/agent.txt", "You are an agent.") in
  let w_bad := Sample.machine [(config, Sample.brokenConfigText); artifact] [] [] [] in
  let w_none := Sample.machine [artifact] [] [] [] in
  file_exists w_bad config = true /\
  file_json w_bad config = None /\
  file_exists w_none config = false /\
  result (loadBuddyConfigFrom w_bad "/home/u/.buddy/pools/repo") = Ret BuddyConfig.new /\
  result (loadBuddyConfigFrom w_none "/home/u/.buddy/pools/repo") = Ret BuddyConfig.new /\
  BuddyConfig.new = BuddyConfig.mk (JStr "") (JStr "commands") (JStr "shared")
                                   undefined undefined /\
  result (getImportPaths w_bad "repo" "agent" "agent" false None)
  = result (getImportPaths w_none "repo" "agent" "agent" false None).
Proof.
  intros config artifact w_bad w_none.
  split; [reflexivity|]. split; [reflexivity|]. split; [reflexivity|].
  apply (malformed_config_as_absent w_bad w_none None "repo" "agent" "agent" false);
    try reflexivity.
  intros c Hc. vm_compute in Hc.
  destruct Hc as [<-|[<-|[<-|[]]]]; reflexivity.
Defined.

(* ================================================================= *)
(** ** Acquiring a repository *)

(** Running the sequencing of a computation, and nothing else. *)
Ltac run :=
  cbn [bind emit ret throw process_exit try_catch console_log console_error
       negb app trace result fst snd].

Lemma directoryExists_eq (w : World) (dir : string) :
  directoryExists w dir
  = ([EvScan "*" dir],
     Ret match glob_scan w "*" dir with Some _ => true | None => false end).
Proof.
  unfold directoryExists, Glob_scan.
  destruct (glob_scan w "*" dir); reflexivity.
Qed.


(** C2, as amended. When the pool directory exists and either has no
    version-control marker or records an origin that differs from the
    requested URL after normalization, the acquisition prints its
    report (that the directory is not a git repository in the first
    case; the existing origin and the requested URL in the second),
    ends with status 1, and changes nothing. *)
Theorem addFromGitRepo_collision (w : World) (url : string)
  (customName : option string) (entries : list string)
  (recorded : option string) :
  let name := acquiredName w url customName in
  let dir := poolDir w name in
  glob_scan w "*" dir = Some entries ->
  match recorded with
  | None => file_exists w (gitMarker dir) = false
  | Some out =>
      file_exists w (gitMarker dir) = true /\
      git_origin w dir = Some out /\
      normalizeUrl (JsString.trim out) <> normalizeUrl url
  end ->
  trace (addFromGitRepo w url customName)
  = [EvScan "*" dir; EvExists (gitMarker dir)]
    ++ match recorded with None => [] | Some _ => [EvGitOrigin dir] end
    ++ collisionReport name (option_map JsString.trim recorded) url
  /\ result (addFromGitRepo w url customName) = Exit 1
  /\ exitStatus (addFromGitRepo w url customName) = 1%Z
  /\ noMutation (trace (addFromGitRepo w url customName)) = true.
Proof.
  intros name dir Hscan Hcase.
  assert (E : addFromGitRepo w url customName
    = ([EvScan "*" dir; EvExists (gitMarker dir)]
        ++ match recorded with None => [] | Some _ => [EvGitOrigin dir] end
        ++ collisionReport name (option_map JsString.trim recorded) url,
       Exit 1%Z)).
  { unfold addFromGitRepo. fold (acquiredName w url customName). fold name.
    fold (poolDir w name). fold dir. fold (gitMarker dir).
    rewrite directoryExists_eq, Hscan.
    unfold Bun_file_exists, git_config_get_origin.
    destruct recorded as [out|].
    - destruct Hcase as (Hmark & Horigin & Hdiff).
      rewrite Hmark, Horigin. run.
      apply String.eqb_neq in Hdiff. rewrite Hdiff. reflexivity.
    - rewrite Hcase. reflexivity. }
  rewrite E. unfold exitStatus. cbn [trace result fst snd].
  repeat split.
  destruct recorded; reflexivity.
Qed.

Lemma addFromGitRepo_collision_witness :
  let w := Sample.cloned in
  let url := "https://host/other/Repo.git" in
  trace (addFromGitRepo w url None)
  = [EvScan "*" "/home/u/.buddy/pools/Repo";
     EvExists "/home/u/.buddy/pools/Repo/.git/config";
     EvGitOrigin "/home/u/.buddy/pools/Repo";
     EvError "✗ Repository name 'Repo' already exists in pool";
     EvError "   Existing origin: https://host/team/repo.git";
     EvError "   Requested URL: https://host/other/Repo.git";
     EvLog "   Use --as <different-name> to choose a different name"]
  /\ result (addFromGitRepo w url None) = Exit 1
  /\ exitStatus (addFromGitRepo w url None) = 1%Z
  /\ noMutation (trace (addFromGitRepo w url None)) = true.
Proof.
  intros w url.
  apply (addFromGitRepo_collision w url None []
           (Some ("https://host/team/repo.git" +++ Sample.newline)) eq_refl).
  split; [reflexivity|]. split; [reflexivity|]. vm_compute. discriminate.
Defined.

(** C2, as stated, fails: for a directory without the marker the
    report names neither the requested URL nor any origin. *)
Lemma addFromGitRepo_report_without_origins :
  let w := Sample.plainDirectory in
  let url := "https://host/team/Repo.git" in
  trace (addFromGitRepo w url None)
  = [EvScan "*" "/home/u/.buddy/pools/Repo";
     EvExists "/home/u/.buddy/pools/Repo/.git/config";
     EvError "✗ Directory 'Repo' exists but is not a git repository";
     EvLog "   Remove it manually or use --as <name> to choose a different name"]
  /\ mentions url (trace (addFromGitRepo w url None)) = false
  /\ mentions "https://" (trace (addFromGitRepo w url None)) = false.
Proof. repeat split. Qed.

(** C7, as amended. When the pool directory does not exist, the
    acquisition clones the repository afresh. *)
Theorem addFromGitRepo_absent (w : World) (url : string)
  (customName : option string) :
  let name := acquiredName w url customName in
  let dir := poolDir w name in
  glob_scan w "*" dir = None ->
  trace (addFromGitRepo w url customName)
  = [EvScan "*" dir;
     EvLog ("Cloning repository as '" +++ name +++ "'...");
     EvGitClone url dir;
     if git_clone_ok w url dir
     then EvLog ("✓ Repository " +++ name +++ " added to pool")
     else EvError ("✗ Failed to clone repository: "
                   +++ render_error w (ShellFailure "git clone"))]
  /\ result (addFromGitRepo w url customName)
     = (if git_clone_ok w url dir then Ret tt else Exit 1).
Proof.
  intros name dir Hscan.
  unfold addFromGitRepo. fold (acquiredName w url customName). fold name.
  fold (poolDir w name). fold dir.
  rewrite directoryExists_eq, Hscan. unfold git_clone. run.
  destruct (git_clone_ok w url dir); split; reflexivity.
Qed.

Lemma addFromGitRepo_absent_witness :
  let w := Sample.bare in
  let url := "https://host/team/Repo.git" in
  trace (addFromGitRepo w url None)
  = [EvScan "*" "/home/u/.buddy/pools/Repo";
     EvLog "Cloning repository as 'Repo'...";
     EvGitClone url "/home/u/.buddy/pools/Repo";
     EvLog "✓ Repository Repo added to pool"]
  /\ result (addFromGitRepo w url None) = Ret tt.
Proof.
  intros w url. exact (addFromGitRepo_absent w url None eq_refl).
Defined.

(** C7, as stated, fails: an existing directory without the marker,
    even an empty one, is not cloned into; the run ends with status 1. *)
Lemma addFromGitRepo_empty_directory_not_cloned :
  let w := Sample.emptyDirectory in
  let url := "https://host/team/Repo.git" in
  trace (addFromGitRepo w url None)
  = [EvScan "*" "/home/u/.buddy/pools/Repo";
     EvExists "/home/u/.buddy/pools/Repo/.git/config";
     EvError "✗ Directory 'Repo' exists but is not a git repository";
     EvLog "   Remove it manually or use --as <name> to choose a different name"]
  /\ ~ In (EvGitClone url "/home/u/.buddy/pools/Repo")
          (trace (addFromGitRepo w url None))
  /\ result (addFromGitRepo w url None) = Exit 1.
Proof.
  intros w url. split; [reflexivity|]. split; [|reflexivity].
  vm_compute. intros H. repeat (destruct H as [H|H]; [discriminate|]). exact H.
Qed.

(* ================================================================= *)
(** ** Reports of an artifact that is not found *)

Lemma candidates_names (base path : string) (ext : option string) :
  Spec.candidates base path ext = Spec.names (base +++ "/" +++ path) ext.
Proof.
  destruct ext; unfold Spec.candidates, Spec.names;
    rewrite !append_assoc; reflexivity.
Qed.

Lemma shown_none (intro stem : string) :
  intro +++ stem +++ ".md, " +++ stem +++ ".txt, " +++ stem
  = intro +++ JsString.join ", " (Spec.names stem None).
Proof.
  unfold Spec.names, JsString.join. rewrite !append_assoc. reflexivity.
Qed.

Lemma shown_some (intro stem e : string) :
  intro +++ stem +++ "." +++ e +++ ", " +++ stem
  = intro +++ JsString.join ", " (Spec.names stem (Some e)).
Proof.
  unfold Spec.names, JsString.join. rewrite !append_assoc. reflexivity.
Qed.

Lemma getImportPaths_not_found (w : World) (repoName agentPath filename : string)
  (toClaudeProject : bool) (t : list event) (config : BuddyConfig.t) (dir : string) :
  let root := Path.join [getBuddyBasePath w None; "pools"; repoName] in
  let ext := option_map Js.toStr (BuddyConfig.extension config) in
  loadBuddyConfigFrom w root = (t, Ret config) ->
  BuddyConfig.agents config = JStr dir ->
  (forall c, In c (Spec.candidates (Path.join [root; dir]) agentPath ext) ->
             file_exists w c = false) ->
  exists paths,
    getImportPaths w repoName agentPath filename toClaudeProject None
    = (t ++ List.map EvExists (Spec.candidates (Path.join [root; dir]) agentPath ext),
       Ret paths)
    /\ ImportPaths.sourcePath paths = None
    /\ ImportPaths.extension paths = BuddyConfig.extension config
    /\ ImportPaths.agentsConfigPath paths = JStr dir.
Proof.
  intros root ext L A H. eexists.
  unfold getImportPaths. fold root. rewrite L. cbn [bind]. rewrite A.
  cbn [bind pathArg ret app].
  rewrite (findAgentFile_not_found _ _ _ _ H). cbn [bind ret app].
  rewrite !app_nil_r. repeat split.
Qed.

Lemma getImportPathsWithConfig_not_found (w : World)
  (repoName agentPath filename : string) (project personal : bool)
  (t : list event) (config : BuddyConfig.t) (dir : string) :
  let root := Path.join [getBuddyBasePath w None; "pools"; repoName] in
  let ext := option_map Js.toStr (BuddyConfig.extension config) in
  loadBuddyConfigFrom w root = (t, Ret config) ->
  BuddyConfig.agents config = JStr dir ->
  (forall c, In c (Spec.candidates (Path.join [root; dir]) agentPath ext) ->
             file_exists w c = false) ->
  exists paths,
    getImportPathsWithConfig w
      (ImportPathConfig.mk repoName agentPath filename project personal None)
    = (t ++ List.map EvExists (Spec.candidates (Path.join [root; dir]) agentPath ext),
       Ret paths)
    /\ ImportPaths.sourcePath paths = None
    /\ ImportPaths.extension paths = BuddyConfig.extension config
    /\ ImportPaths.agentsConfigPath paths = JStr dir.
Proof.
  intros root ext L A H. eexists.
  unfold getImportPathsWithConfig.
  cbn [ImportPathConfig.basePath ImportPathConfig.repoName
       ImportPathConfig.agentPath].
  fold root. rewrite L. cbn [bind]. rewrite A.
  cbn [bind pathArg ret app].
  rewrite (findAgentFile_not_found _ _ _ _ H). cbn [bind ret app].
  rewrite !app_nil_r. repeat split.
Qed.

Lemma reportAgentNotFound_eq (w : World) (paths : ImportPaths.t)
  (agentPath dir : string) :
  ImportPaths.agentsConfigPath paths = JStr dir ->
  reportAgentNotFound paths agentPath
  = ([EvError ("✗ Agent file not found. Tried: "
               +++ JsString.join ", "
                     (Spec.names (Spec.importShown dir agentPath)
                        (option_map Js.toStr (ImportPaths.extension paths))))],
     Ret tt).
Proof.
  intros A. unfold reportAgentNotFound, Spec.importShown. rewrite A.
  cbn [Js.truthy pathArg].
  destruct (String.eqb dir ""); cbn [negb]; rewrite ?bind_ret_l;
    destruct (ImportPaths.extension paths) as [e|]; cbn [option_map];
    unfold console_error, emit;
    rewrite <- ?shown_none, <- ?shown_some; reflexivity.
Qed.

(** C4, as amended. When none of the candidate files exists, an import
    and the tool command print one name for every candidate looked at,
    in the order they were looked at and with the same extensions: the
    name is the candidate relative to the pool for an import (the
    configured agents directory joined with the relative path) and
    the relative path itself for the tool command; the tool command
    then ends with status 1. *)
Theorem not_found_report (w : World) (source : string) (toClaudeProject : bool)
  (t : list event) (config : BuddyConfig.t) (dir : string) :
  let parsed := parseImportSource source in
  let root := Path.join [getBuddyBasePath w None; "pools"; repoName parsed] in
  let ext := option_map Js.toStr (BuddyConfig.extension config) in
  let tried := Spec.names (Path.join [root; dir] +++ "/" +++ agentPath parsed) ext in
  loadBuddyConfigFrom w root = (t, Ret config) ->
  (forall c, In c tried -> file_exists w c = false) ->
  (BuddyConfig.agents config = JStr dir ->
   let report :=
     EvError ("✗ Agent file not found. Tried: "
              +++ JsString.join ", "
                    (Spec.names (Spec.importShown dir (agentPath parsed)) ext)) in
   trace (importLocalAgent w (repoName parsed) (agentPath parsed)
                           (filename parsed) toClaudeProject)
     = t ++ List.map EvExists tried ++ [report]
   /\ trace (importToClaudePersonal w (repoName parsed) (agentPath parsed)
                                    (filename parsed))
     = t ++ List.map EvExists tried ++ [report])
  /\ (BuddyConfig.context config = JStr dir ->
      repoName parsed <> "local" ->
      trace (toolCommand w source)
        = t ++ List.map EvExists tried
            ++ [EvError (JsString.stringifyField "error"
                  ("Context file not found. Tried: "
                   +++ JsString.join ", " (Spec.names (agentPath parsed) ext)))]
      /\ result (toolCommand w source) = Exit 1
      /\ exitStatus (toolCommand w source) = 1%Z)
  /\ (let triedLocal :=
        Spec.names (Path.join [getBuddyBasePath w None; "pools"; "local"; "shared"]
                    +++ "/" +++ agentPath parsed) None in
      repoName parsed = "local" ->
      (forall c, In c triedLocal -> file_exists w c = false) ->
      trace (toolCommand w source)
        = List.map EvExists triedLocal
            ++ [EvError (JsString.stringifyField "error"
                  ("Context file not found. Tried: "
                   +++ JsString.join ", " (Spec.names (agentPath parsed) None)))]
      /\ result (toolCommand w source) = Exit 1
      /\ exitStatus (toolCommand w source) = 1%Z).
Proof.
  intros parsed root ext tried L H.
  unfold tried in *. rewrite <- candidates_names in *.
  split.
  - intros A.
    destruct (getImportPaths_not_found w (repoName parsed) (agentPath parsed)
                (filename parsed) toClaudeProject t config dir L A H)
      as (p1 & E1 & S1 & X1 & A1).
    destruct (getImportPathsWithConfig_not_found w (repoName parsed)
                (agentPath parsed) (filename parsed) false true t config dir L A H)
      as (p2 & E2 & S2 & X2 & A2).
    unfold importLocalAgent, importToClaudePersonal.
    rewrite E1, E2. cbn [bind]. rewrite S1, S2. cbn [given].
    rewrite (reportAgentNotFound_eq w p1 _ dir A1).
    rewrite (reportAgentNotFound_eq w p2 _ dir A2).
    rewrite X1, X2. cbn [trace fst]. fold ext.
    rewrite <- !app_assoc. split; reflexivity.
  - split.
    2:{ intros Hlocal Hnone. rewrite <- candidates_names in Hnone |- *.
        assert (E : toolCommand w source
          = (List.map EvExists
               (Spec.candidates
                  (Path.join [getBuddyBasePath w None; "pools"; "local"; "shared"])
                  (agentPath parsed) None)
             ++ [EvError (JsString.stringifyField "error"
                   ("Context file not found. Tried: "
                    +++ JsString.join ", " (Spec.names (agentPath parsed) None)))],
             Exit 1%Z)).
        { unfold toolCommand. fold parsed. rewrite Hlocal.
          cbn [String.eqb Ascii.eqb Bool.eqb].
          rewrite bind_ret_l. cbn [fst snd].
          rewrite (findAgentFile_not_found w _ _ undefined Hnone).
          cbn [bind ret app given undefined]. rewrite <- shown_none.
          unfold console_error, emit, process_exit.
          cbn [bind try_catch app]. rewrite ?app_nil_r. reflexivity. }
        rewrite E. unfold exitStatus. repeat split. }
    intros C Hrepo.
    assert (E : toolCommand w source
      = (t ++ List.map EvExists
                (Spec.candidates (Path.join [root; dir]) (agentPath parsed) ext)
           ++ [EvError (JsString.stringifyField "error"
                 ("Context file not found. Tried: "
                  +++ JsString.join ", " (Spec.names (agentPath parsed) ext)))],
         Exit 1%Z)).
    { unfold toolCommand. fold parsed.
      apply String.eqb_neq in Hrepo. rewrite Hrepo. fold root.
      rewrite L. cbn [bind]. rewrite C. cbn [bind pathArg ret app fst snd].
      rewrite (findAgentFile_not_found _ _ _ _ H).
      cbn [bind ret app given].
      unfold ext. destruct (BuddyConfig.extension config) as [e|];
        cbn [option_map]; rewrite <- ?shown_none, <- ?shown_some;
        unfold console_error, emit, process_exit;
        cbn [bind try_catch app]; rewrite ?app_nil_r, <- ?app_assoc;
        reflexivity. }
    rewrite E. unfold exitStatus. repeat split.
Qed.

Lemma not_found_report_witness :
  let w := Sample.bare in
  trace (importLocalAgent w "repo" "team/helper" "helper" false)
  = [EvExists "/home/u/.buddy/pools/repo/.buddy/config.json";
     EvExists "/home/u/.buddy/pools/repo/team/helper.md";
     EvExists "/home/u/.buddy/pools/repo/team/helper.txt";
     EvExists "/home/u/.buddy/pools/repo/team/helper";
     EvError "✗ Agent file not found. Tried: team/helper.md, team/helper.txt, team/helper"]
  /\ trace (toolCommand w "repo/team/helper")
  = [EvExists "/home/u/.buddy/pools/repo/.buddy/config.json";
     EvExists "/home/u/.buddy/pools/repo/shared/team/helper.md";
     EvExists "/home/u/.buddy/pools/repo/shared/team/helper.txt";
     EvExists "/home/u/.buddy/pools/repo/shared/team/helper";
     EvError (JsString.stringifyField "error"
       "Context file not found. Tried: team/helper.md, team/helper.txt, team/helper")]
  /\ exitStatus (toolCommand w "repo/team/helper") = 1%Z.
Proof.
  intros w.
  destruct (not_found_report w "repo/team/helper" false
              [EvExists "/home/u/.buddy/pools/repo/.buddy/config.json"]
              BuddyConfig.new "" eq_refl (fun c _ => eq_refl))
    as [Himport _].
  destruct (not_found_report w "repo/team/helper" false
              [EvExists "/home/u/.buddy/pools/repo/.buddy/config.json"]
              BuddyConfig.new "shared" eq_refl (fun c _ => eq_refl))
    as [_ [Htool _]].
  split; [exact (proj1 (Himport eq_refl))|].
  assert (Hrepo : repoName (parseImportSource "repo/team/helper") <> "local")
    by discriminate.
  destruct (Htool eq_refl Hrepo) as (Ht & _ & Hs).
  split; [exact Ht|exact Hs].
Defined.

(** C4, as stated, fails: an import that finds no candidate prints
    names relative to the pool, none of them a path it looked at, and
    returns normally, so that the process ends with status 0. *)
Lemma import_not_found_status_and_names :
  let w := Sample.bare in
  let options := ImportOptions.mk false false false in
  trace (importCommand w "repo/team/helper" options)
  = [EvExists "/home/u/.buddy/pools/repo/.buddy/config.json";
     EvExists "/home/u/.buddy/pools/repo/team/helper.md";
     EvExists "/home/u/.buddy/pools/repo/team/helper.txt";
     EvExists "/home/u/.buddy/pools/repo/team/helper";
     EvError "✗ Agent file not found. Tried: team/helper.md, team/helper.txt, team/helper"]
  /\ mentions "/home/u/.buddy/pools/repo/team/helper"
              (trace (importCommand w "repo/team/helper" options)) = false
  /\ result (importCommand w "repo/team/helper" options) = Ret tt
  /\ exitStatus (importCommand w "repo/team/helper" options) = 0%Z
  /\ exitStatus (importCommand w "repo/team/helper" options) <> 1%Z.
Proof. repeat split. discriminate. Qed.

(* ================================================================= *)
(** ** The last segment of a joined path *)

Lemma join_snoc (sep : string) (l : list string) (f : string) :
  l <> [] ->
  JsString.join sep (l ++ [f]) = JsString.join sep l +++ sep +++ f.
Proof.
  induction l as [|x l IH]; intros Hne; [contradiction|].
  destruct l as [|y l]; [reflexivity|].
  change (JsString.join sep ((x :: y :: l) ++ [f]))
    with (x +++ sep +++ JsString.join sep ((y :: l) ++ [f])).
  rewrite IH by discriminate.
  change (JsString.join sep (x :: y :: l))
    with (x +++ sep +++ JsString.join sep (y :: l)).
  rewrite !append_assoc. reflexivity.
Qed.

Lemma last_app_single {A} (l : list A) (x d : A) : List.last (l ++ [x]) d = x.
Proof.
  induction l as [|y l IH]; [reflexivity|].
  simpl. destruct (l ++ [x]) eqn:E; [destruct l; discriminate|exact IH].
Qed.

Lemma last_cons_nonempty {A} (x : A) (l : list A) (d : A) :
  l <> [] -> List.last (x :: l) d = List.last l d.
Proof. destruct l; [contradiction|reflexivity]. Qed.

Lemma basename_join_snoc (l : list string) (f : string) :
  noSep Path.slash f = true ->
  basename (JsString.join "/" (l ++ [f])) = f.
Proof.
  intros Hf. unfold basename. destruct l as [|x l].
  - simpl. rewrite (split_noSep _ _ Hf). reflexivity.
  - rewrite join_snoc by discriminate.
    change ("/" +++ f) with (String Path.slash f).
    rewrite split_app_sep, (split_noSep _ _ Hf). apply last_app_single.
Qed.

Lemma endsWith_slash_basename (s : string) :
  JsString.endsWith s "/" = true -> basename s = "".
Proof.
  unfold basename. induction s as [|a r IH]; intros H; [discriminate|].
  cbn [JsString.endsWith] in H.
  destruct (String.eqb (String a r) "/") eqn:E.
  - apply String.eqb_eq in E. rewrite E. reflexivity.
  - specialize (IH H). cbn [JsString.split].
    pose proof (split_nonempty Path.slash r) as Hne.
    destruct (Ascii.eqb a Path.slash).
    + rewrite last_cons_nonempty by assumption. exact IH.
    + destruct (JsString.split Path.slash r) as [|h t] eqn:E2; [contradiction|].
      destruct t as [|h' t'].
      * simpl in IH. subst h.
        pose proof (join_split Path.slash r) as J.
        rewrite E2 in J. simpl in J. subst r. discriminate.
      * exact IH.
Qed.

Lemma normStep_regular (allowAboveRoot : bool) (stk : list string) (f : string) :
  regular f -> Path.normStep allowAboveRoot stk f = f :: stk.
Proof.
  intros (_ & H0 & H1 & H2). unfold Path.normStep.
  apply String.eqb_neq in H0, H1, H2. rewrite H0, H1, H2. reflexivity.
Qed.

Lemma split_last_decompose (s f : string) :
  basename s = f ->
  exists segs, JsString.split Path.slash s = segs ++ [f].
Proof.
  unfold basename. intros H.
  pose proof (split_nonempty Path.slash s) as Hne.
  destruct (exists_last Hne) as (segs & x & E).
  rewrite E in H |- *. rewrite last_app_single in H. subst x.
  exists segs. reflexivity.
Qed.

(** [normalize] keeps a regular last segment. *)
Lemma basename_normalize (path f : string) :
  regular f -> basename path = f -> basename (Path.normalize path) = f.
Proof.
  intros Hreg Hlast. pose proof Hreg as (Hsep & Hne & _ & _).
  destruct (split_last_decompose _ _ Hlast) as (segs & Hsplit).
  unfold Path.normalize.
  destruct (String.eqb path "") eqn:Hempty.
  { apply String.eqb_eq in Hempty. subst path. compute in Hlast. congruence. }
  assert (Htrail : JsString.endsWith path "/" = false).
  { destruct (JsString.endsWith path "/") eqn:E; [|reflexivity].
    apply endsWith_slash_basename in E. congruence. }
  rewrite Htrail. cbv zeta.
  set (abs := JsString.startsWith path "/").
  unfold Path.normalizeString. rewrite Hsplit, fold_left_app. cbn [fold_left].
  rewrite (normStep_regular _ _ _ Hreg). cbn [rev].
  set (kept := rev (fold_left (Path.normStep (negb abs)) segs [])).
  assert (Hp : basename (JsString.join "/" (kept ++ [f])) = f)
    by (apply basename_join_snoc; assumption).
  destruct (String.eqb (JsString.join "/" (kept ++ [f])) "") eqn:Ep.
  { apply String.eqb_eq in Ep. rewrite Ep in Hp. compute in Hp. congruence. }
  rewrite append_empty_r.
  destruct abs; [|exact Hp].
  unfold basename in *.
  change ("/" +++ JsString.join "/" (kept ++ [f]))
    with (String Path.slash (JsString.join "/" (kept ++ [f]))).
  cbn [JsString.split]. rewrite Ascii.eqb_refl.
  rewrite last_cons_nonempty by apply split_nonempty. exact Hp.
Qed.

(** A joined path ends with its last argument, when that is a regular
    segment. *)
Lemma basename_path_join (dir : list string) (f : string) :
  regular f -> basename (Path.join (dir ++ [f])) = f.
Proof.
  intros Hreg. pose proof Hreg as (Hsep & Hne & _ & _).
  unfold Path.join. rewrite filter_app. cbn [filter].
  apply String.eqb_neq in Hne. rewrite Hne. cbn [negb].
  set (parts := filter (fun a => negb (String.eqb a "")) dir).
  destruct (parts ++ [f]) eqn:E; [destruct parts; discriminate|].
  rewrite <- E. apply basename_normalize; [assumption|].
  apply basename_join_snoc. assumption.
Qed.

(* ================================================================= *)
(** ** What an import writes *)

Lemma writesTo_app (a b : list event) :
  writesTo (a ++ b) = writesTo a ++ writesTo b.
Proof. apply flat_map_app. Qed.

Lemma writesTo_exists (l : list string) : writesTo (List.map EvExists l) = [].
Proof. induction l; [reflexivity|exact IHl]. Qed.

Lemma writesTo_In (t : list event) (dst content : string) :
  In (EvWrite dst content) t -> In dst (writesTo t).
Proof.
  intros H. apply in_flat_map. exists (EvWrite dst content).
  split; [assumption|left; reflexivity].
Qed.

Lemma load_shape (w : World) (root : string) :
  exists t config,
    loadBuddyConfigFrom w root = (t, Ret config) /\ writesTo t = [].
Proof.
  destruct (file_exists w (configPath root)) eqn:H.
  - destruct (file_json w (configPath root)) as [v|] eqn:J.
    + rewrite (load_parsed _ _ _ H J). do 2 eexists. split; reflexivity.
    + rewrite (load_unparsable _ _ H J). do 2 eexists. split; reflexivity.
  - rewrite (load_absent _ _ H). do 2 eexists. split; reflexivity.
Qed.

Lemma pathArg_cases (v : json) :
  (exists s, v = JStr s /\ pathArg v = ret s)
  \/ pathArg v = throw (InvalidPathArg v).
Proof. destruct v; try (right; reflexivity). left. eexists. split; reflexivity. Qed.

Lemma getImportPaths_writes (w : World) (repoName agentPath filename : string)
  (toClaudeProject : bool) (basePath : option string) :
  writesTo (trace (getImportPaths w repoName agentPath filename
                                  toClaudeProject basePath)) = []
  /\ forall paths,
       result (getImportPaths w repoName agentPath filename
                              toClaudeProject basePath) = Ret paths ->
       ImportPaths.destPath paths
       = (if toClaudeProject
          then Path.join [cwd w; ".claude"; "agents"; filename +++ ".md"]
          else Path.join [cwd w; filename +++ ".md"]).
Proof.
  unfold getImportPaths.
  set (root := Path.join [getBuddyBasePath w basePath; "pools"; repoName]).
  destruct (load_shape w root) as (t & config & L & Wt).
  rewrite L. cbn [bind].
  destruct (pathArg_cases (BuddyConfig.agents config)) as [(dir & _ & P)|P];
    rewrite P.
  - rewrite bind_ret_l, findAgentFile_search. cbn [bind ret app trace result fst snd].
    rewrite !app_nil_r, writesTo_app, Wt, writesTo_exists.
    split; [reflexivity|]. intros paths Hp. injection Hp as <-. reflexivity.
  - cbn [bind throw trace result fst snd]. rewrite app_nil_r.
    split; [exact Wt|]. intros paths Hp. discriminate.
Qed.

Lemma getImportPathsWithConfig_writes (w : World) (config : ImportPathConfig.t) :
  writesTo (trace (getImportPathsWithConfig w config)) = []
  /\ forall paths,
       result (getImportPathsWithConfig w config) = Ret paths ->
       ImportPaths.destPath paths
       = (if ImportPathConfig.toClaudePersonal config
          then Path.join [homedir w; ".claude"; "agents";
                          ImportPathConfig.filename config +++ ".md"]
          else if ImportPathConfig.toClaudeProject config
          then Path.join [cwd w; ".claude"; "agents";
                          ImportPathConfig.filename config +++ ".md"]
          else Path.join [cwd w; ImportPathConfig.filename config +++ ".md"]).
Proof.
  unfold getImportPathsWithConfig.
  set (root := Path.join [getBuddyBasePath w (ImportPathConfig.basePath config);
                          "pools"; ImportPathConfig.repoName config]).
  destruct (load_shape w root) as (t & cfg & L & Wt).
  rewrite L. cbn [bind].
  destruct (pathArg_cases (BuddyConfig.agents cfg)) as [(dir & _ & P)|P];
    rewrite P.
  - rewrite bind_ret_l, findAgentFile_search. cbn [bind ret app trace result fst snd].
    rewrite !app_nil_r, writesTo_app, Wt, writesTo_exists.
    split; [reflexivity|]. intros paths Hp. injection Hp as <-. reflexivity.
  - cbn [bind throw trace result fst snd]. rewrite app_nil_r.
    split; [exact Wt|]. intros paths Hp. discriminate.
Qed.

Lemma reportAgentNotFound_writes (paths : ImportPaths.t) (agentPath : string) :
  writesTo (trace (reportAgentNotFound paths agentPath)) = [].
Proof.
  unfold reportAgentNotFound.
  destruct (Js.truthy (ImportPaths.agentsConfigPath paths)).
  - destruct (pathArg_cases (ImportPaths.agentsConfigPath paths))
      as [(dir & _ & P)|P]; rewrite P.
    + rewrite !bind_ret_l.
      destruct (ImportPaths.extension paths); reflexivity.
    + reflexivity.
  - rewrite bind_ret_l. destruct (ImportPaths.extension paths); reflexivity.
Qed.



Lemma last_In {A} (l : list A) (d : A) : l <> [] -> In (List.last l d) l.
Proof.
  induction l as [|x l IH]; intros Hne; [contradiction|].
  destruct l as [|y l]; [left; reflexivity|].
  right. apply IH. discriminate.
Qed.

Lemma filename_noSep (source : string) :
  noSep Path.slash (filename (parseImportSource source)) = true.
Proof.
  unfold parseImportSource, filename, JsString.orElse.
  destruct (String.eqb _ ""); [reflexivity|].
  pose proof (split_segments_noSep Path.slash source) as Hall.
  rewrite Forall_forall in Hall. apply Hall, last_In, split_nonempty.
Qed.






(* ================================================================= *)
(** ** Joining a joined path *)

Lemma dots_normal (stk : list string) :
  Forall (eq "..") stk -> normalStack true stk.
Proof.
  intros H. destruct H as [|x l Hx Hl]; [constructor|].
  subst x. apply normal_dots; [reflexivity|assumption].
Qed.

Lemma normStep_normal (allowAboveRoot : bool) (stk : list string) (s : string) :
  noSep Path.slash s = true ->
  normalStack allowAboveRoot stk ->
  normalStack allowAboveRoot (Path.normStep allowAboveRoot stk s).
Proof.
  intros Hs Hstk. unfold Path.normStep.
  destruct (String.eqb s "") eqn:E0; [assumption|].
  destruct (String.eqb s ".") eqn:E1; [assumption|]. cbn [orb].
  destruct (String.eqb s "..") eqn:E2.
  - destruct Hstk as [|stk Ha Hd|x stk Hx Hstk].
    + destruct allowAboveRoot; [apply normal_dots; auto|constructor].
    + rewrite String.eqb_refl, Ha.
      apply normal_dots; [reflexivity|]. constructor; [reflexivity|assumption].
    + destruct Hx as (_ & _ & _ & Hx). apply String.eqb_neq in Hx.
      rewrite Hx. assumption.
  - apply normal_regular; [|assumption].
    apply String.eqb_neq in E0, E1, E2. repeat split; assumption.
Qed.

Lemma fold_normal (allowAboveRoot : bool) (segs stk : list string) :
  Forall (fun s => noSep Path.slash s = true) segs ->
  normalStack allowAboveRoot stk ->
  normalStack allowAboveRoot (fold_left (Path.normStep allowAboveRoot) segs stk).
Proof.
  revert stk. induction segs as [|s segs IH]; intros stk Hs Hstk; [assumption|].
  inversion Hs; subst. cbn [fold_left].
  apply IH; [assumption|]. apply normStep_normal; assumption.
Qed.

Lemma fold_rev_normal (allowAboveRoot : bool) (stk : list string) :
  normalStack allowAboveRoot stk ->
  fold_left (Path.normStep allowAboveRoot) (rev stk) [] = stk.
Proof.
  induction stk as [|x stk IH]; intros H; [reflexivity|].
  cbn [rev]. rewrite fold_left_app. cbn [fold_left].
  inversion H as [|stk' Ha Hd|s stk' Hs Hstk]; subst.
  - rewrite IH by (apply dots_normal; assumption).
    unfold Path.normStep. cbn [String.eqb Ascii.eqb Bool.eqb orb].
    destruct Hd as [|y l Hy Hl]; [reflexivity|]. subst y.
    rewrite String.eqb_refl. reflexivity.
  - rewrite IH by assumption. apply normStep_regular. assumption.
Qed.

Lemma normal_segments (allowAboveRoot : bool) (stk : list string) :
  normalStack allowAboveRoot stk ->
  Forall (fun s => noSep Path.slash s = true /\ s <> "") stk.
Proof.
  induction stk as [|x stk IH]; intros H; [constructor|].
  inversion H as [|stk' Ha Hd|s stk' Hs Hstk]; subst.
  - constructor; [split; [reflexivity|discriminate]|].
    apply IH, dots_normal. assumption.
  - constructor; [destruct Hs as (? & ? & _); split; assumption|].
    apply IH. assumption.
Qed.

Lemma prefix_empty (s : string) : String.prefix "" s = true.
Proof. destruct s; reflexivity. Qed.

Lemma startsWith_slash_cons (a : ascii) (s : string) :
  JsString.startsWith (String a s) "/" = Ascii.eqb a Path.slash.
Proof.
  unfold JsString.startsWith. cbn [String.prefix].
  destruct (ascii_dec "/" a) as [<-|n].
  - rewrite prefix_empty. reflexivity.
  - symmetry. apply Ascii.eqb_neq. intros ->. apply n. reflexivity.
Qed.

Lemma startsWith_app (x y : string) :
  x <> "" -> JsString.startsWith (x +++ y) "/" = JsString.startsWith x "/".
Proof.
  destruct x; [contradiction|]. intros _. cbn [String.append].
  rewrite !startsWith_slash_cons. reflexivity.
Qed.

Lemma append_nonempty_r (x y : string) : y <> "" -> x +++ y <> "".
Proof. destruct x; simpl; [auto|discriminate]. Qed.

Lemma append_nonempty_l (x y : string) : x <> "" -> x +++ y <> "".
Proof. destruct x; simpl; [auto|discriminate]. Qed.

Lemma endsWith_app (x y : string) :
  y <> "" -> JsString.endsWith (x +++ y) "/" = JsString.endsWith y "/".
Proof.
  intros Hy. induction x as [|a x IH]; [reflexivity|].
  cbn [String.append JsString.endsWith]. rewrite IH.
  pose proof (append_nonempty_r x y Hy) as Hne.
  cbn [String.eqb]. destruct (x +++ y); [contradiction|].
  destruct (Ascii.eqb a "/"); reflexivity.
Qed.

Lemma join_nonempty (sep x : string) (t : list string) :
  x <> "" -> JsString.join sep (x :: t) <> "".
Proof.
  destruct x; [contradiction|]. intros _. rewrite join_cons_char. discriminate.
Qed.

Lemma join_app (sep : string) (l r : list string) :
  l <> [] -> r <> [] ->
  JsString.join sep (l ++ r) = JsString.join sep l +++ sep +++ JsString.join sep r.
Proof.
  intros Hl Hr. induction l as [|x l IH]; [contradiction|].
  destruct l as [|y l].
  - destruct r; [contradiction|reflexivity].
  - change (JsString.join sep ((x :: y :: l) ++ r))
      with (x +++ sep +++ JsString.join sep ((y :: l) ++ r)).
    rewrite IH by discriminate.
    change (JsString.join sep (x :: y :: l))
      with (x +++ sep +++ JsString.join sep (y :: l)).
    rewrite !append_assoc. reflexivity.
Qed.

Lemma normalize_cases (path : string) :
  path <> "" ->
  let abs := JsString.startsWith path "/" in
  let trail := JsString.endsWith path "/" in
  let stk := fold_left (Path.normStep (negb abs))
                       (JsString.split Path.slash path) [] in
  normalStack (negb abs) stk /\
  ((stk = [] /\
    Path.normalize path = (if abs then "/" else if trail then "./" else "."))
   \/ (stk <> [] /\ JsString.join "/" (rev stk) <> "" /\
       Path.normalize path
       = (if abs then "/" else "") +++ JsString.join "/" (rev stk)
         +++ (if trail then "/" else ""))).
Proof.
  intros Hne abs trail stk.
  assert (Hnormal : normalStack (negb abs) stk)
    by (apply fold_normal; [apply split_segments_noSep|constructor]).
  split; [assumption|].
  unfold Path.normalize, Path.normalizeString.
  apply String.eqb_neq in Hne. rewrite Hne. fold abs trail stk. cbv zeta.
  destruct stk as [|x stk'] eqn:E.
  - left. split; reflexivity.
  - right. split; [discriminate|].
    assert (Hj : JsString.join "/" (rev (x :: stk')) <> "").
    { pose proof (normal_segments _ _ Hnormal) as Hs.
      apply Forall_rev in Hs.
      destruct (rev (x :: stk')) as [|y t] eqn:R.
      - apply (f_equal (@List.length _)) in R.
        rewrite length_rev in R. discriminate.
      - inversion Hs as [|? ? [_ Hy] _]; subst. apply join_nonempty. assumption. }
    split; [assumption|].
    apply String.eqb_neq in Hj. rewrite Hj. reflexivity.
Qed.

Lemma normStep_empty (allowAboveRoot : bool) (stk : list string) :
  Path.normStep allowAboveRoot stk "" = stk.
Proof. reflexivity. Qed.

Lemma fold_split_wrapped (allowAboveRoot lead trail : bool) (p : string) :
  fold_left (Path.normStep allowAboveRoot)
    (JsString.split Path.slash
       ((if lead then "/" else "") +++ p +++ (if trail then "/" else ""))) []
  = fold_left (Path.normStep allowAboveRoot) (JsString.split Path.slash p) [].
Proof.
  assert (T : fold_left (Path.normStep allowAboveRoot)
                (JsString.split Path.slash (p +++ (if trail then "/" else ""))) []
              = fold_left (Path.normStep allowAboveRoot)
                  (JsString.split Path.slash p) []).
  { destruct trail.
    - change (p +++ "/") with (p +++ String Path.slash "").
      rewrite split_app_sep, fold_left_app. reflexivity.
    - rewrite append_empty_r. reflexivity. }
  destruct lead; [|exact T].
  change ("/" +++ p +++ (if trail then "/" else ""))
    with (String Path.slash (p +++ (if trail then "/" else ""))).
  cbn [JsString.split]. rewrite Ascii.eqb_refl. cbn [fold_left].
  rewrite normStep_empty. exact T.
Qed.

Lemma rev_normal_head (allowAboveRoot : bool) (stk : list string) :
  normalStack allowAboveRoot stk -> stk <> [] ->
  exists a y t, rev stk = String a y :: t /\ Ascii.eqb a Path.slash = false
                /\ Forall (fun s => noSep Path.slash s = true) (String a y :: t).
Proof.
  intros Hn Hne. pose proof (normal_segments _ _ Hn) as Hs.
  apply Forall_rev in Hs.
  destruct (rev stk) as [|x t] eqn:R.
  - apply (f_equal (@List.length _)) in R. rewrite length_rev in R.
    destruct stk; [contradiction|discriminate].
  - assert (Hall : Forall (fun s => noSep Path.slash s = true) (x :: t))
      by (eapply Forall_impl; [|exact Hs]; intros s [H _]; exact H).
    inversion Hs as [|? ? [Hx Hx0] _]; subst.
    destruct x as [|a y]; [contradiction|].
    exists a, y, t. split; [reflexivity|]. split; [|assumption].
    simpl in Hx. apply andb_true_iff in Hx as [Hx _].
    apply negb_true_iff in Hx. exact Hx.
Qed.

(** What a normalized path keeps of the path it comes from. *)
Lemma normalize_facts (path : string) :
  path <> "" ->
  let abs := JsString.startsWith path "/" in
  JsString.startsWith (Path.normalize path) "/" = abs
  /\ fold_left (Path.normStep (negb abs))
       (JsString.split Path.slash (Path.normalize path)) []
     = fold_left (Path.normStep (negb abs)) (JsString.split Path.slash path) []
  /\ Path.normalize path <> "".
Proof.
  intros Hne. cbv zeta.
  pose proof (normalize_cases path Hne) as H. cbv zeta in H.
  remember (JsString.startsWith path "/") as abs eqn:Eabs.
  remember (fold_left (Path.normStep (negb abs))
                      (JsString.split Path.slash path) []) as stk eqn:Estk.
  destruct H as [Hn [[Hs Hp]|(Hs & Hj & Hp)]].
  - rewrite Hs, Hp.
    destruct abs; [|destruct (JsString.endsWith path "/")];
      repeat split; discriminate.
  - destruct (rev_normal_head _ _ Hn Hs) as (a & y & t & R & Ha & Hall).
    rewrite Hp. split; [|split].
    + destruct abs;
        [cbn [String.append]; rewrite startsWith_slash_cons; reflexivity|].
      cbn [String.append]. rewrite startsWith_app by assumption.
      rewrite R, join_cons_char, startsWith_slash_cons. exact Ha.
    + rewrite fold_split_wrapped.
      change "/" with (sepString Path.slash). rewrite R, split_join by assumption.
      rewrite <- R. apply fold_rev_normal. assumption.
    + apply append_nonempty_r, append_nonempty_l. assumption.
Qed.

Lemma eqb_empty_false (s : string) : s <> "" -> String.eqb s "" = false.
Proof. intros H. apply String.eqb_neq. assumption. Qed.

Lemma normalize_nonempty (path : string) :
  path <> "" ->
  Path.normalize path
  = (if String.eqb (Path.normalizeString (negb (JsString.startsWith path "/")) path) ""
     then (if JsString.startsWith path "/" then "/"
           else if JsString.endsWith path "/" then "./" else ".")
     else (if JsString.startsWith path "/" then "/" else "")
          +++ Path.normalizeString (negb (JsString.startsWith path "/")) path
          +++ (if JsString.endsWith path "/" then "/" else "")).
Proof.
  intros H. unfold Path.normalize. rewrite (eqb_empty_false _ H). reflexivity.
Qed.

(** Normalizing the head of a path first changes nothing. *)
Lemma normalize_prefix (path rest : string) :
  path <> "" ->
  Path.normalize (Path.normalize path +++ "/" +++ rest)
  = Path.normalize (path +++ "/" +++ rest).
Proof.
  intros Hne. destruct (normalize_facts path Hne) as (Ha & Hf & Hn).
  assert (Hr : "/" +++ rest <> "") by discriminate.
  rewrite (normalize_nonempty (Path.normalize path +++ "/" +++ rest))
    by (apply append_nonempty_r; assumption).
  rewrite (normalize_nonempty (path +++ "/" +++ rest))
    by (apply append_nonempty_r; assumption).
  rewrite (startsWith_app (Path.normalize path) _ Hn),
          (startsWith_app path _ Hne), Ha.
  rewrite (endsWith_app (Path.normalize path) _ Hr), (endsWith_app path _ Hr).
  unfold Path.normalizeString.
  change ("/" +++ rest) with (String Path.slash rest).
  rewrite !split_app_sep, !fold_left_app, Hf. reflexivity.
Qed.

Lemma normalize_idempotent (path : string) :
  path <> "" -> Path.normalize (Path.normalize path) = Path.normalize path.
Proof.
  intros Hne. destruct (normalize_facts path Hne) as (Ha & Hf & Hn).
  rewrite (normalize_nonempty (Path.normalize path) Hn).
  unfold Path.normalizeString at 1 2. rewrite Ha, Hf.
  pose proof (normalize_cases path Hne) as H. cbv zeta in H.
  remember (JsString.startsWith path "/") as abs eqn:Eabs.
  remember (fold_left (Path.normStep (negb abs))
                      (JsString.split Path.slash path) []) as stk eqn:Estk.
  destruct H as [Hnormal [[Hs Hp]|(Hs & Hj & Hp)]].
  - rewrite Hs, Hp. cbn [rev JsString.join String.eqb].
    destruct abs; [reflexivity|].
    destruct (JsString.endsWith path "/"); reflexivity.
  - rewrite (eqb_empty_false _ Hj).
    assert (Ht : JsString.endsWith (Path.normalize path) "/"
                 = JsString.endsWith path "/").
    { rewrite Hp. destruct (JsString.endsWith path "/").
      - rewrite endsWith_app by (apply append_nonempty_r; discriminate).
        rewrite endsWith_app by discriminate. reflexivity.
      - rewrite append_empty_r, endsWith_app by assumption.
        destruct (JsString.endsWith (JsString.join "/" (rev stk)) "/") eqn:E;
          [|reflexivity].
        apply endsWith_slash_basename in E.
        destruct stk as [|x stk']; [contradiction|].
        pose proof (normal_segments _ _ Hnormal) as Hseg.
        inversion Hseg as [|? ? [Hx Hx0] _]; subst.
        cbn [rev] in E. rewrite basename_join_snoc in E by assumption.
        contradiction. }
    rewrite Ht. symmetry. exact Hp.
Qed.

Lemma filter_nonempty_head (l : list string) :
  match filter (fun a => negb (String.eqb a "")) l with
  | [] => True
  | x :: _ => x <> ""
  end.
Proof.
  induction l as [|y l IH]; [exact I|]. cbn [filter].
  destruct (String.eqb y "") eqn:E; [exact IH|].
  cbn [negb]. apply String.eqb_neq. assumption.
Qed.

(** Joining onto a joined path is joining all the segments at once. *)
Lemma join_nested (l r : list string) :
  filter (fun a => negb (String.eqb a "")) l <> [] ->
  Path.join (Path.join l :: r) = Path.join (l ++ r).
Proof.
  intros Hl. unfold Path.join at 1 3. rewrite filter_app. cbn [filter].
  unfold Path.join.
  pose proof (filter_nonempty_head l) as Hhead.
  set (parts := filter (fun a => negb (String.eqb a "")) l) in *.
  set (more := filter (fun a => negb (String.eqb a "")) r).
  destruct parts as [|x parts'] eqn:E; [contradiction|].
  assert (Hp : JsString.join "/" (x :: parts') <> "")
    by (apply join_nonempty; assumption).
  destruct (normalize_facts _ Hp) as (_ & _ & Hn).
  rewrite (eqb_empty_false _ Hn). cbn [negb].
  destruct more as [|y more'].
  - rewrite app_nil_r. cbn [JsString.join].
    apply normalize_idempotent. assumption.
  - change (JsString.join "/" (Path.normalize (JsString.join "/" (x :: parts'))
                               :: y :: more'))
      with (Path.normalize (JsString.join "/" (x :: parts'))
            +++ "/" +++ JsString.join "/" (y :: more')).
    rewrite normalize_prefix by assumption.
    rewrite <- (join_app "/" (x :: parts') (y :: more')) by discriminate.
    reflexivity.
Qed.

(* ================================================================= *)
(** ** The layout of the local pool *)

Lemma local_sub (w : World) (sub : string) :
  Path.join [getBuddyBasePath w None; "pools"; "local"; sub]
  = Path.join [localPool w; sub].
Proof.
  unfold localPool.
  rewrite (join_nested [getBuddyBasePath w None; "pools"; "local"] [sub]);
    [reflexivity|].
  cbn [filter]. destruct (String.eqb (getBuddyBasePath w None) ""); discriminate.
Qed.

Lemma local_self (w : World) : Path.join [localPool w; ""] = localPool w.
Proof.
  unfold localPool.
  rewrite (join_nested [getBuddyBasePath w None; "pools"; "local"] [""]).
  - unfold Path.join. rewrite filter_app, app_nil_r. reflexivity.
  - cbn [filter]. destruct (String.eqb (getBuddyBasePath w None) ""); discriminate.
Qed.

Lemma copyIntoPool_writes (w : World)
  (sourcePath destPath name missing copied failed dst : string) :
  In dst (writesTo (trace (copyIntoPool w sourcePath destPath name
                                        missing copied failed))) ->
  dst = destPath.
Proof.
  unfold copyIntoPool, copyFile, promptOverwrite, prompt, Bun_file_exists,
    Bun_file_text, Bun_write.
  destruct (file_exists w sourcePath); run; [|cbn; contradiction].
  destruct (file_exists w destPath); run.
  - destruct (prompt_reply w _) as [r|];
      [destruct (String.eqb (JsString.toLowerCase r) "y"
                 || String.eqb (JsString.toLowerCase r) "yes")|];
      run;
      try (destruct (file_text w sourcePath); run;
           try (destruct (write_ok w destPath); run));
      cbn [writesTo flat_map app];
      intros H; repeat (destruct H as [H|H]; [symmetry; exact H|]); contradiction.
  - destruct (file_text w sourcePath); run;
      try (destruct (write_ok w destPath); run);
      cbn [writesTo flat_map app];
      intros H; repeat (destruct H as [H|H]; [symmetry; exact H|]); contradiction.
Qed.

Lemma addFromLocalFile_writes (w : World) (url dst : string) :
  In dst (writesTo (trace (addFromLocalFile w url))) ->
  exists filename, dst = Path.join [localPool w; filename].
Proof.
  unfold addFromLocalFile, Bun_file_text, Bun_write, getAddPaths.
  cbn [AddPaths.localAgentsPath]. fold (localPool w).
  destruct (file_text w _); run; [|cbn; contradiction].
  destruct (write_ok w _); run; cbn [writesTo flat_map app];
    intros H; repeat (destruct H as [H|H]; [eexists; symmetry; exact H|]);
    contradiction.
Qed.

Lemma parse_local (rest : string) :
  repoName (parseImportSource ("local/" +++ rest)) = "local"
  /\ agentPath (parseImportSource ("local/" +++ rest)) = rest.
Proof.
  unfold parseImportSource.
  change ("local/" +++ rest) with ("local" +++ String Path.slash rest).
  rewrite split_app_sep. cbn [JsString.split app repoName agentPath hd tl].
  cbn. split; [reflexivity|].
  change "/" with (sepString Path.slash). apply join_split.
Qed.

Lemma search_tried_In (present : string -> bool) (cands : list string) (p : string) :
  In p (fst (Spec.search present cands)) -> In p cands.
Proof.
  induction cands as [|c rest IH]; simpl; [auto|].
  destruct (present c); simpl.
  - intros [H|[]]. left. assumption.
  - destruct (Spec.search present rest). simpl in *.
    intros [H|H]; [left; assumption|right; auto].
Qed.

Lemma looksAt_app (a b : list event) : looksAt (a ++ b) = looksAt a ++ looksAt b.
Proof. apply flat_map_app. Qed.

Lemma looksAt_exists (l : list string) : looksAt (List.map EvExists l) = l.
Proof. induction l; [reflexivity|]. simpl. f_equal. exact IHl. Qed.

Lemma given_inv (o : option string) (s : string) :
  given o = Some s -> o = Some s.
Proof.
  destruct o as [x|]; simpl; [|discriminate].
  destruct (String.eqb x ""); congruence.
Qed.

Lemma toolCommand_local_looksAt (w : World) (rest p : string) :
  In p (looksAt (trace (toolCommand w ("local/" +++ rest)))) ->
  In p (Spec.candidates (Path.join [localPool w; "shared"]) rest None).
Proof.
  unfold toolCommand. destruct (parse_local rest) as [Hr Ha]. rewrite Hr, Ha.
  cbn [String.eqb Ascii.eqb Bool.eqb]. rewrite bind_ret_l. cbn [fst snd].
  rewrite local_sub, findAgentFile_search. cbn [option_map undefined].
  set (cands := Spec.candidates (Path.join [localPool w; "shared"]) rest None).
  pose proof (search_tried_In (file_exists w) cands) as Htried.
  cbn [bind].
  destruct (given (find (file_exists w) cands)) as [file|] eqn:G.
  - apply given_inv, find_some in G. destruct G as [Hin _].
    unfold console_error, console_log, emit, process_exit, Bun_file_text.
    destruct (file_text w file); run;
      rewrite <- ?app_assoc, looksAt_app, looksAt_exists;
      cbn [looksAt flat_map app];
      intros H; apply in_app_or in H; destruct H as [H|[H|[]]];
      try (apply Htried; assumption); subst; assumption.
  - unfold console_error, emit, process_exit. run.
    rewrite <- ?app_assoc, looksAt_app, looksAt_exists.
    cbn [looksAt flat_map app]. rewrite app_nil_r. apply Htried.
Qed.

Lemma getImportPaths_local (w : World) (rest filename : string)
  (toClaudeProject : bool) :
  file_exists w (configPath (localPool w)) = false ->
  trace (getImportPaths w "local" rest filename toClaudeProject None)
  = EvExists (configPath (localPool w))
    :: List.map EvExists
         (fst (Spec.search (file_exists w)
                 (Spec.candidates (localPool w) rest None))).
Proof.
  intros H. unfold getImportPaths. fold (localPool w).
  rewrite (load_absent _ _ H). cbn [bind].
  cbn [BuddyConfig.agents BuddyConfig.extension BuddyConfig.new
       BuddyConfig.constructor pathArg].
  rewrite bind_ret_l, local_self, findAgentFile_search.
  cbn [option_map bind ret app trace fst]. rewrite app_nil_r. reflexivity.
Qed.

(** C5, as amended. For the default pool [local], whatever
    configuration exists: the agents are in the root of the pool,
    [<base>/pools/local], in add and list; the commands and the shared
    context are in its sub-directories [commands] and [shared], in add,
    list and tool; an import looks for an agent in the root of the pool
    when the pool has no configuration resource. *)
Theorem local_pool_layout (w : World) :
  let root := localPool w in
  (forall name,
      AddPaths.localAgentsPath (getAddPaths w name None) = root /\
      AddPaths.destPath (getAddPaths w name None) = Path.join [root; name +++ ".md"])
  /\ (forall name personal,
      AddPaths.localAgentsPath
        (getAddPathsWithConfig w (AddPathConfig.mk name None personal)) = root /\
      AddPaths.destPath
        (getAddPathsWithConfig w (AddPathConfig.mk name None personal))
      = Path.join [root; name +++ ".md"])
  /\ (forall name dst,
      In dst (writesTo (trace (addClaudeProjectAgent w name))) \/
      In dst (writesTo (trace (addClaudePersonalAgent w name))) ->
      dst = Path.join [root; name +++ ".md"])
  /\ (forall name dst,
      In dst (writesTo (trace (addClaudeCommand w name))) ->
      dst = Path.join [Path.join [root; "commands"]; name +++ ".md"])
  /\ (forall name dst,
      In dst (writesTo (trace (addClaudeShared w name))) ->
      dst = Path.join [Path.join [root; "shared"]; name +++ ".md"])
  /\ (forall url dst,
      In dst (writesTo (trace (addFromLocalFile w url))) ->
      exists filename, dst = Path.join [root; filename])
  /\ (forall options,
      listTarget w "local" options
      = ret (if ListOptions.commands options
             then (Path.join [root; "commands"], "commands")
             else if ListOptions.shared options
             then (Path.join [root; "shared"], "shared context")
             else (root, "agents")))
  /\ (forall rest p,
      In p (looksAt (trace (toolCommand w ("local/" +++ rest)))) ->
      In p (Spec.candidates (Path.join [root; "shared"]) rest None))
  /\ (forall rest filename toClaudeProject,
      file_exists w (configPath root) = false ->
      trace (getImportPaths w "local" rest filename toClaudeProject None)
      = EvExists (configPath root)
        :: List.map EvExists
             (fst (Spec.search (file_exists w) (Spec.candidates root rest None)))).
Proof.
  intros root. repeat match goal with |- _ /\ _ => split end.
  - intros name. split; reflexivity.
  - intros name personal. split; reflexivity.
  - intros name dst [H|H].
    + unfold addClaudeProjectAgent in H. apply copyIntoPool_writes in H. exact H.
    + unfold addClaudePersonalAgent in H. apply copyIntoPool_writes in H. exact H.
  - intros name dst H. unfold addClaudeCommand in H.
    apply copyIntoPool_writes in H. rewrite local_sub in H. exact H.
  - intros name dst H. unfold addClaudeShared in H.
    apply copyIntoPool_writes in H. rewrite local_sub in H. exact H.
  - apply addFromLocalFile_writes.
  - intros options. unfold listTarget. cbn [String.eqb Ascii.eqb Bool.eqb].
    fold (localPool w). fold root.
    destruct (ListOptions.commands options); [reflexivity|].
    destruct (ListOptions.shared options); reflexivity.
  - apply toolCommand_local_looksAt.
  - apply getImportPaths_local.
Qed.

(** C5, as stated, fails: the agents of the local pool are in the root
    of the pool, not in a sub-directory [agents], and an import reads
    the configuration of the local pool like that of any pool. *)
Lemma local_agents_in_pool_root :
  listTarget Sample.bare "local" (ListOptions.mk false false)
    = ret ("/home/u/.buddy/pools/local", "agents")
  /\ "/home/u/.buddy/pools/local" <> "/home/u/.buddy/pools/local/agents"
  /\ AddPaths.destPath (getAddPaths Sample.bare "helper" None)
     = "/home/u/.buddy/pools/local/helper.md"
  /\ trace (getImportPaths Sample.configuredLocal "local" "helper" "helper" false None)
     = [EvExists "/home/u/.buddy/pools/local/.buddy/config.json";
        EvReadJson "/home/u/.buddy/pools/local/.buddy/config.json";
        EvExists "/home/u/.buddy/pools/local/prompts/helper.prompt";
        EvExists "/home/u/.buddy/pools/local/prompts/helper"].
Proof.
  split; [vm_compute; reflexivity|]. split; [discriminate|].
  split; vm_compute; reflexivity.
Qed.

(* ================================================================= *)
(** ** URLs *)

(** X1. The protocol check accepts exactly the URLs that parse and whose
    protocol is [https:] or [file:]; it gives a reason exactly when it
    refuses. *)
Theorem validateUrlProtocol_accepts (w : World) (url : string) :
  (isValid (validateUrlProtocol w url) = true <->
   exists parsed, url_parse w url = Some parsed /\
                  (protocol parsed = "https:" \/ protocol parsed = "file:"))
  /\ (isValid (validateUrlProtocol w url) = true -> error (validateUrlProtocol w url) = None)
  /\ (isValid (validateUrlProtocol w url) = false ->
      exists reason, error (validateUrlProtocol w url) = Some reason).
Proof.
  unfold validateUrlProtocol.
  destruct (url_parse w url) as [parsed|].
  2:{ split; [split; [discriminate|intros (p & H & _); discriminate]|].
      split; [discriminate|]. intros _. eexists. reflexivity. }
  destruct (String.eqb (protocol parsed) "http:") eqn:E1.
  { apply String.eqb_eq in E1. cbn [isValid error].
    split; [split; [discriminate|]|split; [discriminate|eexists; reflexivity]].
    intros (p & H & [Hp|Hp]); injection H as <-; rewrite E1 in Hp; discriminate. }
  destruct (String.eqb (protocol parsed) "git:"
            || JsString.startsWith (protocol parsed) "ssh") eqn:E2.
  { cbn [isValid error].
    split; [split; [discriminate|]|split; [discriminate|eexists; reflexivity]].
    intros (p & H & [Hp|Hp]); injection H as <-; rewrite Hp in E2; discriminate. }
  destruct (String.eqb (protocol parsed) "https:"
            || String.eqb (protocol parsed) "file:") eqn:E3; cbn [isValid error].
  - split; [split; [|reflexivity]|split; [reflexivity|discriminate]].
    intros _. exists parsed. split; [reflexivity|].
    apply orb_true_iff in E3. destruct E3 as [E|E]; apply String.eqb_eq in E; auto.
  - split; [split; [discriminate|]|split; [discriminate|eexists; reflexivity]].
    intros (p & H & [Hp|Hp]); injection H as <-; rewrite Hp in E3; discriminate.
Qed.

Lemma trace_try_catch_In {A} (m : M A) (h : exn -> M A) (e : event) :
  In e (trace (try_catch m h)) ->
  In e (trace m) \/ exists ex, result m = Throw ex /\ In e (trace (h ex)).
Proof.
  destruct m as [t [a|ex|c]]; cbn [try_catch trace result fst snd]; auto.
  destruct (h ex) as [t' o] eqn:E. cbn [fst].
  intros H. apply in_app_or in H. destruct H as [H|H]; [left; assumption|].
  right. exists ex. rewrite E. split; [reflexivity|assumption].
Qed.

(** X2. A URL that does not pass the protocol check is reported and
    nothing else happens: no file is looked at and git is not run. *)
Theorem addFromUrl_rejected (w : World) (url : string) (customName : option string) :
  isValid (validateUrlProtocol w url) = false ->
  exists reason,
    error (validateUrlProtocol w url) = Some reason
    /\ addFromUrl w url customName = ([EvError ("✗ " +++ reason)], Exit 1%Z).
Proof.
  intros H. unfold addFromUrl. rewrite H. cbn [negb].
  unfold validateUrlProtocol in *.
  destruct (url_parse w url) as [parsed|]; [|eexists; split; reflexivity].
  destruct (String.eqb (protocol parsed) "http:");
    [eexists; split; reflexivity|].
  destruct (String.eqb (protocol parsed) "git:"
            || JsString.startsWith (protocol parsed) "ssh");
    [eexists; split; reflexivity|].
  destruct (String.eqb (protocol parsed) "https:"
            || String.eqb (protocol parsed) "file:");
    [discriminate|eexists; split; reflexivity].
Qed.

Lemma addFromUrl_rejected_witness :
  addFromUrl Sample.bare "host/team/repo" None
  = ([EvError "✗ Invalid URL format"], Exit 1%Z).
Proof.
  destruct (addFromUrl_rejected Sample.bare "host/team/repo" None eq_refl)
    as (reason & Hr & Hrun).
  vm_compute in Hr. injection Hr as <-. exact Hrun.
Defined.

Lemma addFromLocalFile_no_git (w : World) (url : string) (e : event) :
  In e (trace (addFromLocalFile w url)) -> usesGit e = false.
Proof.
  unfold addFromLocalFile, Bun_file_text, Bun_write.
  destruct (file_text w _); run.
  - destruct (write_ok w _); run;
      intros H; repeat (destruct H as [<-|H]; [reflexivity|]); contradiction.
  - intros H; repeat (destruct H as [<-|H]; [reflexivity|]); contradiction.
Qed.

(** X3. Git is run for [https:] URLs only. *)
Theorem addFromUrl_git_needs_https (w : World) (url : string)
  (customName : option string) (e : event) :
  In e (trace (addFromUrl w url customName)) ->
  usesGit e = true ->
  exists parsed, url_parse w url = Some parsed /\ protocol parsed = "https:".
Proof.
  intros Hin Hgit. unfold addFromUrl in Hin.
  destruct (isValid (validateUrlProtocol w url)) eqn:V; cbn [negb] in Hin.
  2:{ unfold console_error, emit, process_exit in Hin. cbn in Hin.
      destruct Hin as [<-|[]]. discriminate. }
  rewrite bind_ret_l in Hin.
  destruct (url_parse w url) as [parsed|] eqn:P.
  2:{ cbn in Hin. destruct Hin as [<-|[]]. discriminate. }
  exists parsed. split; [reflexivity|].
  destruct (String.eqb (protocol parsed) "https:") eqn:E;
    [apply String.eqb_eq; assumption|].
  exfalso.
  apply trace_try_catch_In in Hin. destruct Hin as [Hin|(ex & _ & Hin)].
  - destruct (String.eqb (protocol parsed) "file:").
    + apply addFromLocalFile_no_git in Hin. congruence.
    + destruct Hin.
  - cbn in Hin. destruct Hin as [<-|[]]. discriminate.
Qed.

Lemma addFromUrl_git_needs_https_witness :
  In (EvGitClone "https://host/team/Repo.git" "/home/u/.buddy/pools/Repo")
     (trace (addFromUrl Sample.bare "https://host/team/Repo.git" None))
  /\ exists parsed,
       url_parse Sample.bare "https://host/team/Repo.git" = Some parsed
       /\ protocol parsed = "https:".
Proof.
  assert (H : In (EvGitClone "https://host/team/Repo.git" "/home/u/.buddy/pools/Repo")
                 (trace (addFromUrl Sample.bare "https://host/team/Repo.git" None)))
    by (vm_compute; do 2 right; left; reflexivity).
  split; [exact H|].
  exact (addFromUrl_git_needs_https Sample.bare "https://host/team/Repo.git" None
           _ H eq_refl).
Defined.

(* ================================================================= *)
(** ** What an acquisition changes *)

(** X4. What [addFromGitRepo] changes: it clones only into a directory that
    does not exist, and pulls only in a clone of the requested
    repository. *)
Theorem addFromGitRepo_mutation_guard (w : World) (url : string)
  (customName : option string) (e : event) :
  let name := acquiredName w url customName in
  let dir := poolDir w name in
  In e (trace (addFromGitRepo w url customName)) ->
  mutates e = true ->
  (e = EvGitClone url dir /\ glob_scan w "*" dir = None)
  \/ (e = EvGitPull dir /\ glob_scan w "*" dir <> None
      /\ file_exists w (gitMarker dir) = true
      /\ exists out, git_origin w dir = Some out
                     /\ normalizeUrl (JsString.trim out) = normalizeUrl url).
Proof.
  intros name dir.
  unfold addFromGitRepo. fold (acquiredName w url customName). fold name.
  fold (poolDir w name). fold dir. fold (gitMarker dir).
  rewrite directoryExists_eq.
  unfold Bun_file_exists, git_config_get_origin, git_pull, git_clone.
  destruct (glob_scan w "*" dir) as [entries|] eqn:S; run.
  - destruct (file_exists w (gitMarker dir)) eqn:Mk; run.
    + destruct (git_origin w dir) as [out|] eqn:O; run.
      * destruct (String.eqb (normalizeUrl (JsString.trim out)) (normalizeUrl url))
          eqn:Same; run.
        -- apply String.eqb_eq in Same.
           destruct (git_pull_ok w dir); run;
             intros H Hm;
             repeat (destruct H as [<-|H]; [try discriminate Hm|]);
             try contradiction;
             (right; split; [reflexivity|]; split; [discriminate|];
              split; [reflexivity|]; exists out; split; [reflexivity|assumption]).
        -- intros H Hm.
           repeat (destruct H as [<-|H]; [discriminate Hm|]). contradiction.
      * intros H Hm.
        repeat (destruct H as [<-|H]; [discriminate Hm|]). contradiction.
    + intros H Hm.
      repeat (destruct H as [<-|H]; [discriminate Hm|]). contradiction.
  - destruct (git_clone_ok w url dir); run;
      intros H Hm;
      repeat (destruct H as [<-|H]; [try discriminate Hm|]);
      try contradiction; (left; split; reflexivity).
Qed.

Lemma addFromGitRepo_mutation_guard_witness :
  let w := Sample.cloned in
  let url := "https://host/team/repo" in
  In (EvGitPull "/home/u/.buddy/pools/Repo")
     (trace (addFromGitRepo w url (Some "Repo")))
  /\ file_exists w (gitMarker "/home/u/.buddy/pools/Repo") = true.
Proof.
  intros w url.
  assert (H : In (EvGitPull "/home/u/.buddy/pools/Repo")
                 (trace (addFromGitRepo w url (Some "Repo"))))
    by (vm_compute; do 4 right; left; reflexivity).
  split; [exact H|].
  destruct (addFromGitRepo_mutation_guard w url (Some "Repo") _ H eq_refl)
    as [[Hc _]|(_ & _ & Hm & _)]; [discriminate Hc|].
  vm_compute in Hm. vm_compute. exact Hm.
Defined.

(** X5. When the origin of an existing clone cannot be read, the run ends
    with status 1 and changes nothing. *)
Theorem addFromGitRepo_origin_unreadable (w : World) (url : string)
  (customName : option string) (entries : list string) :
  let name := acquiredName w url customName in
  let dir := poolDir w name in
  glob_scan w "*" dir = Some entries ->
  file_exists w (gitMarker dir) = true ->
  git_origin w dir = None ->
  addFromGitRepo w url customName
  = ([EvScan "*" dir; EvExists (gitMarker dir); EvGitOrigin dir;
      EvError ("✗ Failed to clone repository: "
               +++ render_error w (ShellFailure "git config --get remote.origin.url"))],
     Exit 1%Z)
  /\ noMutation (trace (addFromGitRepo w url customName)) = true.
Proof.
  intros name dir S Mk O.
  assert (E : addFromGitRepo w url customName
    = ([EvScan "*" dir; EvExists (gitMarker dir); EvGitOrigin dir;
        EvError ("✗ Failed to clone repository: "
                 +++ render_error w (ShellFailure "git config --get remote.origin.url"))],
       Exit 1%Z)).
  { unfold addFromGitRepo. fold (acquiredName w url customName). fold name.
    fold (poolDir w name). fold dir. fold (gitMarker dir).
    rewrite directoryExists_eq, S.
    unfold Bun_file_exists, git_config_get_origin. rewrite Mk, O. reflexivity. }
  rewrite E. split; reflexivity.
Qed.

Lemma addFromGitRepo_origin_unreadable_witness :
  let w := Sample.machine [("/home/u/.buddy/pools/Repo/.git/config", "[core]")] []
                          ["/home/u/.buddy/pools/Repo"] [] in
  addFromGitRepo w "https://host/team/Repo.git" None
  = ([EvScan "*" "/home/u/.buddy/pools/Repo";
      EvExists "/home/u/.buddy/pools/Repo/.git/config";
      EvGitOrigin "/home/u/.buddy/pools/Repo";
      EvError "✗ Failed to clone repository: ShellError: Failed with exit code 1"],
     Exit 1%Z).
Proof.
  intros w.
  pose proof (addFromGitRepo_origin_unreadable w "https://host/team/Repo.git" None [])
    as H.
  vm_compute in H. vm_compute. apply H; reflexivity.
Defined.

Ltac not_success :=
  right; split; [reflexivity|];
  intros H; cbn [String.append] in H;
  repeat (destruct H as [H|H]; [discriminate H|]); exact H.

(** X6. A run of [addFromGitRepo] either returns normally, its last line
    being the line of success, or ends with status 1 without that
    line. *)
Theorem addFromGitRepo_status (w : World) (url : string)
  (customName : option string) :
  let name := acquiredName w url customName in
  let success := EvLog ("✓ Repository " +++ name +++ " added to pool") in
  (result (addFromGitRepo w url customName) = Ret tt
   /\ exists before, trace (addFromGitRepo w url customName) = before ++ [success])
  \/ (result (addFromGitRepo w url customName) = Exit 1
      /\ ~ In success (trace (addFromGitRepo w url customName))).
Proof.
  intros name success. subst success.
  unfold addFromGitRepo. fold (acquiredName w url customName). fold name.
  rewrite directoryExists_eq.
  unfold Bun_file_exists, git_config_get_origin, git_pull, git_clone.
  set (dir := RepoPaths.repoPath (getRepoPaths w name None)).
  destruct (glob_scan w "*" dir); run.
  - destruct (file_exists w _); run; [|not_success].
    destruct (git_origin w dir) as [out|]; run; [|not_success].
    destruct (String.eqb _ _); run; [|not_success].
    destruct (git_pull_ok w dir); run; [|not_success].
    left. split; [reflexivity|].
    eexists [_; _; _; _; _]. reflexivity.
  - destruct (git_clone_ok w url dir); run; [|not_success].
    left. split; [reflexivity|]. eexists [_; _; _]. reflexivity.
Qed.

Lemma stripSuffix_noSep (c : ascii) (suf s : string) :
  noSep c s = true -> noSep c (JsString.stripSuffix suf s) = true.
Proof.
  induction s as [|a r IH]; intros H; cbn [JsString.stripSuffix].
  - destruct (String.eqb "" suf); reflexivity.
  - destruct (String.eqb (String a r) suf); [reflexivity|].
    simpl in H |- *. apply andb_true_iff in H as [Ha Hr].
    rewrite Ha, IH; auto.
Qed.

(** X7. The name taken from a URL is one path segment: it contains no [/],
    and when it is a regular segment the pool directory it names is the
    entry of that name in the pools directory. *)
Theorem extractRepoName_segment (w : World) (url : string) :
  noSep Path.slash (extractRepoName w url) = true
  /\ (regular (extractRepoName w url) ->
      basename (poolDir w (extractRepoName w url)) = extractRepoName w url).
Proof.
  split.
  - unfold extractRepoName.
    destruct (url_parse w url) as [parsed|]; [|reflexivity].
    destruct (String.eqb _ ""); [reflexivity|].
    apply stripSuffix_noSep.
    pose proof (split_segments_noSep Path.slash (pathname parsed)) as Hall.
    rewrite Forall_forall in Hall. apply Hall, last_In, split_nonempty.
  - intros Hreg. unfold poolDir, getRepoPaths. cbn [RepoPaths.repoPath].
    apply (basename_path_join [Path.join [getBuddyBasePath w None; "pools"]]).
    assumption.
Qed.

(** X8. A URL whose last path segment is exactly [.git] gets the empty
    name, and the pools directory itself is taken as its pool
    directory: when that directory does not exist yet, the repository
    is cloned into it. *)
Theorem addFromGitRepo_empty_name (w : World) (url : string) (parsed : Url) :
  let pools := Path.join [getBuddyBasePath w None; "pools"] in
  url_parse w url = Some parsed ->
  List.last (JsString.split Path.slash (pathname parsed)) "" = ".git" ->
  acquiredName w url None = ""
  /\ poolDir w (acquiredName w url None) = pools
  /\ (glob_scan w "*" pools = None ->
      In (EvGitClone url pools) (trace (addFromGitRepo w url None))).
Proof.
  intros pools P L.
  assert (N : acquiredName w url None = "").
  { unfold acquiredName, extractRepoName. rewrite P, L. reflexivity. }
  assert (D : poolDir w "" = pools).
  { unfold poolDir, getRepoPaths. cbn [RepoPaths.repoPath].
    rewrite (join_nested [getBuddyBasePath w None; "pools"] [""]).
    - unfold Path.join. rewrite filter_app, app_nil_r. reflexivity.
    - cbn [filter]. destruct (String.eqb (getBuddyBasePath w None) ""); discriminate. }
  split; [exact N|]. rewrite N. split; [exact D|].
  intros S. unfold addFromGitRepo. fold (acquiredName w url None). rewrite N.
  fold (poolDir w ""). rewrite D, directoryExists_eq, S. unfold git_clone. run.
  destruct (git_clone_ok w url pools); run; right; right; left; reflexivity.
Qed.

Lemma addFromGitRepo_empty_name_witness :
  let w := Sample.bare in
  let url := "https://host/team/.git" in
  acquiredName w url None = ""
  /\ poolDir w (acquiredName w url None) = "/home/u/.buddy/pools"
  /\ In (EvGitClone url "/home/u/.buddy/pools") (trace (addFromGitRepo w url None)).
Proof.
  intros w url.
  destruct (addFromGitRepo_empty_name w url (mkUrl "https:" "/team/.git")
              eq_refl eq_refl) as (N & D & C).
  split; [exact N|]. split; [exact D|]. exact (C eq_refl).
Defined.

(* ================================================================= *)
(** ** What an import reads, asks and writes *)

(** X9. The guard of [importCommand] looks at the last segment of the
    reference, whatever its case: without [--force] a [readme] is
    refused before any file is looked at. *)
Theorem importCommand_readme_guard (w : World) (source : string)
  (options : ImportOptions.t) :
  JsString.toLowerCase (basename source) = "readme" ->
  ImportOptions.force options = false ->
  importCommand w source options
  = ([EvError "✗ Really? A README file? Maybe try opening it in a web browser like a normal person.";
      EvLog "   If you *really* want to import a README file, use --force"],
     Exit 1%Z).
Proof.
  intros Hleaf Hforce. unfold importCommand. rewrite Hforce. cbn [negb andb].
  assert (F : filename (parseImportSource source) = basename source).
  { unfold parseImportSource, filename, basename, JsString.orElse.
    fold (basename source). unfold basename.
    destruct (List.last (JsString.split Path.slash source) "") eqn:E;
      [|reflexivity].
    unfold basename in Hleaf. rewrite E in Hleaf. discriminate. }
  rewrite F, Hleaf. reflexivity.
Qed.

Lemma importCommand_readme_guard_witness :
  importCommand Sample.textAgent "repo/docs/ReadMe"
                (ImportOptions.mk true false false)
  = ([EvError "✗ Really? A README file? Maybe try opening it in a web browser like a normal person.";
      EvLog "   If you *really* want to import a README file, use --force"],
     Exit 1%Z).
Proof.
  apply (importCommand_readme_guard Sample.textAgent "repo/docs/ReadMe"
           (ImportOptions.mk true false false)); vm_compute; reflexivity.
Defined.

Lemma copyImported_write (w : World) (sourcePath : string)
  (paths : ImportPaths.t) (filename dst content : string) :
  In (EvWrite dst content) (trace (copyImported w sourcePath paths filename)) ->
  dst = ImportPaths.destPath paths
  /\ In (EvReadText sourcePath) (trace (copyImported w sourcePath paths filename))
  /\ file_text w sourcePath = Some content
  /\ (file_exists w dst = true ->
      exists message reply,
        In (EvPrompt message) (trace (copyImported w sourcePath paths filename))
        /\ prompt_reply w message = Some reply /\ affirmative reply).
Proof.
  unfold copyImported, copyFile, promptOverwrite, prompt, Bun_file_exists,
    Bun_file_text, Bun_write.
  destruct (file_exists w (ImportPaths.destPath paths)) eqn:Ex; run.
  - destruct (prompt_reply w _) as [r|] eqn:R; run.
    + destruct (String.eqb (JsString.toLowerCase r) "y"
                || String.eqb (JsString.toLowerCase r) "yes") eqn:Yes; run.
      * assert (Haff : affirmative r).
        { apply orb_true_iff in Yes. destruct Yes as [Y|Y];
            apply String.eqb_eq in Y; [left|right]; assumption. }
        destruct (file_text w sourcePath) as [text|] eqn:T; run.
        -- destruct (write_ok w (ImportPaths.destPath paths)); run;
             intros H; repeat (destruct H as [H|H]; [try discriminate H|]);
             try contradiction; injection H as <- <-;
             (split; [reflexivity|]; split; [do 2 right; left; reflexivity|];
              split; [reflexivity|]; intros _;
              do 2 eexists; split; [right; left; reflexivity|];
              split; [exact R|exact Haff]).
        -- intros H; repeat (destruct H as [H|H]; [discriminate H|]);
             contradiction.
      * intros H; repeat (destruct H as [H|H]; [discriminate H|]); contradiction.
    + intros H; repeat (destruct H as [H|H]; [discriminate H|]); contradiction.
  - destruct (file_text w sourcePath) as [text|] eqn:T; run.
    + destruct (write_ok w (ImportPaths.destPath paths)); run;
        intros H; repeat (destruct H as [H|H]; [try discriminate H|]);
        try contradiction; injection H as <- <-;
        (split; [reflexivity|]; split; [right; left; reflexivity|];
         split; [reflexivity|]; intros Hex; congruence).
    + intros H; repeat (destruct H as [H|H]; [discriminate H|]); contradiction.
Qed.

Lemma getImportPaths_source (w : World) (repoName agentPath filename : string)
  (toClaudeProject : bool) (basePath : option string)
  (paths : ImportPaths.t) (src : string) :
  result (getImportPaths w repoName agentPath filename toClaudeProject basePath)
    = Ret paths ->
  given (ImportPaths.sourcePath paths) = Some src ->
  file_exists w src = true.
Proof.
  unfold getImportPaths.
  set (root := Path.join [getBuddyBasePath w basePath; "pools"; repoName]).
  destruct (load_shape w root) as (t & config & L & _).
  rewrite L. cbn [bind].
  destruct (pathArg_cases (BuddyConfig.agents config)) as [(dir & _ & P)|P];
    rewrite P.
  - rewrite bind_ret_l, findAgentFile_search. cbn [bind ret app result snd].
    intros Hp Hs. injection Hp as <-. cbn [ImportPaths.sourcePath] in Hs.
    apply given_inv, find_some in Hs. apply Hs.
  - cbn [bind throw result snd]. discriminate.
Qed.

Lemma getImportPathsWithConfig_source (w : World) (config : ImportPathConfig.t)
  (paths : ImportPaths.t) (src : string) :
  result (getImportPathsWithConfig w config) = Ret paths ->
  given (ImportPaths.sourcePath paths) = Some src ->
  file_exists w src = true.
Proof.
  unfold getImportPathsWithConfig.
  set (root := Path.join [getBuddyBasePath w (ImportPathConfig.basePath config);
                          "pools"; ImportPathConfig.repoName config]).
  destruct (load_shape w root) as (t & cfg & L & _).
  rewrite L. cbn [bind].
  destruct (pathArg_cases (BuddyConfig.agents cfg)) as [(dir & _ & P)|P];
    rewrite P.
  - rewrite bind_ret_l, findAgentFile_search. cbn [bind ret app result snd].
    intros Hp Hs. injection Hp as <-. cbn [ImportPaths.sourcePath] in Hs.
    apply given_inv, find_some in Hs. apply Hs.
  - cbn [bind throw result snd]. discriminate.
Qed.

Lemma no_write_In (t : list event) (dst content : string) :
  writesTo t = [] -> ~ In (EvWrite dst content) t.
Proof. intros W H. apply writesTo_In in H. rewrite W in H. exact H. Qed.

(** An import that writes is an import that reached the copy of a
    source file that exists. *)
Lemma importCommand_write (w : World) (source : string)
  (options : ImportOptions.t) (dst content : string) :
  In (EvWrite dst content) (trace (importCommand w source options)) ->
  exists before src paths,
    trace (importCommand w source options)
    = before ++ trace (copyImported w src paths (filename (parseImportSource source)))
    /\ In (EvWrite dst content)
          (trace (copyImported w src paths (filename (parseImportSource source))))
    /\ file_exists w src = true.
Proof.
  unfold importCommand.
  set (parsed := parseImportSource source).
  destruct (negb (ImportOptions.force options)
            && String.eqb (JsString.toLowerCase (filename parsed)) "readme").
  { cbn. intros H. repeat (destruct H as [H|H]; [discriminate H|]). contradiction. }
  rewrite bind_ret_l.
  destruct (ImportOptions.claudePersonal options).
  - unfold importToClaudePersonal. rewrite trace_bind.
    set (cfg := ImportPathConfig.mk (repoName parsed) (agentPath parsed)
                                    (filename parsed) false true None).
    destruct (getImportPathsWithConfig_writes w cfg) as [W _].
    pose proof (getImportPathsWithConfig_source w cfg) as S.
    destruct (result (getImportPathsWithConfig w cfg)) as [paths| |].
    + destruct (given (ImportPaths.sourcePath paths)) as [src|] eqn:G.
      * intros H. apply in_app_or in H. destruct H as [H|H];
          [exfalso; exact (no_write_In _ _ _ W H)|].
        exists (trace (getImportPathsWithConfig w cfg)), src, paths.
        split; [reflexivity|]. split; [exact H|]. exact (S paths src eq_refl G).
      * intros H. apply in_app_or in H. destruct H as [H|H];
          [exfalso; exact (no_write_In _ _ _ W H)|].
        exfalso. exact (no_write_In _ _ _ (reportAgentNotFound_writes _ _) H).
    + rewrite app_nil_r. intros H. exfalso. exact (no_write_In _ _ _ W H).
    + rewrite app_nil_r. intros H. exfalso. exact (no_write_In _ _ _ W H).
  - unfold importLocalAgent. rewrite trace_bind.
    destruct (getImportPaths_writes w (repoName parsed) (agentPath parsed)
                (filename parsed) (ImportOptions.claudeProject options) None)
      as [W _].
    pose proof (getImportPaths_source w (repoName parsed) (agentPath parsed)
                  (filename parsed) (ImportOptions.claudeProject options) None) as S.
    destruct (result (getImportPaths w (repoName parsed) (agentPath parsed)
                        (filename parsed) (ImportOptions.claudeProject options) None))
      as [paths| |].
    + destruct (given (ImportPaths.sourcePath paths)) as [src|] eqn:G.
      * intros H. apply in_app_or in H. destruct H as [H|H];
          [exfalso; exact (no_write_In _ _ _ W H)|].
        eexists _, src, paths.
        split; [reflexivity|]. split; [exact H|]. exact (S paths src eq_refl G).
      * intros H. apply in_app_or in H. destruct H as [H|H];
          [exfalso; exact (no_write_In _ _ _ W H)|].
        exfalso. exact (no_write_In _ _ _ (reportAgentNotFound_writes _ _) H).
    + rewrite app_nil_r. intros H. exfalso. exact (no_write_In _ _ _ W H).
    + rewrite app_nil_r. intros H. exfalso. exact (no_write_In _ _ _ W H).
Qed.

(** X10. What an import writes is the text of a file that exists and that
    the run has read. *)
Theorem import_writes_source_text (w : World) (source : string)
  (options : ImportOptions.t) (dst content : string) :
  In (EvWrite dst content) (trace (importCommand w source options)) ->
  exists src,
    file_exists w src = true
    /\ file_text w src = Some content
    /\ In (EvReadText src) (trace (importCommand w source options)).
Proof.
  intros H.
  destruct (importCommand_write w source options dst content H)
    as (before & src & paths & E & Hw & Hex).
  destruct (copyImported_write w src paths _ dst content Hw) as (_ & Hr & Ht & _).
  exists src. split; [exact Hex|]. split; [exact Ht|].
  rewrite E. apply in_or_app. right. exact Hr.
Qed.

(** X11. An import replaces a file that exists only after the user answered
    the prompt with [y] or [yes], in any case. *)
Theorem import_overwrite_needs_consent (w : World) (source : string)
  (options : ImportOptions.t) (dst content : string) :
  In (EvWrite dst content) (trace (importCommand w source options)) ->
  file_exists w dst = true ->
  exists message reply,
    In (EvPrompt message) (trace (importCommand w source options))
    /\ prompt_reply w message = Some reply
    /\ affirmative reply.
Proof.
  intros H Hex.
  destruct (importCommand_write w source options dst content H)
    as (before & src & paths & E & Hw & _).
  destruct (copyImported_write w src paths _ dst content Hw) as (_ & _ & _ & Hc).
  destruct (Hc Hex) as (message & reply & Hp & Hr & Ha).
  exists message, reply. split; [|split; assumption].
  rewrite E. apply in_or_app. right. exact Hp.
Qed.

Lemma import_writes_source_text_witness :
  let w := Sample.textAgent in
  let options := ImportOptions.mk true false false in
  In (EvWrite "/work/.claude/agents/helper.md" "You help.")
     (trace (importCommand w "repo/helper" options))
  /\ exists src,
       file_exists w src = true
       /\ file_text w src = Some "You help."
       /\ In (EvReadText src) (trace (importCommand w "repo/helper" options)).
Proof.
  intros w options.
  assert (H : In (EvWrite "/work/.claude/agents/helper.md" "You help.")
                 (trace (importCommand w "repo/helper" options)))
    by (vm_compute; do 5 right; left; reflexivity).
  split; [exact H|].
  exact (import_writes_source_text w "repo/helper" options _ _ H).
Defined.

Lemma import_overwrite_needs_consent_witness :
  let w := Sample.answering "YES" Sample.importedBefore in
  let options := ImportOptions.mk false false false in
  In (EvWrite "/work/helper.md" "You help.")
     (trace (importCommand w "repo/helper" options))
  /\ file_exists w "/work/helper.md" = true
  /\ exists message reply,
       In (EvPrompt message) (trace (importCommand w "repo/helper" options))
       /\ prompt_reply w message = Some reply
       /\ affirmative reply.
Proof.
  intros w options.
  assert (H : In (EvWrite "/work/helper.md" "You help.")
                 (trace (importCommand w "repo/helper" options)))
    by (vm_compute; do 6 right; left; reflexivity).
  split; [exact H|]. split; [reflexivity|].
  exact (import_overwrite_needs_consent w "repo/helper" options _ _ H eq_refl).
Defined.

Lemma copyIntoPool_write (w : World)
  (sourcePath destPath name missing copied failed dst content : string) :
  In (EvWrite dst content)
     (trace (copyIntoPool w sourcePath destPath name missing copied failed)) ->
  dst = destPath
  /\ file_exists w sourcePath = true
  /\ file_text w sourcePath = Some content
  /\ (file_exists w dst = true ->
      exists message reply,
        In (EvPrompt message)
           (trace (copyIntoPool w sourcePath destPath name missing copied failed))
        /\ prompt_reply w message = Some reply /\ affirmative reply).
Proof.
  unfold copyIntoPool, copyFile, promptOverwrite, prompt, Bun_file_exists,
    Bun_file_text, Bun_write.
  destruct (file_exists w sourcePath) eqn:Src; run.
  2:{ intros H; repeat (destruct H as [H|H]; [discriminate H|]); contradiction. }
  destruct (file_exists w destPath) eqn:Ex; run.
  - destruct (prompt_reply w _) as [r|] eqn:R; run.
    + destruct (String.eqb (JsString.toLowerCase r) "y"
                || String.eqb (JsString.toLowerCase r) "yes") eqn:Yes; run.
      * assert (Haff : affirmative r).
        { apply orb_true_iff in Yes. destruct Yes as [Y|Y];
            apply String.eqb_eq in Y; [left|right]; assumption. }
        destruct (file_text w sourcePath) as [text|] eqn:T; run.
        -- destruct (write_ok w destPath); run;
             intros H; repeat (destruct H as [H|H]; [try discriminate H|]);
             try contradiction; injection H as <- <-;
             (split; [reflexivity|]; split; [reflexivity|];
              split; [reflexivity|]; intros _;
              do 2 eexists; split; [do 2 right; left; reflexivity|];
              split; [exact R|exact Haff]).
        -- intros H; repeat (destruct H as [H|H]; [discriminate H|]);
             contradiction.
      * intros H; repeat (destruct H as [H|H]; [discriminate H|]); contradiction.
    + intros H; repeat (destruct H as [H|H]; [discriminate H|]); contradiction.
  - destruct (file_text w sourcePath) as [text|] eqn:T; run.
    + destruct (write_ok w destPath); run;
        intros H; repeat (destruct H as [H|H]; [try discriminate H|]);
        try contradiction; injection H as <- <-;
        (split; [reflexivity|]; split; [reflexivity|];
         split; [reflexivity|]; intros Hex; congruence).
    + intros H; repeat (destruct H as [H|H]; [discriminate H|]); contradiction.
Qed.

(** X12. The four copies into the local pool (project agent, personal
    agent, command, shared context) write only the text of a source
    file that exists, and replace a file of the pool only after the
    user answered [y] or [yes]. *)
Theorem add_copy_is_guarded (w : World) (name dst content : string)
  (command : string -> M unit) :
  In command [addClaudeProjectAgent w; addClaudePersonalAgent w;
              addClaudeCommand w; addClaudeShared w] ->
  In (EvWrite dst content) (trace (command name)) ->
  (exists src, file_exists w src = true /\ file_text w src = Some content)
  /\ (file_exists w dst = true ->
      exists message reply,
        In (EvPrompt message) (trace (command name))
        /\ prompt_reply w message = Some reply /\ affirmative reply).
Proof.
  intros Hc Hw.
  destruct Hc as [<-|[<-|[<-|[<-|[]]]]];
    unfold addClaudeProjectAgent, addClaudePersonalAgent, addClaudeCommand,
      addClaudeShared in *;
    destruct (copyIntoPool_write _ _ _ _ _ _ _ _ _ Hw) as (_ & He & Ht & Hp);
    (split; [eexists; split; [exact He|exact Ht]|exact Hp]).
Qed.

Lemma add_copy_is_guarded_witness :
  let w := Sample.answering "y"
             (Sample.machine [("/work/.claude/commands/review.md", "Review it.");
                              ("/home/u/.buddy/pools/local/commands/review.md", "Old.")]
                             [] [] []) in
  In (EvWrite "/home/u/.buddy/pools/local/commands/review.md" "Review it.")
     (trace (addClaudeCommand w "review"))
  /\ (exists src, file_exists w src = true /\ file_text w src = Some "Review it.")
  /\ exists message reply,
       In (EvPrompt message) (trace (addClaudeCommand w "review"))
       /\ prompt_reply w message = Some reply /\ affirmative reply.
Proof.
  intros w.
  assert (H : In (EvWrite "/home/u/.buddy/pools/local/commands/review.md" "Review it.")
                 (trace (addClaudeCommand w "review")))
    by (vm_compute; do 4 right; left; reflexivity).
  split; [exact H|].
  destruct (add_copy_is_guarded w "review" _ _ (addClaudeCommand w)
              (or_intror (or_intror (or_introl eq_refl))) H) as [Hs Hp].
  split; [exact Hs|]. apply Hp. reflexivity.
Defined.

(* ================================================================= *)
(** ** Copies into the local pool *)

(** X13. Adding from a [file:] URL copies the text of the file, unchanged,
    into the root of the local pool under the last segment of its
    path, without looking whether a file of that name is there and
    without asking. *)
Theorem addFromLocalFile_copies (w : World) (url content : string) :
  let filePath := JsString.removeFirst "file://" url in
  let target := Path.join [localPool w;
                           JsString.orElse (basename filePath) "local-agent.md"] in
  file_text w filePath = Some content ->
  exists last,
    trace (addFromLocalFile w url)
    = [EvReadText filePath; EvWrite target content; last]
    /\ (write_ok w target = true -> result (addFromLocalFile w url) = Ret tt)
    /\ (write_ok w target = false -> result (addFromLocalFile w url) = Exit 1).
Proof.
  intros filePath target T.
  unfold addFromLocalFile, Bun_file_text, Bun_write, getAddPaths.
  cbn [AddPaths.localAgentsPath]. fold (localPool w). fold filePath.
  fold (basename filePath). fold target. rewrite T. run.
  destruct (write_ok w target); run; eexists;
    (split; [reflexivity|]; split; [reflexivity || discriminate|];
     reflexivity || discriminate).
Qed.

Lemma addFromLocalFile_copies_witness :
  let w := Sample.machine [("/tmp/notes/agent.md", "New.");
                           ("/home/u/.buddy/pools/local/agent.md", "Old.")] [] [] [] in
  file_exists w "/home/u/.buddy/pools/local/agent.md" = true
  /\ exists last,
       trace (addFromLocalFile w "file:///tmp/notes/agent.md")
       = [EvReadText "/tmp/notes/agent.md";
          EvWrite "/home/u/.buddy/pools/local/agent.md" "New."; last]
       /\ result (addFromLocalFile w "file:///tmp/notes/agent.md") = Ret tt.
Proof.
  intros w. split; [reflexivity|].
  destruct (addFromLocalFile_copies w "file:///tmp/notes/agent.md" "New." eq_refl)
    as (last & Ht & Hok & _).
  exists last. split; [|exact (Hok eq_refl)].
  vm_compute in Ht. vm_compute. exact Ht.
Defined.

(** X14. A configuration whose [agents] is not a string stops an import
    with an error that nothing catches, before any candidate is looked
    at; one whose [context] is not a string makes the tool command
    report a failure and end with status 1. *)
Theorem misshapen_directory_blocks (w : World) (source : string)
  (toClaudeProject : bool) (t : list event) (config : BuddyConfig.t) :
  let parsed := parseImportSource source in
  let root := Path.join [getBuddyBasePath w None; "pools"; repoName parsed] in
  loadBuddyConfigFrom w root = (t, Ret config) ->
  ((forall s, BuddyConfig.agents config <> JStr s) ->
   importLocalAgent w (repoName parsed) (agentPath parsed) (filename parsed)
                    toClaudeProject
   = (t, Throw (InvalidPathArg (BuddyConfig.agents config)))
   /\ exitStatus (importLocalAgent w (repoName parsed) (agentPath parsed)
                                   (filename parsed) toClaudeProject) = 1%Z)
  /\ ((forall s, BuddyConfig.context config <> JStr s) ->
      repoName parsed <> "local" ->
      toolCommand w source
      = (t ++ [EvError (JsString.stringifyField "error"
                 ("Failed to read context file: "
                  +++ render_error w (InvalidPathArg (BuddyConfig.context config))))],
         Exit 1%Z)).
Proof.
  intros parsed root L. split.
  - intros Hns.
    assert (E : importLocalAgent w (repoName parsed) (agentPath parsed)
                  (filename parsed) toClaudeProject
                = (t, Throw (InvalidPathArg (BuddyConfig.agents config)))).
    { unfold importLocalAgent, getImportPaths. fold root. rewrite L. cbn [bind].
      destruct (pathArg_cases (BuddyConfig.agents config)) as [(s & Hs & _)|P].
      - exfalso. exact (Hns s Hs).
      - rewrite P. cbn [bind throw app]. rewrite app_nil_r. reflexivity. }
    rewrite E. split; reflexivity.
  - intros Hns Hrepo. unfold toolCommand. fold parsed.
    apply String.eqb_neq in Hrepo. rewrite Hrepo. fold root.
    rewrite L. cbn [bind].
    destruct (pathArg_cases (BuddyConfig.context config)) as [(s & Hs & _)|P].
    + exfalso. exact (Hns s Hs).
    + rewrite P. unfold console_error, emit, process_exit.
      cbn [bind throw try_catch app]. rewrite !app_nil_r. reflexivity.
Qed.

Lemma misshapen_directory_blocks_witness :
  let file := "/home/u/.buddy/pools/repo/.buddy/config.json" in
  let v := JObj [("agents", JNum "42"); ("extension", JNull)] in
  let w := Sample.machine [(file, Sample.misshapenConfigText)] [(file, v)] [] [] in
  importLocalAgent w "repo" "helper" "helper" false
  = ([EvExists file; EvReadJson file], Throw (InvalidPathArg (JNum "42")))
  /\ exitStatus (importLocalAgent w "repo" "helper" "helper" false) = 1%Z.
Proof.
  intros file v w.
  destruct (misshapen_directory_blocks w "repo/helper" false
              [EvExists file; EvReadJson file]
              (BuddyConfig.mk (JNum "42") (JStr "commands") (JStr "shared")
                              (Some JNull) None))
    as [H _]; [vm_compute; reflexivity|].
  apply H. intros s. discriminate.
Defined.

(* ================================================================= *)
(** ** The tool command *)

Lemma quiet_app (a b : list event) : quiet a -> quiet b -> quiet (a ++ b).
Proof.
  intros [Pa Ma] [Pb Mb]. split.
  - unfold prints in *. rewrite flat_map_app, Pa, Pb. reflexivity.
  - unfold noMutation in *. rewrite forallb_app, Ma, Mb. reflexivity.
Qed.

Lemma quiet_exists (l : list string) : quiet (List.map EvExists l).
Proof. induction l; split; try reflexivity; apply IHl. Qed.

Lemma load_quiet (w : World) (root : string) :
  exists t config, loadBuddyConfigFrom w root = (t, Ret config) /\ quiet t.
Proof.
  destruct (file_exists w (configPath root)) eqn:H.
  - destruct (file_json w (configPath root)) as [v|] eqn:J.
    + rewrite (load_parsed _ _ _ H J). do 2 eexists. repeat split.
    + rewrite (load_unparsable _ _ H J). do 2 eexists. repeat split.
  - rewrite (load_absent _ _ H). do 2 eexists. repeat split.
Qed.

Lemma candidates_nonempty (base path : string) (ext : option string) (c : string) :
  In c (Spec.candidates base path ext) -> c <> "".
Proof.
  destruct ext; simpl; intros H;
    repeat (destruct H as [<-|H]; [apply append_nonempty_r; discriminate|]);
    contradiction.
Qed.

Lemma given_find_candidate (present : string -> bool) (base path : string)
  (ext : option string) :
  given (find present (Spec.candidates base path ext))
  = find present (Spec.candidates base path ext).
Proof.
  destruct (find present (Spec.candidates base path ext)) as [c|] eqn:F;
    [|reflexivity].
  apply find_some in F. destruct F as [Hin _].
  apply candidates_nonempty, String.eqb_neq in Hin.
  cbn [given]. rewrite Hin. reflexivity.
Qed.

Lemma quiet_one (e : event) :
  printed e = None -> mutates e = false -> quiet [e].
Proof.
  intros P Mu. split.
  - unfold prints. cbn [flat_map]. rewrite P. reflexivity.
  - unfold noMutation. cbn [forallb]. rewrite Mu. reflexivity.
Qed.

(** The search step of [toolCommand] and its three ends. *)
Lemma tool_search (w : World) (contextPath agentPath : string)
  (extension : jsval) (nf : string) :
  exists tried,
    quiet tried /\
    let m := (filePath <- findAgentFile w contextPath agentPath extension ;;
              match given filePath with
              | None =>
                  console_error (JsString.stringifyField "error" nf) ;;;
                  process_exit 1
              | Some file =>
                  content <- Bun_file_text w file ;;
                  console_log (JsString.stringifyField "content" content)
              end) in
    (exists file content,
        file_text w file = Some content /\
        m = (tried ++ [EvReadText file;
                       EvLog (JsString.stringifyField "content" content)], Ret tt))
    \/ m = (tried ++ [EvError (JsString.stringifyField "error" nf)], Exit 1%Z)
    \/ (exists file, m = (tried ++ [EvReadText file], Throw (ReadFailure file))).
Proof.
  exists (List.map EvExists
            (fst (Spec.search (file_exists w)
                    (Spec.candidates contextPath agentPath
                                     (option_map Js.toStr extension))))).
  split; [apply quiet_exists|]. cbv zeta.
  rewrite findAgentFile_search. cbn [bind].
  rewrite given_find_candidate.
  destruct (find (file_exists w) _) as [file|].
  - unfold Bun_file_text, console_log, emit.
    destruct (file_text w file) as [content|] eqn:T; run.
    + left. exists file, content. split; [assumption|reflexivity].
    + right. right. exists file. reflexivity.
  - unfold console_error, emit, process_exit. run.
    right. left. reflexivity.
Qed.

(** X15. Whatever happens, the tool command prints exactly one line, a JSON
    record, as the last thing it does: the content on the standard
    output when it returns normally, an error on the error stream when
    it ends with status 1. It changes no file and runs no git. *)
Theorem toolCommand_single_record (w : World) (source : string) :
  exists before line,
    quiet before
    /\ ((toolCommand w source = (before ++ [EvLog line], Ret tt)
         /\ exists content, line = JsString.stringifyField "content" content)
        \/ (toolCommand w source = (before ++ [EvError line], Exit 1%Z)
            /\ exists message, line = JsString.stringifyField "error" message)).
Proof.
  assert (Finish : forall (t : list event) (m : M unit) tried nf,
    quiet t -> quiet tried ->
    ((exists file content,
        file_text w file = Some content /\
        m = (tried ++ [EvReadText file;
                       EvLog (JsString.stringifyField "content" content)], Ret tt))
     \/ m = (tried ++ [EvError (JsString.stringifyField "error" nf)], Exit 1%Z)
     \/ (exists file, m = (tried ++ [EvReadText file], Throw (ReadFailure file)))) ->
    exists before line,
      quiet before
      /\ ((try_catch (let (t', o) := m in (t ++ t', o))
             (fun error =>
                console_error (JsString.stringifyField "error"
                  ("Failed to read context file: " +++ render_error w error)) ;;;
                process_exit 1)
           = (before ++ [EvLog line], Ret tt)
           /\ exists content, line = JsString.stringifyField "content" content)
          \/ (try_catch (let (t', o) := m in (t ++ t', o))
                (fun error =>
                   console_error (JsString.stringifyField "error"
                     ("Failed to read context file: " +++ render_error w error)) ;;;
                   process_exit 1)
              = (before ++ [EvError line], Exit 1%Z)
              /\ exists message, line = JsString.stringifyField "error" message))).
  { intros t m tried nf Qt Qtried [(file & content & _ & ->)|[->|(file & ->)]];
      unfold console_error, emit, process_exit; run.
    - eexists ((t ++ tried) ++ [EvReadText file]), _. split.
      + apply quiet_app; [apply quiet_app; assumption|apply quiet_one; reflexivity].
      + left. split; [rewrite <- !app_assoc; reflexivity|eexists; reflexivity].
    - eexists (t ++ tried), _. split; [apply quiet_app; assumption|].
      right. split; [rewrite <- !app_assoc; reflexivity|eexists; reflexivity].
    - eexists ((t ++ tried) ++ [EvReadText file]), _. split.
      + apply quiet_app; [apply quiet_app; assumption|apply quiet_one; reflexivity].
      + right. split; [rewrite <- !app_assoc; reflexivity|eexists; reflexivity]. }
  unfold toolCommand. set (parsed := parseImportSource source).
  destruct (String.eqb (repoName parsed) "local").
  - change (bind (ret ?x) ?f) with (bind ([], Ret x) f). cbn [bind fst snd].
    lazy beta iota.
    destruct (tool_search w (Path.join [getBuddyBasePath w None; "pools"; "local"; "shared"])
                (agentPath parsed) undefined
                ("Context file not found. Tried: " +++ agentPath parsed +++ ".md, "
                 +++ agentPath parsed +++ ".txt, " +++ agentPath parsed))
      as (tried & Q & S).
    exact (Finish [] _ tried _ (conj eq_refl eq_refl) Q S).
  - set (root := Path.join [getBuddyBasePath w None; "pools"; repoName parsed]).
    destruct (load_quiet w root) as (t & config & L & Qt).
    rewrite L. cbn [bind].
    destruct (pathArg_cases (BuddyConfig.context config)) as [(dir & _ & P)|P];
      rewrite P.
    + cbn [bind ret fst snd]. rewrite app_nil_r.
      destruct (BuddyConfig.extension config) as [ext|]; lazy beta iota.
      * destruct (tool_search w (Path.join [root; dir]) (agentPath parsed) (Some ext)
                    ("Context file not found. Tried: " +++ agentPath parsed +++ "."
                     +++ Js.toStr ext +++ ", " +++ agentPath parsed))
          as (tried & Q & S).
        exact (Finish t _ tried _ Qt Q S).
      * destruct (tool_search w (Path.join [root; dir]) (agentPath parsed) None
                    ("Context file not found. Tried: " +++ agentPath parsed +++ ".md, "
                     +++ agentPath parsed +++ ".txt, " +++ agentPath parsed))
          as (tried & Q & S).
        exact (Finish t _ tried _ Qt Q S).
    + unfold console_error, emit, process_exit.
      cbn [bind throw try_catch app]. rewrite !app_nil_r.
      exists t. eexists. split; [assumption|].
      right. split; [reflexivity|eexists; reflexivity].
Qed.

(* ================================================================= *)
(** ** Listing *)

(** X16. The tool command on a reference into the local pool prints the
    text of the first candidate that exists below [shared]. *)
Theorem toolCommand_local_content (w : World) (rest file content : string) :
  let cands := Spec.candidates (Path.join [localPool w; "shared"]) rest None in
  List.find (file_exists w) cands = Some file ->
  file_text w file = Some content ->
  toolCommand w ("local/" +++ rest)
  = (List.map EvExists (fst (Spec.search (file_exists w) cands))
     ++ [EvReadText file; EvLog (JsString.stringifyField "content" content)],
     Ret tt).
Proof.
  intros cands F T. unfold toolCommand.
  destruct (parse_local rest) as [Hr Ha]. rewrite Hr, Ha.
  cbn [String.eqb Ascii.eqb Bool.eqb]. rewrite bind_ret_l. cbn [fst snd].
  rewrite local_sub, findAgentFile_search. cbn [option_map undefined bind].
  rewrite given_find_candidate. fold cands. rewrite F.
  unfold Bun_file_text, console_log, emit. rewrite T. run. reflexivity.
Qed.

Lemma toolCommand_local_content_witness :
  let w := Sample.machine
             [("/home/u/.buddy/pools/local/shared/claude-init.txt", "Write tests.")]
             [] [] [] in
  toolCommand w "local/claude-init"
  = ([EvExists "/home/u/.buddy/pools/local/shared/claude-init.md";
      EvExists "/home/u/.buddy/pools/local/shared/claude-init.txt";
      EvReadText "/home/u/.buddy/pools/local/shared/claude-init.txt";
      EvLog (JsString.stringifyField "content" "Write tests.")], Ret tt).
Proof.
  intros w.
  pose proof (toolCommand_local_content w "claude-init"
                "/home/u/.buddy/pools/local/shared/claude-init.txt" "Write tests.") as H.
  vm_compute in H. vm_compute. apply H; reflexivity.
Defined.

(** X17. A pool other than [local] whose directory cannot be listed is
    reported as not found, with status 1. *)
Theorem listCommand_unknown_pool (w : World) (namespace : string)
  (options : ListOptions.t) :
  let dir := Path.join [getBuddyBasePath w None; "pools"; namespace] in
  namespace <> "local" ->
  glob_scan w "*" dir = None ->
  listCommand w namespace options
  = ([EvScan "*" dir; EvError ("✗ Pool '" +++ namespace +++ "' not found")],
     Exit 1%Z).
Proof.
  intros dir Hn S. unfold listCommand, listTarget.
  apply String.eqb_neq in Hn. rewrite Hn. fold dir.
  rewrite directoryExists_eq, S. reflexivity.
Qed.

Lemma listCommand_unknown_pool_witness :
  listCommand Sample.bare "team" (ListOptions.mk true false)
  = ([EvScan "*" "/home/u/.buddy/pools/team"; EvError "✗ Pool 'team' not found"],
     Exit 1%Z).
Proof.
  apply (listCommand_unknown_pool Sample.bare "team" (ListOptions.mk true false));
    [discriminate|reflexivity].
Defined.

(** X18. When the directory to list is missing, or holds no [.md] and no
    [.txt] file, [listCommand] says that nothing was found and returns
    normally. *)
Theorem listCommand_nothing_found (w : World) (namespace : string)
  (options : ListOptions.t) (t : list event) (listPath type : string) :
  listTarget w namespace options = (t, Ret (listPath, type)) ->
  glob_scan w "*" listPath = None
  \/ (glob_scan w "*" listPath <> None
      /\ glob_scan w "**/*.md" listPath = Some []
      /\ glob_scan w "**/*.txt" listPath = Some []) ->
  exists scans,
    listCommand w namespace options
    = (t ++ scans ++ [EvLog ("No " +++ type +++ " found in " +++ namespace)], Ret tt)
    /\ quiet scans
    /\ exitStatus (listCommand w namespace options) = 0%Z.
Proof.
  intros L H.
  assert (E : exists scans,
    listCommand w namespace options
    = (t ++ scans ++ [EvLog ("No " +++ type +++ " found in " +++ namespace)], Ret tt)
    /\ quiet scans).
  { unfold listCommand. rewrite L. cbn [bind fst snd].
    rewrite directoryExists_eq. unfold Glob_scan, console_log, emit.
    destruct H as [S|(S & Md & Txt)].
    - rewrite S. run. exists [EvScan "*" listPath]. split; [reflexivity|].
      split; reflexivity.
    - destruct (glob_scan w "*" listPath); [|contradiction].
      rewrite Md, Txt. run.
      exists [EvScan "*" listPath; EvScan "**/*.md" listPath; EvScan "**/*.txt" listPath].
      split; [reflexivity|]. split; reflexivity. }
  destruct E as (scans & E & Q). exists scans.
  split; [exact E|]. split; [exact Q|]. rewrite E. reflexivity.
Qed.

Lemma listCommand_nothing_found_witness :
  exists scans,
    listCommand Sample.bare "local" (ListOptions.mk false true)
    = ([] ++ scans ++ [EvLog "No shared context found in local"], Ret tt)
    /\ quiet scans
    /\ exitStatus (listCommand Sample.bare "local" (ListOptions.mk false true)) = 0%Z.
Proof.
  apply (listCommand_nothing_found Sample.bare "local" (ListOptions.mk false true) []
           "/home/u/.buddy/pools/local/shared" "shared context");
    [vm_compute; reflexivity|left; reflexivity].
Defined.

Lemma insertSorted_perm (x : string) (l : list string) :
  Permutation (JsString.insertSorted x l) (x :: l).
Proof.
  induction l as [|y l IH]; cbn [JsString.insertSorted]; [reflexivity|].
  destruct (String.leb x y); [reflexivity|].
  rewrite IH. apply perm_swap.
Qed.

Lemma sort_perm (l : list string) : Permutation (JsString.sort l) l.
Proof.
  induction l as [|x l IH]; [reflexivity|].
  unfold JsString.sort in *. cbn [fold_right].
  rewrite insertSorted_perm, IH. reflexivity.
Qed.

Lemma insertSorted_hd (x y : string) (l : list string) :
  lebP y x -> HdRel lebP y l -> HdRel lebP y (JsString.insertSorted x l).
Proof.
  intros Hyx H. destruct l as [|z l]; cbn [JsString.insertSorted].
  - constructor. assumption.
  - destruct (String.leb x z); constructor; [assumption|].
    inversion H; assumption.
Qed.

Lemma insertSorted_sorted (x : string) (l : list string) :
  Sorted lebP l -> Sorted lebP (JsString.insertSorted x l).
Proof.
  induction l as [|y l IH]; intros H; cbn [JsString.insertSorted].
  - repeat constructor.
  - destruct (String.leb x y) eqn:E.
    + constructor; [assumption|]. constructor. exact E.
    + inversion H; subst. constructor; [apply IH; assumption|].
      apply insertSorted_hd; [|assumption].
      destruct (String.leb_total x y) as [T|T]; [congruence|exact T].
Qed.

Lemma sort_sorted (l : list string) : Sorted lebP (JsString.sort l).
Proof.
  induction l as [|x l IH]; [constructor|].
  unfold JsString.sort in *. cbn [fold_right].
  apply insertSorted_sorted. assumption.
Qed.

Lemma logEach_eq (items : list string) :
  logEach items = (List.map (fun item => EvLog ("  " +++ item)) items, Ret tt).
Proof.
  induction items as [|x items IH]; [reflexivity|].
  cbn [logEach map]. rewrite IH. reflexivity.
Qed.

(** X19. [listCommand] prints, after a heading, one line for every [.md]
    and [.txt] file found, the extension removed, in ascending order;
    a name that two files share is printed twice. *)
Theorem listCommand_prints_sorted (w : World) (namespace : string)
  (options : ListOptions.t) (t : list event) (listPath type : string)
  (entries mdFiles txtFiles : list string) :
  listTarget w namespace options = (t, Ret (listPath, type)) ->
  glob_scan w "*" listPath = Some entries ->
  glob_scan w "**/*.md" listPath = Some mdFiles ->
  glob_scan w "**/*.txt" listPath = Some txtFiles ->
  mdFiles ++ txtFiles <> [] ->
  exists items,
    listCommand w namespace options
    = (t ++ [EvScan "*" listPath; EvScan "**/*.md" listPath;
             EvScan "**/*.txt" listPath;
             EvLog (type +++ " in " +++ namespace +++ ":")]
         ++ List.map (fun item => EvLog ("  " +++ item)) items,
       Ret tt)
    /\ Sorted lebP items
    /\ Permutation items (List.map stripListedExtension (mdFiles ++ txtFiles))
    /\ List.length items = List.length mdFiles + List.length txtFiles.
Proof.
  intros L S Md Txt Hne.
  exists (JsString.sort (List.map stripListedExtension (mdFiles ++ txtFiles))).
  split; [|split; [apply sort_sorted|split; [apply sort_perm|]]].
  - unfold listCommand. rewrite L. cbn [bind fst snd].
    rewrite directoryExists_eq, S. unfold Glob_scan, console_log, emit.
    rewrite Md, Txt. run.
    destruct (mdFiles ++ txtFiles) as [|f fs] eqn:E; [contradiction|].
    rewrite logEach_eq. run. reflexivity.
  - rewrite (Permutation_length (sort_perm _)), length_map, length_app.
    reflexivity.
Qed.

Lemma listCommand_prints_sorted_witness :
  let w :=
    {| homedir := "/home/u"; cwd := "/work";
       file_exists := fun _ => false; file_json := fun _ => None;
       file_text := fun _ => None; write_ok := fun _ => true;
       glob_scan := fun pattern _ =>
         if String.eqb pattern "**/*.md" then Some ["review.md"; "build.md"]
         else if String.eqb pattern "**/*.txt" then Some ["build.txt"]
         else Some [];
       prompt_reply := fun _ => None; git_origin := fun _ => None;
       git_pull_ok := fun _ => true; git_clone_ok := fun _ _ => true;
       url_parse := fun _ => None; render_error := Sample.describe |} in
  exists items,
    listCommand w "local" (ListOptions.mk true false)
    = ([] ++ [EvScan "*" "/home/u/.buddy/pools/local/commands";
              EvScan "**/*.md" "/home/u/.buddy/pools/local/commands";
              EvScan "**/*.txt" "/home/u/.buddy/pools/local/commands";
              EvLog ("commands" +++ " in " +++ "local" +++ ":")]
          ++ List.map (fun item => EvLog ("  " +++ item)) items,
       Ret tt)
    /\ Sorted lebP items
    /\ Permutation items
         (List.map stripListedExtension (["review.md"; "build.md"] ++ ["build.txt"]))
    /\ List.length items = 2 + 1.
Proof.
  intros w.
  apply (listCommand_prints_sorted w "local" (ListOptions.mk true false) []
           "/home/u/.buddy/pools/local/commands" "commands" []
           ["review.md"; "build.md"] ["build.txt"]);
    try (vm_compute; reflexivity). discriminate.
Defined.

(* ================================================================= *)
(** ** Names that are listed, pools that are initialized *)

Lemma eqb_length (s t : string) :
  String.eqb s t = true -> String.length s = String.length t.
Proof. intros H. apply String.eqb_eq in H. subst. reflexivity. Qed.

Lemma append_length (a b : string) :
  String.length (a +++ b) = String.length a + String.length b.
Proof. induction a; simpl; congruence. Qed.

Lemma eqb_longer_false (a : ascii) (x y suf : string) :
  String.length y = String.length suf ->
  String.eqb (String a (x +++ y)) suf = false.
Proof.
  intros Hl. destruct (String.eqb (String a (x +++ y)) suf) eqn:E; [|reflexivity].
  apply eqb_length in E. cbn [String.length] in E.
  rewrite append_length in E. lia.
Qed.

Lemma endsWith_same_length (x y suf : string) :
  String.length y = String.length suf ->
  JsString.endsWith (x +++ y) suf = String.eqb y suf.
Proof.
  intros Hl. induction x as [|a x IH].
  - cbn [String.append]. destruct y as [|b y]; cbn [JsString.endsWith].
    + destruct (String.eqb "" suf); reflexivity.
    + destruct (String.eqb (String b y) suf) eqn:E; [reflexivity|].
      destruct suf as [|c suf]; [discriminate Hl|].
      cbn [String.length] in Hl.
      assert (F : forall s, String.length s < String.length (String c suf) ->
                            JsString.endsWith s (String c suf) = false).
      { clear. induction s as [|d s IHs]; intros H; cbn [JsString.endsWith].
        - reflexivity.
        - destruct (String.eqb (String d s) (String c suf)) eqn:E.
          + apply eqb_length in E. lia.
          + apply IHs. cbn [String.length] in *. lia. }
      apply F. cbn [String.length]. lia.
  - cbn [String.append JsString.endsWith].
    rewrite (eqb_longer_false a x y suf Hl). exact IH.
Qed.

Lemma stripSuffix_same_length (x y suf : string) :
  String.length y = String.length suf ->
  JsString.stripSuffix suf (x +++ y)
  = if String.eqb y suf then x else x +++ y.
Proof.
  intros Hl. induction x as [|a x IH].
  - cbn [String.append]. destruct (String.eqb y suf) eqn:E.
    + destruct y; cbn [JsString.stripSuffix]; rewrite E; reflexivity.
    + assert (F : forall s, String.length s <= String.length suf ->
                            String.eqb s suf = false ->
                            JsString.stripSuffix suf s = s).
      { clear. induction s as [|d s IHs]; intros H Hn; cbn [JsString.stripSuffix].
        - rewrite Hn. reflexivity.
        - rewrite Hn. f_equal. apply IHs; [cbn [String.length] in H; lia|].
          destruct (String.eqb s suf) eqn:E; [|reflexivity].
          apply eqb_length in E. cbn [String.length] in H. lia. }
      apply F; [lia|assumption].
  - cbn [String.append JsString.stripSuffix].
    rewrite (eqb_longer_false a x y suf Hl), IH.
    destruct (String.eqb y suf); reflexivity.
Qed.

(** X20. The name [listCommand] prints for a file is the file name without
    its [.md] or [.txt], and [findAgentFile] resolves that name again:
    to the [.md] file when it exists, which hides a [.txt] file of the
    same name, and to the [.txt] file otherwise. *)
Theorem listed_name_resolves (w : World) (base name : string) :
  stripListedExtension (name +++ ".md") = name
  /\ stripListedExtension (name +++ ".txt") = name
  /\ (file_exists w (base +++ "/" +++ name +++ ".md") = true ->
      result (findAgentFile w base name undefined)
      = Ret (Some (base +++ "/" +++ name +++ ".md")))
  /\ (file_exists w (base +++ "/" +++ name +++ ".md") = false ->
      file_exists w (base +++ "/" +++ name +++ ".txt") = true ->
      result (findAgentFile w base name undefined)
      = Ret (Some (base +++ "/" +++ name +++ ".txt"))).
Proof.
  split; [|split; [|split]].
  - unfold stripListedExtension.
    rewrite (endsWith_same_length name ".md" ".md" eq_refl).
    rewrite (stripSuffix_same_length name ".md" ".md" eq_refl). reflexivity.
  - unfold stripListedExtension.
    replace (name +++ ".txt") with ((name +++ ".") +++ "txt")
      by (rewrite append_assoc; reflexivity).
    rewrite (endsWith_same_length (name +++ ".") "txt" ".md" eq_refl).
    cbn [String.eqb Ascii.eqb Bool.eqb]. cbv iota.
    rewrite append_assoc. cbn [String.append].
    rewrite (stripSuffix_same_length name ".txt" ".txt" eq_refl). reflexivity.
  - intros H. unfold findAgentFile, Bun_file_exists, undefined. run.
    rewrite H. reflexivity.
  - intros Hmd Htxt. unfold findAgentFile, Bun_file_exists, undefined. run.
    rewrite Hmd. run. rewrite Htxt. reflexivity.
Qed.

(** X21. A pool that is initialized is left as it is; a pool that is not
    gets its marker and a [.gitkeep] in [commands] and in [shared], in
    this order, below [pools/local] of the chosen base. *)
Theorem initCommand_writes (w : World) (pathname : option string) :
  let root := Path.join [getBuddyBasePath w pathname; "pools"; "local"] in
  let marker := Path.join [root; ".buddy-initialized"] in
  (file_exists w marker = true ->
   initCommand w pathname
   = ([EvExists marker; EvLog ("✓ Pool directory already exists at: " +++ root)],
      Ret tt))
  /\ (file_exists w marker = false ->
      (forall p, write_ok w p = true) ->
      initCommand w pathname
      = ([EvExists marker;
          EvWrite marker "";
          EvWrite (Path.join [Path.join [root; "commands"]; ".gitkeep"]) "";
          EvWrite (Path.join [Path.join [root; "shared"]; ".gitkeep"]) "";
          EvLog ("✓ Initialized pool at: " +++ root)], Ret tt))
  /\ (forall dst, In dst (writesTo (trace (initCommand w pathname))) ->
      file_exists w marker = false).
Proof.
  intros root marker. unfold initCommand. fold root. fold marker.
  unfold Bun_file_exists, Bun_write, console_log, console_error, emit, process_exit.
  split; [|split].
  - intros H. rewrite H. reflexivity.
  - intros H Hw. rewrite H. run. rewrite !Hw. reflexivity.
  - intros dst. destruct (file_exists w marker); [|reflexivity].
    cbn. intros [].
Qed.

(* ================================================================= *)
(** ** URLs that are taken for the same *)

Lemma stripSuffix_not_ending (suf s : string) :
  JsString.endsWith s suf = false -> JsString.stripSuffix suf s = s.
Proof.
  induction s as [|a r IH]; cbn [JsString.endsWith JsString.stripSuffix].
  - destruct (String.eqb "" suf); [discriminate|reflexivity].
  - destruct (String.eqb (String a r) suf); [discriminate|].
    intros H. rewrite IH by assumption. reflexivity.
Qed.

Lemma toLowerCase_app (a b : string) :
  JsString.toLowerCase (a +++ b)
  = JsString.toLowerCase a +++ JsString.toLowerCase b.
Proof. induction a; simpl; congruence. Qed.

Lemma lowerChar_idempotent (a : ascii) :
  JsString.lowerChar (JsString.lowerChar a) = JsString.lowerChar a.
Proof. destruct a as [[] [] [] [] [] [] [] []]; vm_compute; reflexivity. Qed.

Lemma toLowerCase_idempotent (s : string) :
  JsString.toLowerCase (JsString.toLowerCase s) = JsString.toLowerCase s.
Proof.
  induction s as [|a s IH]; [reflexivity|].
  cbn [JsString.toLowerCase]. rewrite lowerChar_idempotent, IH. reflexivity.
Qed.

(** X22. The URLs that the comparison of [addFromGitRepo] identifies: a URL
    and the URL with [.git] added; when no [.git] ends them, a URL and
    any URL that differs from it by the case of its letters. *)
Theorem normalizeUrl_variants (u v : string) :
  normalizeUrl (u +++ ".git") = JsString.toLowerCase u
  /\ (JsString.endsWith u ".git" = false ->
      normalizeUrl (u +++ ".git") = normalizeUrl u)
  /\ (JsString.endsWith u ".git" = false ->
      JsString.endsWith v ".git" = false ->
      JsString.toLowerCase u = JsString.toLowerCase v ->
      normalizeUrl u = normalizeUrl v).
Proof.
  assert (A : normalizeUrl (u +++ ".git") = JsString.toLowerCase u).
  { unfold normalizeUrl.
    rewrite (stripSuffix_same_length u ".git" ".git" eq_refl). reflexivity. }
  split; [exact A|]. split.
  - intros H. rewrite A. unfold normalizeUrl.
    rewrite (stripSuffix_not_ending _ _ H). reflexivity.
  - intros Hu Hv E. unfold normalizeUrl.
    rewrite (stripSuffix_not_ending _ _ Hu), (stripSuffix_not_ending _ _ Hv).
    exact E.
Qed.

(** X23. The suffix is recognized in lower case only: a request for
    [u.GIT] in a clone of [u.git] is reported as a collision. *)
Theorem upper_case_suffix_collides (w : World) (u out : string)
  (customName : option string) (entries : list string) :
  let url := u +++ ".GIT" in
  let dir := poolDir w (acquiredName w url customName) in
  glob_scan w "*" dir = Some entries ->
  file_exists w (gitMarker dir) = true ->
  git_origin w dir = Some out ->
  JsString.trim out = u +++ ".git" ->
  normalizeUrl url <> normalizeUrl (JsString.trim out)
  /\ result (addFromGitRepo w url customName) = Exit 1
  /\ In (EvError ("   Requested URL: " +++ url))
        (trace (addFromGitRepo w url customName))
  /\ noMutation (trace (addFromGitRepo w url customName)) = true.
Proof.
  intros url dir S Mk O Htrim.
  assert (N : normalizeUrl url <> normalizeUrl (JsString.trim out)).
  { rewrite Htrim. unfold url, normalizeUrl.
    rewrite (stripSuffix_same_length u ".git" ".git" eq_refl).
    rewrite (stripSuffix_same_length u ".GIT" ".git" eq_refl).
    cbn [String.eqb Ascii.eqb Bool.eqb]. cbv iota.
    rewrite toLowerCase_app. intros H.
    apply (f_equal String.length) in H. rewrite append_length in H.
    cbn in H. lia. }
  split; [exact N|].
  unfold addFromGitRepo. fold (acquiredName w url customName).
  fold (poolDir w (acquiredName w url customName)). fold dir. fold (gitMarker dir).
  rewrite directoryExists_eq, S.
  unfold Bun_file_exists, git_config_get_origin. rewrite Mk, O. run.
  assert (Ne : String.eqb (normalizeUrl (JsString.trim out)) (normalizeUrl url) = false)
    by (apply String.eqb_neq; congruence).
  rewrite Ne. run. split; [reflexivity|].
  split; [do 5 right; left; reflexivity|reflexivity].
Qed.

Lemma upper_case_suffix_collides_witness :
  let w := Sample.machine [("/home/u/.buddy/pools/repo/.git/config", "[remote origin]")]
                          [] ["/home/u/.buddy/pools/repo"]
                          [("/home/u/.buddy/pools/repo",
                            "https://host/team/repo.git" +++ Sample.newline)] in
  normalizeUrl "https://host/team/repo.GIT" <> normalizeUrl "https://host/team/repo.git"
  /\ result (addFromGitRepo w "https://host/team/repo.GIT" (Some "repo")) = Exit 1.
Proof.
  intros w.
  pose proof (upper_case_suffix_collides w "https://host/team/repo"
                ("https://host/team/repo.git" +++ Sample.newline)
                (Some "repo") []) as H.
  vm_compute in H. vm_compute.
  destruct H as (N & R & _); try reflexivity.
  split; [exact N|exact R].
Defined.







(* ================================================================= *)
(** ** The loader, the parser and the dispatch of [add] *)

(** X24. Whatever the file system holds, [loadBuddyConfigFrom] returns a
    configuration: it raises nothing and never ends the process; it
    prints nothing, changes nothing, and looks at no file but the
    configuration resource of the directory. *)
Theorem loadBuddyConfigFrom_never_raises (w : World) (dirPath : string) :
  exists config,
    result (loadBuddyConfigFrom w dirPath) = Ret config
    /\ quiet (trace (loadBuddyConfigFrom w dirPath))
    /\ forall p, In p (looksAt (trace (loadBuddyConfigFrom w dirPath))) ->
                 p = configPath dirPath.
Proof.
  destruct (file_exists w (configPath dirPath)) eqn:H.
  - destruct (file_json w (configPath dirPath)) as [v|] eqn:J.
    + rewrite (load_parsed _ _ _ H J). eexists.
      split; [reflexivity|]. split; [split; reflexivity|].
      intros p [<-|[<-|[]]]; reflexivity.
    + rewrite (load_unparsable _ _ H J). eexists.
      split; [reflexivity|]. split; [split; reflexivity|].
      intros p [<-|[<-|[]]]; reflexivity.
  - rewrite (load_absent _ _ H). eexists.
    split; [reflexivity|]. split; [split; reflexivity|].
    intros p [<-|[]]; reflexivity.
Qed.

(** X25. A configuration resource that parses to anything but an object
    ([null], a number, a string, an array) gives the default
    configuration. *)
Theorem loadBuddyConfigFrom_not_an_object (w : World) (dirPath : string) (v : json) :
  file_exists w (configPath dirPath) = true ->
  file_json w (configPath dirPath) = Some v ->
  (forall members, v <> JObj members) ->
  result (loadBuddyConfigFrom w dirPath) = Ret BuddyConfig.new.
Proof.
  intros H J Hv. rewrite (load_parsed _ _ _ H J).
  destruct v; try reflexivity. exfalso. exact (Hv members eq_refl).
Qed.

Lemma loadBuddyConfigFrom_not_an_object_witness :
  let file := "/pool/.buddy/config.json" in
  let w := Sample.machine [(file, "null")] [(file, JNull)] [] [] in
  result (loadBuddyConfigFrom w "/pool") = Ret BuddyConfig.new.
Proof.
  intros file w.
  apply (loadBuddyConfigFrom_not_an_object w "/pool" JNull);
    try reflexivity. intros members. discriminate.
Defined.

Lemma orElse_nonempty (a b : string) : b <> "" -> JsString.orElse a b <> "".
Proof.
  intros Hb. unfold JsString.orElse.
  destruct (String.eqb a "") eqn:E; [assumption|].
  apply String.eqb_neq. assumption.
Qed.

Lemma split_two (source : string) :
  noSep Path.slash source = false ->
  exists h y l, JsString.split Path.slash source = h :: y :: l.
Proof.
  induction source as [|a r IH]; [discriminate|].
  cbn [noSep JsString.split]. destruct (Ascii.eqb a Path.slash) eqn:E; cbn [negb andb].
  - intros _. pose proof (split_nonempty Path.slash r) as Hne.
    destruct (JsString.split Path.slash r) as [|y l]; [contradiction|].
    exists "", y, l. reflexivity.
  - intros H. destruct (IH H) as (h & y & l & Hs). rewrite Hs.
    exists (String a h), y, l. reflexivity.
Qed.

Lemma split_head_nonempty (source : string) :
  JsString.startsWith source "/" = false -> source <> "" ->
  List.hd "" (JsString.split Path.slash source) <> "".
Proof.
  destruct source as [|a r]; [contradiction|]. intros H _.
  rewrite startsWith_slash_cons in H. cbn [JsString.split]. rewrite H.
  destruct (JsString.split Path.slash r); discriminate.
Qed.

(** X26. The names [parseImportSource] gives are never empty and the leaf
    name contains no [/]; a reference that does not start with [/] is
    the pool name, followed by [/] and the relative path when it has
    one. *)
Theorem parseImportSource_names (source : string) :
  let parsed := parseImportSource source in
  repoName parsed <> ""
  /\ filename parsed <> ""
  /\ noSep Path.slash (filename parsed) = true
  /\ (JsString.startsWith source "/" = false ->
      noSep Path.slash source = false ->
      repoName parsed +++ "/" +++ agentPath parsed = source)
  /\ (noSep Path.slash source = true -> source <> "" ->
      repoName parsed = source /\ agentPath parsed = "" /\ filename parsed = source).
Proof.
  intros parsed. split; [apply orElse_nonempty; discriminate|].
  split; [apply orElse_nonempty; discriminate|].
  split; [apply filename_noSep|]. split.
  - intros Hs Hn. unfold parsed, parseImportSource. cbn [repoName agentPath].
    assert (Hne : source <> "") by (intros ->; discriminate).
    pose proof (split_head_nonempty source Hs Hne) as Hh.
    pose proof (join_split Path.slash source) as J.
    destruct (split_two source Hn) as (h & y & l & E). rewrite E in *.
    cbn [hd tl] in *. unfold JsString.orElse.
    rewrite (eqb_empty_false _ Hh).
    rewrite <- J. reflexivity.
  - intros Hs Hne. unfold parsed, parseImportSource.
    rewrite (split_noSep _ _ Hs). cbn [repoName agentPath filename hd tl last].
    unfold JsString.orElse. rewrite (eqb_empty_false _ Hne).
    repeat split.
Qed.

(** X27. A source that is a URL is handled as a URL whatever flags are
    given: of the options only [--as] matters. *)
Theorem addCommand_url_ignores_flags (w : World) (url : string)
  (options options' : AddOptions.t) :
  isUrl url = true ->
  AddOptions.as_ options = AddOptions.as_ options' ->
  addCommand w (Some url) options = addCommand w (Some url) options'
  /\ addCommand w (Some url) options = addFromUrl w url (AddOptions.as_ options).
Proof.
  intros Hu Has. unfold addCommand.
  assert (G : given (Some url) = Some url).
  { cbn [given]. destruct (String.eqb url "") eqn:E; [|reflexivity].
    apply String.eqb_eq in E. subst. discriminate. }
  rewrite G, Hu, Has. split; reflexivity.
Qed.

Lemma addCommand_url_ignores_flags_witness :
  addCommand Sample.bare (Some "https://host/team/Repo.git")
             (AddOptions.mk (Some "a") (Some "b") (Some "c") (Some "d") None)
  = addCommand Sample.bare (Some "https://host/team/Repo.git")
               (AddOptions.mk None None None None None).
Proof.
  apply (addCommand_url_ignores_flags Sample.bare "https://host/team/Repo.git"
           (AddOptions.mk (Some "a") (Some "b") (Some "c") (Some "d") None)
           (AddOptions.mk None None None None None));
    vm_compute; reflexivity.
Defined.

(* ================================================================= *)
(** ** The search for a configuration upward *)

Example dirname_samples :
  List.map Path.dirname ["/a/b"; "/a"; "/a/b/"; "a/b"; "//a"; "a"; "/"; ""; "/a//b"]
  = ["/a"; "/"; "/a"; "a"; "//"; "."; "/"; "."; "/a/"].
Proof. vm_compute. reflexivity. Qed.

Example resolve_samples :
  List.map (Path.resolve "/work/dir") [["/work/dir"]; ["/"]; ["../x/"]; []]
  = ["/work/dir"; "/"; "/work/x"; "/work/dir"].
Proof. vm_compute. reflexivity. Qed.

Lemma dropWhile_length {A} (p : A -> bool) (l : list A) :
  List.length (Path.dropWhile p l) <= List.length l.
Proof.
  induction l as [|x l IH]; cbn [Path.dropWhile]; [lia|].
  destruct (p x); cbn [List.length] in *; lia.
Qed.

Lemma dropWhile_head {A} (p : A -> bool) (l : list A) (x : A) (r : list A) :
  Path.dropWhile p l = x :: r -> p x = false.
Proof.
  induction l as [|y l IH]; cbn [Path.dropWhile]; [discriminate|].
  destruct (p y) eqn:E; [exact IH|].
  intros H. injection H as <- _. exact E.
Qed.

Lemma string_of_list_length (l : list ascii) :
  String.length (string_of_list_ascii l) = List.length l.
Proof. induction l; simpl; congruence. Qed.

Lemma list_of_string_length (s : string) :
  List.length (list_ascii_of_string s) = String.length s.
Proof. induction s; simpl; congruence. Qed.

Lemma turns_positive (dir : string) : 3 <= turns dir.
Proof.
  unfold turns. destruct (String.eqb dir "") eqn:E; [lia|].
  destruct dir as [|a dir]; [discriminate|].
  cbn [String.length]. destruct (String.eqb (String a dir) ".") eqn:D; [|lia].
  apply String.eqb_eq in D. injection D as -> ->. cbn. lia.
Qed.

(** A step up shortens the way that is left. *)
Lemma dirname_turns (dir : string) :
  Path.dirname dir <> dir -> turns (Path.dirname dir) < turns dir.
Proof.
  unfold Path.dirname.
  pose proof (list_of_string_length dir) as Hlen.
  pose proof (string_of_list_ascii_of_string dir) as Hback.
  destruct (list_ascii_of_string dir) as [|first rest] eqn:L.
  { cbn in Hback. subst dir. intros _. vm_compute. lia. }
  cbn [List.length] in Hlen.
  assert (Hd : String.eqb dir "" = false).
  { destruct dir; [discriminate Hlen|reflexivity]. }
  cbv zeta.
  set (afterSlashes := Path.dropWhile Path.isSlash (rev rest)).
  set (afterName := Path.dropWhile (fun a => negb (Path.isSlash a)) afterSlashes).
  assert (Hshort : List.length afterName <= List.length rest).
  { unfold afterName, afterSlashes.
    etransitivity; [apply dropWhile_length|].
    etransitivity; [apply dropWhile_length|]. rewrite length_rev. lia. }
  destruct afterName as [|c before] eqn:N.
  - destruct (Path.isSlash first) eqn:R.
    + intros Hne. unfold turns at 1. cbn.
      unfold turns. rewrite Hd.
      destruct rest as [|b rest'].
      * exfalso. apply Hne. rewrite <- Hback. cbn.
        unfold Path.isSlash in R. apply Ascii.eqb_eq in R. subst first. reflexivity.
      * cbn [List.length] in Hlen. lia.
    + intros Hne. unfold turns at 1. cbn.
      unfold turns. rewrite Hd.
      destruct (String.eqb dir ".") eqn:D.
      * apply String.eqb_eq in D. congruence.
      * lia.
  - destruct (Path.isSlash first && match before with [] => true | _ => false end)
      eqn:C.
    + intros _. unfold turns at 1. cbn.
      assert (2 <= List.length rest).
      { apply andb_true_iff in C as [_ C].
        destruct before; [|discriminate].
        pose proof (dropWhile_head _ _ _ _ N) as Hc.
        unfold afterName in N.
        destruct afterSlashes as [|a r'] eqn:S; [discriminate N|].
        pose proof (dropWhile_head _ _ _ _ S) as Ha.
        cbn [Path.dropWhile] in N. rewrite Ha in N. cbn [negb] in N.
        assert (1 <= List.length r').
        { destruct r'; [discriminate N|cbn; lia]. }
        assert (List.length (a :: r') <= List.length rest).
        { rewrite <- S. unfold afterSlashes.
          etransitivity; [apply dropWhile_length|]. rewrite length_rev. lia. }
        cbn [List.length] in *. lia. }
      unfold turns. rewrite Hd.
      destruct (String.eqb dir "."); lia.
    + intros _. unfold turns.
      cbn [string_of_list_ascii String.eqb].
      rewrite Hd. cbn [String.length].
      rewrite string_of_list_length, length_rev.
      cbn [List.length] in Hshort.
      repeat match goal with
             | |- context [if ?b then 0 else 1] => destruct b
             end; lia.
Qed.

Lemma resolve_root (c : string) : Path.resolve c ["/"] = "/".
Proof. reflexivity. Qed.

Lemma config_basename (dir : string) :
  basename (Path.join [dir; ".buddy"; "config.json"]) = "config.json".
Proof.
  apply (basename_path_join [dir; ".buddy"]).
  repeat split; discriminate.
Qed.

Lemma searchUp_spec (w : World) (fuel : nat) :
  forall dir rootDir,
    turns dir <= fuel ->
    exists t r,
      searchUp w fuel dir rootDir = (t, Ret (Some r))
      /\ quiet t
      /\ (forall p, r = Some p ->
                    file_exists w p = true /\ basename p = "config.json")
      /\ (forall p, In p (looksAt t) -> r = None -> file_exists w p = false)
      /\ forall fuel', turns dir <= fuel' ->
                       searchUp w fuel' dir rootDir = searchUp w fuel dir rootDir.
Proof.
  induction fuel as [|fuel IH]; intros dir rootDir Hf.
  { pose proof (turns_positive dir). lia. }
  assert (Unfold : forall n, turns dir <= n ->
    exists m, n = S m).
  { intros n Hn. pose proof (turns_positive dir).
    destruct n; [lia|]. eexists; reflexivity. }
  cbn [searchUp]. destruct (String.eqb dir rootDir) eqn:Eroot.
  { exists [], None. repeat split; try discriminate; try contradiction.
    intros fuel' Hf'. destruct (Unfold fuel' Hf') as (m & ->).
    cbn [searchUp]. rewrite Eroot. reflexivity. }
  unfold Bun_file_exists.
  set (file := Path.join [dir; ".buddy"; "config.json"]).
  destruct (file_exists w file) eqn:Ex; run.
  { exists [EvExists file], (Some file).
    split; [reflexivity|]. split; [split; reflexivity|].
    split; [intros p Hp; injection Hp as <-; split;
            [exact Ex|apply config_basename]|].
    split; [discriminate|].
    intros fuel' Hf'. destruct (Unfold fuel' Hf') as (m & ->).
    cbn [searchUp]. rewrite Eroot. unfold Bun_file_exists. fold file.
    rewrite Ex. reflexivity. }
  destruct (String.eqb (Path.dirname dir) dir) eqn:Eparent.
  { exists [EvExists file], None.
    split; [reflexivity|]. split; [split; reflexivity|].
    split; [discriminate|].
    split; [intros p [<-|[]] _; exact Ex|].
    intros fuel' Hf'. destruct (Unfold fuel' Hf') as (m & ->).
    cbn [searchUp]. rewrite Eroot. unfold Bun_file_exists. fold file.
    rewrite Ex. run. rewrite Eparent. reflexivity. }
  apply String.eqb_neq in Eparent.
  pose proof (dirname_turns dir Eparent) as Hdec.
  destruct (IH (Path.dirname dir) rootDir ltac:(lia))
    as (t & r & E & Q & Hfound & Hnone & Hfuel).
  rewrite E. exists (EvExists file :: t), r.
  split; [reflexivity|].
  split; [apply (quiet_app [EvExists file] t); [split; reflexivity|exact Q]|].
  split; [exact Hfound|].
  split.
  - intros p [<-|Hp] Hr; [exact Ex|]. apply Hnone; assumption.
  - intros fuel' Hf'. destruct (Unfold fuel' Hf') as (m & ->).
    cbn [searchUp]. rewrite Eroot. unfold Bun_file_exists. fold file.
    rewrite Ex. run. apply String.eqb_neq in Eparent. rewrite Eparent.
    rewrite (Hfuel m ltac:(lia)), E. reflexivity.
Qed.

(** X28. With turns enough for the working directory, [findBuddyConfig]
    returns, and what it returns does not depend on the turns; a path
    it returns is a [config.json] that exists; it returns [null] only
    when none of the files it looked at exists; it prints nothing and
    changes nothing. *)
Theorem findBuddyConfig_returns (w : World) (fuel fuel' : nat) :
  turns (Path.resolve (cwd w) [cwd w]) <= fuel ->
  turns (Path.resolve (cwd w) [cwd w]) <= fuel' ->
  findBuddyConfig w fuel = findBuddyConfig w fuel'
  /\ exists found,
       result (findBuddyConfig w fuel) = Ret (Some found)
       /\ quiet (trace (findBuddyConfig w fuel))
       /\ (forall p, found = Some p ->
                     file_exists w p = true /\ basename p = "config.json")
       /\ (found = None ->
           forall p, In p (looksAt (trace (findBuddyConfig w fuel))) ->
                     file_exists w p = false).
Proof.
  intros Hf Hf'.
  destruct (searchUp_spec w fuel _ (Path.resolve (cwd w) ["/"]) Hf)
    as (t & r & E & Q & Hfound & Hnone & Hfuel).
  split.
  { unfold findBuddyConfig. rewrite (Hfuel fuel' Hf'). reflexivity. }
  unfold findBuddyConfig. rewrite E. cbn [bind].
  destruct r as [p|].
  - exists (Some p). cbn [ret app trace result fst snd]. rewrite app_nil_r.
    split; [reflexivity|]. split; [exact Q|].
    split; [exact Hfound|discriminate].
  - unfold Bun_file_exists. rewrite resolve_root.
    set (rootFile := Path.join ["/"; ".buddy"; "config.json"]).
    set (homeFile := Path.join [homedir w; ".buddy"; "config.json"]).
    destruct (file_exists w rootFile) eqn:Er; run.
    + exists (Some rootFile). split; [reflexivity|].
      split; [apply quiet_app; [exact Q|split; reflexivity]|].
      split; [|discriminate].
      intros p Hp. injection Hp as <-. split; [exact Er|apply config_basename].
    + destruct (file_exists w homeFile) eqn:Eh; run.
      * exists (Some homeFile). split; [reflexivity|].
        split; [apply quiet_app; [exact Q|split; reflexivity]|].
        split; [|discriminate].
        intros p Hp. injection Hp as <-. split; [exact Eh|apply config_basename].
      * exists None. split; [reflexivity|].
        split; [apply quiet_app; [exact Q|split; reflexivity]|].
        split; [discriminate|].
        intros _ p Hp. rewrite looksAt_app in Hp. apply in_app_or in Hp.
        destruct Hp as [Hp|[<-|[<-|[]]]]; [apply Hnone; auto|exact Er|exact Eh].
Qed.

Lemma findBuddyConfig_returns_witness :
  let w := Sample.machine [("/work/.buddy/config.json", "{}")] [] [] []  in
  findBuddyConfig w 12 = findBuddyConfig w 40
  /\ exists found,
       result (findBuddyConfig w 12) = Ret (Some found)
       /\ quiet (trace (findBuddyConfig w 12))
       /\ (forall p, found = Some p ->
                     file_exists w p = true /\ basename p = "config.json")
       /\ (found = None ->
           forall p, In p (looksAt (trace (findBuddyConfig w 12))) ->
                     file_exists w p = false).
Proof.
  intros w.
  apply (findBuddyConfig_returns w 12 40); vm_compute; lia.
Defined.

(** X29. The configuration of the working directory itself comes first: when
    it exists, it is returned and nothing else is looked at. *)
Theorem findBuddyConfig_nearest (w : World) (fuel : nat) :
  let currentDir := Path.resolve (cwd w) [cwd w] in
  let file := Path.join [currentDir; ".buddy"; "config.json"] in
  currentDir <> "/" ->
  file_exists w file = true ->
  findBuddyConfig w (S fuel) = ([EvExists file], Ret (Some (Some file))).
Proof.
  intros currentDir file Hroot Ex.
  unfold findBuddyConfig. fold currentDir. rewrite resolve_root.
  cbn [searchUp]. apply String.eqb_neq in Hroot. rewrite Hroot.
  unfold Bun_file_exists. fold file. rewrite Ex. reflexivity.
Qed.

Lemma findBuddyConfig_nearest_witness :
  let w := Sample.machine [("/work/.buddy/config.json", "{}");
                           ("/.buddy/config.json", "{}");
                           ("/home/u/.buddy/config.json", "{}")] [] [] [] in
  findBuddyConfig w 1
  = ([EvExists "/work/.buddy/config.json"],
     Ret (Some (Some "/work/.buddy/config.json"))).
Proof.
  intros w.
  pose proof (findBuddyConfig_nearest w 0) as H.
  vm_compute in H. vm_compute. apply H; [discriminate|reflexivity].
Defined.
